(** * PortageGUI: the command execution and sequencing engine

    A shallow embedding of [src/PortageGUI.py]: the two worker threads
    ([CommandWorker], [GenericWorker]), the single-worker task runners
    ([run_generic_task], [run_emerge_command]), the sequential loading chain
    ([_start_next_load_step], [_generic_finished], [_generic_error]), the
    failure classifier of the update step ([on_updates_error]), the parsers
    of the package lists ([parse_eix_output], [parse_equery_installed]) and
    the actions of the user ([refresh_all], [run_sync], [cancel_operation],
    [install_selected_browse], [uninstall_selected], [update_selected],
    [update_all]).

    Conventions.
    - A Python [str] is a [string] holding its UTF-8 bytes.  Substring tests
      and lexicographic comparison on UTF-8 bytes agree with the same
      operations on code points.
    - The widgets are only written by the modelled functions, so the user
      interface is the trace of the calls made on it, newest first.
    - What a worker thread observes of its process (lines read, exit status,
      the moment [stop] takes effect) is an explicit input.
    - The items selected in a list and the answer to a question box are
      inputs of the action that reads them; the regular expressions of
      [get_selected_package_atoms] and [parse_updates] are left general.
    - The slots of the signals of a worker run in the GUI thread.
      [complete_worker] and [process_ends] run them and then end the thread
      of the worker, with no action of the user in between. *)

From Stdlib Require Import ZArith NArith Ascii String DecimalString Bool.
From stdpp Require Import base decidable option list gmap strings sorting.

Local Open Scope Z_scope.

(** ** Python strings *)

Module PyStr.

Definition code (c : ascii) : N := N_of_ascii c.

(** [x in (lo .. hi)] on byte values. *)
Definition between (lo hi : N) (c : ascii) : bool :=
  ((lo <=? code c) && (code c <=? hi))%N.

Definition is_byte (n : N) (c : ascii) : bool := (code c =? n)%N.

(** The one-byte characters for which [str.isspace] holds:
    U+0009..U+000D, U+001C..U+001F and U+0020. *)
Definition space1 (a : ascii) : bool :=
  between 9 13 a || between 28 32 a.

(** U+0085 and U+00A0. *)
Definition space2 (a b : ascii) : bool :=
  is_byte 194 a && (is_byte 133 b || is_byte 160 b).

(** U+1680, U+2000..U+200A, U+2028, U+2029, U+202F, U+205F, U+3000. *)
Definition space3 (a b c : ascii) : bool :=
  (is_byte 225 a && is_byte 154 b && is_byte 128 c)
  || (is_byte 226 a && is_byte 128 b
      && (between 128 138 c || is_byte 168 c || is_byte 169 c
          || is_byte 175 c))
  || (is_byte 226 a && is_byte 129 b && is_byte 159 c)
  || (is_byte 227 a && is_byte 128 b && is_byte 128 c).

(** Drops the whitespace characters at the head of [s].  With
    [mirrored = true] the bytes of every character come in reverse order,
    which is how the tail of a string reads once the string is
    reversed. *)
Fixpoint drop_space (mirrored : bool) (s : string) : string :=
  match s with
  | EmptyString => s
  | String a r =>
      if space1 a then drop_space mirrored r
      else
        match r with
        | EmptyString => s
        | String b r' =>
            if (if mirrored then space2 b a else space2 a b)
            then drop_space mirrored r'
            else
              match r' with
              | EmptyString => s
              | String c r'' =>
                  if (if mirrored then space3 c b a else space3 a b c)
                  then drop_space mirrored r''
                  else s
              end
        end
  end.

Definition lstrip (s : string) : string := drop_space false s.

Definition rstrip (s : string) : string :=
  String.rev (drop_space true (String.rev s)).

(** [s.strip()] *)
Definition strip (s : string) : string := rstrip (lstrip s).

(** [needle in hay] *)
Fixpoint contains (needle hay : string) : bool :=
  String.prefix needle hay
  || match hay with
     | EmptyString => false
     | String _ rest => contains needle rest
     end.

(** [s.startswith(p)] *)
Definition startswith (p s : string) : bool := String.prefix p s.

(** [sep.join(parts)] *)
Definition join (sep : string) (parts : list string) : string :=
  String.concat sep parts.

(** A line boundary of [str.splitlines] at the head of [s]: its length in
    bytes, 0 when there is none.  The boundaries are [\n], [\r], [\r\n],
    [\v], [\f], U+001C, U+001D, U+001E, U+0085, U+2028 and U+2029; only
    the first line is ever used, so [\r\n] need not be told from [\r]. *)
Definition line_break (s : string) : nat :=
  match s with
  | EmptyString => 0%nat
  | String a r =>
      if between 10 13 a || between 28 30 a then 1%nat
      else
        match r with
        | EmptyString => 0%nat
        | String b r' =>
            if is_byte 194 a && is_byte 133 b then 2%nat
            else
              match r' with
              | EmptyString => 0%nat
              | String c _ =>
                  if is_byte 226 a && is_byte 128 b
                     && (is_byte 168 c || is_byte 169 c)
                  then 3%nat
                  else 0%nat
              end
        end
  end.

(** The text before the first line boundary. *)
Fixpoint until_break (s : string) : string :=
  match s with
  | EmptyString => EmptyString
  | String a r =>
      match line_break s with
      | O => String a (until_break r)
      | S _ => EmptyString
      end
  end.

(** [s.splitlines()[0]]: [None] stands for the [IndexError] raised on the
    empty string, whose list of lines is empty. *)
Definition first_line (s : string) : option string :=
  match s with
  | EmptyString => None
  | _ => Some (until_break s)
  end.

(** [str(n)] for an [int]. *)
Definition str_of_Z (n : Z) : string :=
  NilZero.string_of_int (Z.to_int n).

Definition str_of_nat (n : nat) : string := str_of_Z (Z.of_nat n).

(** [sorted(l)] on strings.  The elements are compared by [<] on [str];
    a sorted permutation under a total antisymmetric order is unique, so
    any correct sort returns what Python's does. *)
Definition sorted (l : list string) : list string :=
  merge_sort String.le l.

End PyStr.

Import PyStr.

(** ** Parsers handed to the generic worker *)

(** [parse_eix_output], the local function of [load_all_available_packages]:
    [packages] is a Python [set]; [list(packages)] enumerates it in an order
    of the implementation's choosing, here that of [elements]. *)
Definition parse_eix_output (lines : list string) : list string :=
  let packages : gset string :=
    foldl (fun (packages : gset string) (line : string) =>
             if negb (String.eqb line "") && contains "/" line
             then packages ∪ {[ strip line ]}
             else packages)
          ∅ lines in
  sorted (elements packages).

(** [parse_equery_installed], the local function of
    [refresh_installed_packages]. *)
Definition parse_equery_installed (lines : list string) : list string :=
  sorted
    (strip <$>
       filter (fun line : string =>
                 Is_true (negb (String.eqb line "")
                          && negb (startswith "[" line)
                          && contains "/" line))
              lines).

(** ** Configuration *)

Definition COMMAND_TIMEOUT : Z := 300.

(** ** Worker threads *)

(** The argument handed through the [finished] and [error] signals: [None]
    or a load step. *)
Definition CallbackArg : Type := option Z.

(** What travels on the [result] signal. *)
Inductive Payload : Type :=
| PText (text : string)
| PLines (lines : list string)
| PUpdates (atoms display : list string).

(** [WorkerSignals] *)
Inductive Signal : Type :=
| sig_finished (callback_arg : CallbackArg)
| sig_error (msg : string) (callback_arg : CallbackArg)
| sig_result (data : Payload)
| sig_progress (text : string).

Module Worker.

Definition nl : string := String (ascii_of_nat 10) EmptyString.

(** [subprocess.Popen(...)]: it returns, raises [FileNotFoundError], or
    raises another exception whose text is [e]. *)
Inductive Launch : Type :=
| Spawned
| NotFound
| LaunchFails (e : string).

(** [process.wait(timeout=...)]: it returns with the process's return code
    or raises [subprocess.TimeoutExpired]. *)
Inductive Wait : Type :=
| Exited (returncode : Z)
| Expired.

(** What one run of a worker observes of its environment. *)
Record Process : Type := {
  (** [which pkexec] has return code 0 *)
  pkexec_found : bool;
  launch : Launch;
  (** the lines [stdout.readline] returns, in order *)
  stdout : list string;
  (** after them [readline] returns [''] ([true]) or never returns *)
  stdout_eof : bool;
  (** [stop] clears [_running] once [run] has read the flag that many
      times; [None] when [run] never sees it cleared *)
  stop_after : option nat;
  (** [stderr.read()]; [None] when it never returns *)
  stderr : option string;
  wait : Wait
}.

(** How [run] ends: it returns, it stays blocked in a read for ever, or an
    exception leaves it. *)
Inductive Ending : Type :=
| Returned
| Blocked
| Escaped (exn : string).

Record Run : Type := {
  (** the signals emitted, in order *)
  emitted : list Signal;
  (** [process.kill()] was called *)
  killed : bool;
  ending : Ending
}.

Definition returns (sigs : list Signal) : Run :=
  {| emitted := sigs; killed := false; ending := Returned |}.

(** The value of [self._running] at the read number [reads] (from 0). *)
Definition running (p : Process) (reads : nat) : bool :=
  match stop_after p with
  | Some n => bool_decide (reads < n)%nat
  | None => true
  end.

(** [for line in iter(self.process.stdout.readline, ''):
       if not self._running: break
       ...]
    The lines that pass the check, and whether the loop was left by
    [break]. *)
Fixpoint read_loop (p : Process) (reads : nat) (lines : list string)
  : list string * bool :=
  match lines with
  | [] => ([], false)
  | line :: rest =>
      if running p reads
      then let '(passed, broke) := read_loop p (S reads) rest in
           (line :: passed, broke)
      else ([], true)
  end.

Definition msg_cancelled : string := "Operation Cancelled".

Definition msg_timeout : string :=
  "Command timed out after " +:+ str_of_Z COMMAND_TIMEOUT +:+ " seconds.".

Definition msg_failed (returncode : Z) (command : list string)
    (stderr_output : string) : string :=
  "Command failed with exit code " +:+ str_of_Z returncode +:+ "." +:+ nl
  +:+ "Command: " +:+ join " " command +:+ nl
  +:+ (if negb (String.eqb stderr_output "")
       then "Stderr:" +:+ nl +:+ strip stderr_output
       else "No stderr output captured.").

(** What follows the read of standard output in both workers, up to the
    test of the return code: [on_exit] is the code after
    [process.wait(timeout=COMMAND_TIMEOUT)] has returned.  [before] holds
    the signals emitted so far. *)
Definition after_stdout (p : Process) (callback_arg : CallbackArg)
    (before : list Signal) (broke : bool) (reads : nat)
    (on_exit : Z -> string -> Run) : Run :=
  if negb broke && negb (stdout_eof p) then
    {| emitted := before; killed := false; ending := Blocked |}
  else if negb (running p reads) then
    returns (before ++ [sig_error msg_cancelled callback_arg])
  else
    match stderr p with
    | None => {| emitted := before; killed := false; ending := Blocked |}
    | Some stderr_output =>
        match wait p with
        | Expired =>
            {| emitted := before ++ [sig_error msg_timeout callback_arg];
               killed := true; ending := Returned |}
        | Exited returncode =>
            let r := on_exit returncode stderr_output in
            {| emitted := before ++ emitted r;
               killed := killed r; ending := ending r |}
        end
    end.

(** [CommandWorker.run] *)
Definition CommandWorker_run (command_list : list string)
    (use_pkexec : bool) (callback_arg : CallbackArg) (p : Process) : Run :=
  if use_pkexec && negb (pkexec_found p) then
    returns [sig_error
               "Error: 'pkexec' command not found. Is PolicyKit installed?"
               callback_arg]
  else
    let full_command :=
      if use_pkexec
      then ["pkexec"; "--disable-internal-agent"] ++ command_list
      else command_list in
    match launch p with
    | NotFound =>
        match command_list with
        | [] => {| emitted := []; killed := false;
                   ending := Escaped "IndexError" |}
        | c :: _ =>
            returns [sig_error ("Error: Command '" +:+ c +:+ "' not found.")
                       callback_arg]
        end
    | LaunchFails e =>
        returns [sig_error
                   ("An unexpected error occurred in CommandWorker: " +:+ e)
                   callback_arg]
    | Spawned =>
        let '(passed, broke) := read_loop p 0 (stdout p) in
        let progress := (fun line => sig_progress (strip line)) <$> passed in
        after_stdout p callback_arg progress broke
          (length passed + (if broke then 1 else 0))%nat
          (fun returncode stderr_output =>
             if negb (returncode =? 0) then
               returns [sig_error
                          (msg_failed returncode full_command stderr_output)
                          callback_arg]
             else
               returns [sig_result (PText "Command finished successfully.");
                        sig_finished callback_arg])
    end.

(** [CommandWorker.stop] and [GenericWorker.stop] are the same code. *)
Inductive Terminate : Type :=
| Terminates (exits_within_grace : bool)
| TerminateRaises (e : string).

Record StopEnv : Type := {
  (** [self.process and self.process.poll() is None] *)
  process_alive : bool;
  (** [terminate()], then whether [wait(timeout=2)] returns *)
  terminate : Terminate
}.

Record Stopped : Type := {
  stop_emitted : list Signal;
  stop_terminated : bool;
  stop_killed : bool
}.

Definition stop (env : StopEnv) : Stopped :=
  if process_alive env then
    match terminate env with
    | Terminates true =>
        {| stop_emitted := [sig_progress "Attempting to terminate process...";
                            sig_progress "Termination signal sent."];
           stop_terminated := true; stop_killed := false |}
    | Terminates false =>
        {| stop_emitted := [sig_progress "Attempting to terminate process...";
                            sig_progress "Forcing process kill...";
                            sig_progress "Termination signal sent."];
           stop_terminated := true; stop_killed := true |}
    | TerminateRaises e =>
        {| stop_emitted := [sig_progress "Attempting to terminate process...";
                            sig_progress
                              ("Could not stop process cleanly: " +:+ e)];
           stop_terminated := false; stop_killed := false |}
    end
  else
    {| stop_emitted := []; stop_terminated := false; stop_killed := false |}.

(** [GenericWorker.run]; [parser_func] returns the text of the exception
    it raises, or its result. *)
Definition GenericWorker_run (command_list : list string)
    (parser_func : option (list string -> string + Payload))
    (callback_arg : CallbackArg) (p : Process) : Run :=
  match launch p with
  | NotFound =>
      match command_list with
      | [] => {| emitted := []; killed := false;
                 ending := Escaped "IndexError" |}
      | c :: _ =>
          returns [sig_error
                     ("Error: Command '" +:+ c
                      +:+ "' not found. Is it installed and in PATH?")
                     callback_arg]
      end
  | LaunchFails e =>
      returns [sig_error
                 ("An unexpected error occurred in GenericWorker: " +:+ e)
                 callback_arg]
  | Spawned =>
      let '(passed, broke) := read_loop p 0 (stdout p) in
      let stdout_lines := strip <$> passed in
      after_stdout p callback_arg [] broke
        (length passed + (if broke then 1 else 0))%nat
        (fun returncode stderr_output =>
           if negb (returncode =? 0) then
             returns [sig_error
                        (msg_failed returncode command_list stderr_output)
                        callback_arg]
           else
             match parser_func with
             | None =>
                 returns [sig_result (PLines stdout_lines);
                          sig_finished callback_arg]
             | Some parse =>
                 match parse stdout_lines with
                 | inl e =>
                     returns [sig_error
                                ("Error parsing command output: " +:+ e
                                 +:+ nl +:+ "Output:" +:+ nl
                                 +:+ join " " (take 10 stdout_lines)
                                 +:+ "...")
                                callback_arg]
                 | inr parsed_result =>
                     returns [sig_result parsed_result;
                              sig_finished callback_arg]
                 end
             end)
  end.

(** A signal that ends a task: [finished] or [error]. *)
Definition terminal (s : Signal) : bool :=
  match s with
  | sig_finished _ | sig_error _ _ => true
  | sig_result _ | sig_progress _ => false
  end.

(** The signals that end a task, among those emitted. *)
Definition terminal_signals (r : Run) : list Signal :=
  filter (fun s => Is_true (terminal s)) (emitted r).

Definition is_result (s : Signal) : bool :=
  match s with
  | sig_result _ => true
  | _ => false
  end.

(** The [result] signals emitted. *)
Definition result_signals (r : Run) : list Signal :=
  filter (fun s => Is_true (is_result s)) (emitted r).

(** A process that writes nothing, keeps its standard output open and does
    not exit. *)
Definition hung_process : Process :=
  {| pkexec_found := true;
     launch := Spawned;
     stdout := [];
     stdout_eof := false;
     stop_after := None;
     stderr := None;
     wait := Expired |}.

(** A process that has closed its standard output without a line and is
    still running when [stop] is called: [run] is past its last look at
    [_running], the process dies of the termination signal. *)
Definition stopped_late : Process :=
  {| pkexec_found := true;
     launch := Spawned;
     stdout := [];
     stdout_eof := true;
     stop_after := Some 1%nat;
     stderr := Some EmptyString;
     wait := Exited (-15) |}.

(** A launch that fails because the executable is not found. *)
Definition missing_executable : Process :=
  {| pkexec_found := true;
     launch := NotFound;
     stdout := [];
     stdout_eof := true;
     stop_after := None;
     stderr := Some EmptyString;
     wait := Exited 127 |}.

(** A process stopped while its second line is being read. *)
Definition stopped_while_reading : Process :=
  {| pkexec_found := true;
     launch := Spawned;
     stdout := [">>> Emerging (1 of 2) app-misc/foo"; ">>> Installing"];
     stdout_eof := true;
     stop_after := Some 1%nat;
     stderr := Some EmptyString;
     wait := Exited (-15) |}.

End Worker.

(** ** The main window *)

Module Gui.

Definition LOAD_STEP_INSTALLED : Z := 0.
Definition LOAD_STEP_AVAILABLE : Z := 1.
Definition LOAD_STEP_UPDATES : Z := 2.
Definition LOAD_STEP_COMPLETE : Z := 3.

(** Tab indices, in the order of the [addTab] calls of [setup_ui]. *)
Definition browse_tab_index : Z := 0.
Definition installed_tab_index : Z := 1.
Definition update_tab_index : Z := 2.
Definition output_tab_index : Z := 3.

Definition tab_base_texts : gmap string string :=
  <["browse" := "Browse Packages"]>
    (<["installed" := "Installed Packages"]>
       (<["updates" := "Updates"]>
          (<["output" := "Output Console"]> ∅))).

Inductive ListWidget : Type :=
| browse_package_list
| installed_package_list
| update_package_list.

(** The calls made on the widgets and on standard output. *)
Inductive UiCall : Type :=
| Print (text : string)
| ShowMessage (text : string) (timeout : Z)
| ProgressSetRange (lo hi : Z)
| ProgressSetVisible (visible : bool)
| CancelSetEnabled (enabled : bool)
| ConsoleAppend (text : string)
| ConsoleEnsureCursorVisible
| ConsoleProgress (text : string)
| CriticalBox (message : string)
| ListClear (w : ListWidget)
| ListAddItem (w : ListWidget) (text : string)
| ListAddItems (w : ListWidget) (items : list string)
| SetTabText (index : Z) (text : string)
| ShowOutputTab
| Refilter (w : ListWidget).

(** The parsers, result handlers and completion handlers a worker is
    created with, by name. *)
Inductive Parser : Type :=
| parser_equery_installed
| parser_eix_output
| parser_updates.

Inductive ResultSlot : Type :=
| slot_on_installed_result
| slot_on_load_available_result
| slot_on_updates_result.

(** The [on_finished_callback] values passed to [run_emerge_command]. *)
Inductive FinishedCallback : Type :=
| cb_sync_finished
| cb_action_requires_refresh.

(** Every call of [run_emerge_command] passes [on_error_callback=None]:
    there is no error callback to name. *)
Inductive ErrorCallback : Type := .

Inductive FinishedSlot : Type :=
| slot_generic_finished
| slot_command_action_finished (callback : option FinishedCallback).

Inductive ErrorSlot : Type :=
| slot_on_installed_error
| slot_on_load_available_error
| slot_on_updates_error
| slot_command_action_error (callback : option ErrorCallback).

Inductive WorkerClass : Type :=
| GenericWorker (parser_func : Parser) (on_result : ResultSlot)
| CommandWorker (use_pkexec : bool).

(** A worker object with the slots its signals are connected to. *)
Record WorkerObj : Type := {
  worker_class : WorkerClass;
  command_list : list string;
  callback_arg : CallbackArg;
  finished_slot : FinishedSlot;
  error_slot : ErrorSlot;
  (** [QThread.isRunning()] *)
  isRunning : bool
}.

(** The fields of the window the engine uses.  [workers] holds every
    worker object created, a worker being known by its position;
    [current_worker] refers to one of them. *)
Record State : Type := {
  workers : list WorkerObj;
  current_worker : option nat;
  installed_packages : list string;
  all_available_package_atoms : list string;
  update_list_atoms : list string;
  update_list_display : list string;
  ui : list UiCall
}.

Inductive Exn : Type :=
| IndexError
| TypeError.

(** [str(e)]; the text of a [TypeError] depends on the operation that
    raised it and is left general. *)
Definition exn_text (e : Exn) : string :=
  match e with
  | IndexError => "list index out of range"
  | TypeError => "unsupported operand"
  end.

(** The end of a call on the window: it returns, an exception leaves it,
    or the bound on nested calls of error callbacks was reached. *)
Inductive Res : Type :=
| Ok (st : State)
| Raised (e : Exn) (st : State)
| Unfinished.

Definition M : Type := State -> Res.

Definition seq (m k : M) : M :=
  fun st => match m st with
            | Ok st' => k st'
            | r => r
            end.

Definition skip : M := Ok.

Definition raise (e : Exn) : M := Raised e.

Declare Scope gui_scope.
Delimit Scope gui_scope with gui.
Bind Scope gui_scope with M.
Notation "m ;; k" := (seq m k)
  (at level 100, k at level 200, right associativity) : gui_scope.
Local Open Scope gui_scope.

Definition call (c : UiCall) : M :=
  fun st =>
    Ok {| workers := workers st;
          current_worker := current_worker st;
          installed_packages := installed_packages st;
          all_available_package_atoms := all_available_package_atoms st;
          update_list_atoms := update_list_atoms st;
          update_list_display := update_list_display st;
          ui := c :: ui st |}.

Definition set_current_worker (w : option nat) : M :=
  fun st =>
    Ok {| workers := workers st;
          current_worker := w;
          installed_packages := installed_packages st;
          all_available_package_atoms := all_available_package_atoms st;
          update_list_atoms := update_list_atoms st;
          update_list_display := update_list_display st;
          ui := ui st |}.

Definition set_workers (ws : list WorkerObj) (st : State) : State :=
  {| workers := ws;
     current_worker := current_worker st;
     installed_packages := installed_packages st;
     all_available_package_atoms := all_available_package_atoms st;
     update_list_atoms := update_list_atoms st;
     update_list_display := update_list_display st;
     ui := ui st |}.

Definition set_installed_packages (l : list string) : M :=
  fun st =>
    Ok {| workers := workers st;
          current_worker := current_worker st;
          installed_packages := l;
          all_available_package_atoms := all_available_package_atoms st;
          update_list_atoms := update_list_atoms st;
          update_list_display := update_list_display st;
          ui := ui st |}.

Definition set_all_available_package_atoms (l : list string) : M :=
  fun st =>
    Ok {| workers := workers st;
          current_worker := current_worker st;
          installed_packages := installed_packages st;
          all_available_package_atoms := l;
          update_list_atoms := update_list_atoms st;
          update_list_display := update_list_display st;
          ui := ui st |}.

Definition set_update_lists (atoms display : list string) : M :=
  fun st =>
    Ok {| workers := workers st;
          current_worker := current_worker st;
          installed_packages := installed_packages st;
          all_available_package_atoms := all_available_package_atoms st;
          update_list_atoms := atoms;
          update_list_display := display;
          ui := ui st |}.

(** [self.current_worker and self.current_worker.isRunning()] *)
Definition busy (st : State) : bool :=
  match current_worker st with
  | Some id =>
      match workers st !! id with
      | Some w => isRunning w
      | None => false
      end
  | None => false
  end.

(** [self.current_worker = W(...)] followed by the [connect] calls and
    [self.current_worker.start()]. *)
Definition start_worker (w : WorkerObj) : M :=
  fun st =>
    set_current_worker (Some (length (workers st)))
      (set_workers (workers st ++ [w]) st).

(** The thread of worker [id] has ended. *)
Definition thread_exit (id : nat) : M :=
  fun st =>
    Ok (set_workers
          (alter (fun w => {| worker_class := worker_class w;
                              command_list := command_list w;
                              callback_arg := callback_arg w;
                              finished_slot := finished_slot w;
                              error_slot := error_slot w;
                              isRunning := false |})
                 id (workers st))
          st).

(** ['-' * n] *)
Fixpoint dashes (n : nat) : string :=
  match n with
  | O => EmptyString
  | S n' => String "-" (dashes n')
  end.

Definition nl : string := Worker.nl.

(** [str(callback_arg)] *)
Definition str_of_arg (a : CallbackArg) : string :=
  match a with
  | Some step => str_of_Z step
  | None => "None"
  end.

(** [show_error] *)
Definition show_error (message : string) : M := call (CriticalBox message).

(** [update_tab_text]; [setTabText] does not raise, so the [except] branch
    is left out. *)
Definition update_tab_text (tab_index : Z) (base_text_key : string)
    (count : option nat) : M :=
  let base_text := default "Tab" (tab_base_texts !! base_text_key) in
  let display_text :=
    match count with
    | None => base_text +:+ " (?)"
    | Some n => base_text +:+ " (" +:+ str_of_nat n +:+ ")"
    end in
  call (SetTabText tab_index display_text).

(** [filter_browse_packages] and [filter_installed_packages] refill a list
    widget from the stored packages and the text of its search box. *)
Definition filter_browse_packages : M := call (Refilter browse_package_list).
Definition filter_installed_packages : M :=
  call (Refilter installed_package_list).

(** The phrases of [on_updates_error]. *)
Definition no_updates_phrases : list string :=
  ["There are no packages to update";
   "Nothing to merge";
   "emerge: there are no ebuilds to satisfy";
   "Exiting."].

(** [any(phrase in error_msg for phrase in no_updates_phrases)] *)
Definition is_no_updates (error_msg : string) : bool :=
  existsb (fun phrase => contains phrase error_msg) no_updates_phrases.

(** ["Permission denied" in error_msg or "are you root?" in error_msg] *)
Definition is_permission_denied (error_msg : string) : bool :=
  contains "Permission denied" error_msg
  || contains "are you root?" error_msg.

(** The three branches of the [if]/[elif]/[else] of [on_updates_error], in
    the order they are tested. *)
Inductive Verdict : Type :=
| NoUpdates
| PermissionError
| ActualError.

Definition classify (error_msg : string) : Verdict :=
  if is_no_updates error_msg then NoUpdates
  else if is_permission_denied error_msg then PermissionError
  else ActualError.

(** The functions of the window.  [run_generic_task] calls the error
    callback it is given, and every error callback reaches
    [run_generic_task] again through [_generic_error]; the call of the
    callback is the parameter of this section and the cycle is closed
    below it. *)
Module Handlers.
Section Handlers.

Variable call_error_callback : ErrorSlot -> string -> CallbackArg -> M.

Definition run_generic_task (command_list : list string)
    (parser_func : Parser) (on_result : ResultSlot)
    (on_finished_callback : FinishedSlot) (on_error_callback : ErrorSlot)
    (status_message : string) (callback_arg : CallbackArg) : M :=
  fun st =>
    if busy st then
      (call (Print ("Warning: Tried to start task '"
                    +:+ join " " command_list
                    +:+ "' while another was running."));;
       call_error_callback on_error_callback
         "Internal Error: Task conflict during sequential load."
         callback_arg) st
    else
      (call (ShowMessage status_message 0);;
       call (ProgressSetRange 0 0);;
       call (ProgressSetVisible true);;
       call (CancelSetEnabled true);;
       start_worker
         {| worker_class := GenericWorker parser_func on_result;
            command_list := command_list;
            callback_arg := callback_arg;
            finished_slot := on_finished_callback;
            error_slot := on_error_callback;
            isRunning := true |}) st.

Definition load_all_available_packages (callback_arg : CallbackArg) : M :=
  update_tab_text browse_tab_index "browse" None;;
  call (ListClear browse_package_list);;
  call (ListAddItem browse_package_list
          "Loading available packages (using eix)...");;
  run_generic_task ["eix"; "-c"; "--only-names"; "*/*"]
    parser_eix_output slot_on_load_available_result
    slot_generic_finished slot_on_load_available_error
    "Loading available packages (eix)..." callback_arg.

Definition refresh_installed_packages (callback_arg : CallbackArg) : M :=
  update_tab_text installed_tab_index "installed" None;;
  call (ListClear installed_package_list);;
  call (ListAddItem installed_package_list
          "Loading installed packages...");;
  run_generic_task ["equery"; "list"; "--installed"; "*/*"]
    parser_equery_installed slot_on_installed_result
    slot_generic_finished slot_on_installed_error
    "Loading installed packages..." callback_arg.

Definition refresh_updates (callback_arg : CallbackArg) : M :=
  update_tab_text update_tab_index "updates" None;;
  call (ListClear update_package_list);;
  call (ListAddItem update_package_list
          "Checking for updates (emerge pretend)...");;
  run_generic_task ["emerge"; "-upvND"; "@world"]
    parser_updates slot_on_updates_result
    slot_generic_finished slot_on_updates_error
    "Checking for updates (emerge -upvND @world)..." callback_arg.

Definition _start_next_load_step (step : CallbackArg) : M :=
  match step with
  | Some s =>
      if s =? LOAD_STEP_INSTALLED then
        refresh_installed_packages (Some LOAD_STEP_AVAILABLE)
      else if s =? LOAD_STEP_AVAILABLE then
        load_all_available_packages (Some LOAD_STEP_UPDATES)
      else if s =? LOAD_STEP_UPDATES then
        refresh_updates (Some LOAD_STEP_COMPLETE)
      else if s =? LOAD_STEP_COMPLETE then
        call (ShowMessage "Initial loading complete." 5000);;
        call (ProgressSetVisible false);;
        call (CancelSetEnabled false);;
        set_current_worker None
      else skip
  | None => skip
  end.

Definition _generic_finished (callback_arg : CallbackArg) : M :=
  call (Print ("Generic task finished, proceeding to step: "
               +:+ str_of_arg callback_arg));;
  set_current_worker None;;
  _start_next_load_step callback_arg.

Definition _generic_error (error_msg : string)
    (callback_arg : CallbackArg) : M :=
  call (Print ("Generic task error: " +:+ error_msg
               +:+ ", proceeding to step: " +:+ str_of_arg callback_arg));;
  if contains "Operation Cancelled" error_msg then
    call (ShowMessage "Load operation Cancelled." 5000);;
    call (ConsoleAppend (nl +:+ dashes 20 +:+ nl
                         +:+ "Load Operation Cancelled by User."));;
    call ConsoleEnsureCursorVisible;;
    call (ProgressSetVisible false);;
    call (CancelSetEnabled false);;
    set_current_worker None
  else
    call (ConsoleAppend (nl +:+ dashes 20 +:+ nl
                         +:+ "ERROR during data load:" +:+ nl
                         +:+ error_msg));;
    call ConsoleEnsureCursorVisible;;
    match first_line error_msg with
    | None => raise IndexError
    | Some line =>
        call (ShowMessage ("Load failed: " +:+ line +:+ "...") 6000);;
        if contains "Command not found" error_msg then
          show_error ("Data Loading Failed:" +:+ nl +:+ error_msg
                      +:+ nl +:+ nl
                      +:+ "Please ensure the necessary tools (like eix, equery) are installed and in your PATH.");;
          call (ProgressSetVisible false);;
          call (CancelSetEnabled false);;
          set_current_worker None
        else
          set_current_worker None;;
          _start_next_load_step callback_arg
    end.

Definition on_load_available_result (packages : list string) : M :=
  set_all_available_package_atoms packages;;
  call (ListClear browse_package_list);;
  (let count := length packages in
   (if bool_decide (0 < count)%nat then
      call (ListAddItems browse_package_list packages);;
      call (ShowMessage ("Loaded " +:+ str_of_nat count
                         +:+ " available packages.") 3000)
    else
      call (ListAddItem browse_package_list
              "No available packages found (check eix?).");;
      call (ShowMessage "No available packages found." 3000));;
   update_tab_text browse_tab_index "browse" (Some count);;
   filter_browse_packages).

Definition on_load_available_error (error_msg : string)
    (cb_arg : CallbackArg) : M :=
  call (ListClear browse_package_list);;
  call (ListAddItem browse_package_list
          "Error loading available packages.");;
  _generic_error error_msg cb_arg.

Definition on_installed_result (packages : list string) : M :=
  set_installed_packages packages;;
  call (ListClear installed_package_list);;
  (let count := length packages in
   (if bool_decide (0 < count)%nat then
      call (ListAddItems installed_package_list packages);;
      call (ShowMessage (str_of_nat count
                         +:+ " installed packages loaded.") 3000)
    else
      call (ListAddItem installed_package_list
              "No installed packages found (check equery?).");;
      call (ShowMessage "No installed packages found." 3000));;
   update_tab_text installed_tab_index "installed" (Some count);;
   filter_installed_packages).

Definition on_installed_error (error_msg : string)
    (cb_arg : CallbackArg) : M :=
  call (ListClear installed_package_list);;
  call (ListAddItem installed_package_list
          "Error loading installed packages.");;
  _generic_error error_msg cb_arg.

(** [on_updates_result(update_data)] with [update_data["atoms"]] and
    [update_data["display"]]. *)
Definition on_updates_result (atoms display : list string) : M :=
  set_update_lists atoms display;;
  call (ListClear update_package_list);;
  (let count := length atoms in
   (if bool_decide (count = 0)%nat then
      call (ListAddItem update_package_list "No updates available.");;
      call (ShowMessage "System is up to date." 3000)
    else
      call (ListAddItems update_package_list display);;
      call (ShowMessage (str_of_nat count
                         +:+ " updates available.") 3000));;
   update_tab_text update_tab_index "updates" (Some count)).

Definition on_updates_error (error_msg : string)
    (cb_arg : CallbackArg) : M :=
  match classify error_msg with
  | NoUpdates =>
      call (Print "Detected 'no updates' condition from emerge output.");;
      on_updates_result [] [];;
      _generic_finished cb_arg
  | PermissionError =>
      call (ListClear update_package_list);;
      call (ListAddItem update_package_list
              "Permission error checking updates.");;
      update_tab_text update_tab_index "updates" (Some 0%nat);;
      _generic_error error_msg cb_arg
  | ActualError =>
      call (ListClear update_package_list);;
      call (ListAddItem update_package_list
              "Error checking for updates.");;
      update_tab_text update_tab_index "updates" (Some 0%nat);;
      _generic_error error_msg cb_arg
  end.

Definition refresh_all : M :=
  fun st =>
    if busy st then
      show_error ("Cannot refresh: An operation is already in progress."
                  +:+ nl
                  +:+ "Please wait or cancel the current operation.") st
    else
      (call (ShowMessage "Starting full refresh sequence..." 0);;
       call (ListClear installed_package_list);;
       call (ListAddItem installed_package_list "Loading...");;
       call (ListClear browse_package_list);;
       call (ListAddItem browse_package_list "Loading...");;
       call (ListClear update_package_list);;
       call (ListAddItem update_package_list "Loading...");;
       update_tab_text installed_tab_index "installed" None;;
       update_tab_text browse_tab_index "browse" None;;
       update_tab_text update_tab_index "updates" None;;
       _start_next_load_step (Some LOAD_STEP_INSTALLED)) st.

Definition _sync_finished : M :=
  call (ShowMessage "Sync finished. Refreshing updates list..." 3000);;
  refresh_updates (Some LOAD_STEP_COMPLETE).

Definition _action_requires_refresh : M :=
  call (ShowMessage "Operation finished. Refreshing all lists..." 3000);;
  refresh_all.

Definition run_emerge_command (command_list : list string)
    (on_finished_callback : option FinishedCallback)
    (on_error_callback : option ErrorCallback)
    (status_message : string) (use_pkexec : bool) : M :=
  fun st =>
    if busy st then
      show_error
        "Another operation is already in progress. Please wait or cancel."
        st
    else
      (call (ShowMessage status_message 0);;
       call (ProgressSetRange 0 0);;
       call (ProgressSetVisible true);;
       call (CancelSetEnabled true);;
       call ShowOutputTab;;
       call (ConsoleAppend
               (nl +:+ dashes 30 +:+ nl +:+ "Executing: "
                +:+ (if use_pkexec then "pkexec " else "")
                +:+ join " " command_list +:+ nl
                +:+ dashes 30 +:+ nl));;
       call ConsoleEnsureCursorVisible;;
       start_worker
         {| worker_class := CommandWorker use_pkexec;
            command_list := command_list;
            callback_arg := None;
            finished_slot :=
              slot_command_action_finished on_finished_callback;
            error_slot := slot_command_action_error on_error_callback;
            isRunning := true |}) st.

Definition call_finished_callback (callback : FinishedCallback) : M :=
  match callback with
  | cb_sync_finished => _sync_finished
  | cb_action_requires_refresh => _action_requires_refresh
  end.

Definition _command_action_finished
    (callback : option FinishedCallback) : M :=
  call (ShowMessage "Operation completed successfully." 5000);;
  call (ProgressSetVisible false);;
  call (CancelSetEnabled false);;
  call (ConsoleAppend (nl +:+ dashes 20 +:+ nl
                       +:+ "Operation finished successfully."));;
  call ConsoleEnsureCursorVisible;;
  set_current_worker None;;
  match callback with
  | None => skip
  | Some cb =>
      fun st =>
        match call_finished_callback cb st with
        | Raised e st' =>
            (call (Print ("Error during post-action callback: "
                          +:+ exn_text e));;
             show_error ("Operation succeeded, but an error occurred during the post-action callback:"
                         +:+ nl +:+ exn_text e)) st'
        | r => r
        end
  end.

Definition _command_action_error (error_msg : string)
    (callback : option ErrorCallback) : M :=
  call (ProgressSetVisible false);;
  call (CancelSetEnabled false);;
  (if contains "Operation Cancelled" error_msg then
     call (ShowMessage "Operation Cancelled." 5000);;
     call (ConsoleAppend (nl +:+ dashes 20 +:+ nl
                          +:+ "Operation Cancelled by User."))
   else
     call (ConsoleAppend (nl +:+ dashes 20 +:+ nl +:+ "ERROR:" +:+ nl
                          +:+ error_msg));;
     match first_line error_msg with
     | None => raise IndexError
     | Some line =>
         show_error ("Operation Failed:" +:+ nl +:+ line +:+ "..."
                     +:+ nl +:+ nl +:+ "See Output Console for details.");;
         call (ShowMessage ("Operation failed: " +:+ line) 6000)
     end);;
  call ConsoleEnsureCursorVisible;;
  set_current_worker None;;
  match callback with
  | Some cb =>
      if negb (contains "Operation Cancelled" error_msg)
      then match cb with end
      else skip
  | None => skip
  end.

(** [_command_progress]: the line goes to the output console. *)
Definition _command_progress (progress_text : string) : M :=
  call (ConsoleProgress progress_text);;
  call ConsoleEnsureCursorVisible.

(** The slot connected to [signals.result].  Each result handler is
    connected to the worker of its own parser; a payload of another
    shape makes the handler raise. *)
Definition call_result_slot (slot : ResultSlot) (data : Payload) : M :=
  match slot, data with
  | slot_on_installed_result, PLines packages =>
      on_installed_result packages
  | slot_on_load_available_result, PLines packages =>
      on_load_available_result packages
  | slot_on_updates_result, PUpdates atoms display =>
      on_updates_result atoms display
  | _, _ => raise TypeError
  end.

(** The slot connected to [signals.finished]. *)
Definition call_finished_slot (slot : FinishedSlot)
    (cb_arg : CallbackArg) : M :=
  match slot with
  | slot_generic_finished => _generic_finished cb_arg
  | slot_command_action_finished callback =>
      _command_action_finished callback
  end.

(** The slot connected to [signals.error]. *)
Definition call_error_slot (slot : ErrorSlot) (error_msg : string)
    (cb_arg : CallbackArg) : M :=
  match slot with
  | slot_on_installed_error => on_installed_error error_msg cb_arg
  | slot_on_load_available_error =>
      on_load_available_error error_msg cb_arg
  | slot_on_updates_error => on_updates_error error_msg cb_arg
  | slot_command_action_error callback =>
      _command_action_error error_msg callback
  end.

End Handlers.
End Handlers.

(** Closing the cycle: an error callback called at nesting depth [depth].
    [error_callback_total] below shows that depth 1 is never exceeded. *)
Fixpoint error_callback_at (depth : nat) (slot : ErrorSlot)
    (error_msg : string) (cb_arg : CallbackArg) : M :=
  match depth with
  | O => fun _ => Unfinished
  | S d => Handlers.call_error_slot (error_callback_at d) slot error_msg cb_arg
  end.

Definition error_callback : ErrorSlot -> string -> CallbackArg -> M :=
  error_callback_at 1.

Definition run_generic_task := Handlers.run_generic_task error_callback.
Definition load_all_available_packages :=
  Handlers.load_all_available_packages error_callback.
Definition refresh_installed_packages :=
  Handlers.refresh_installed_packages error_callback.
Definition refresh_updates := Handlers.refresh_updates error_callback.
Definition _start_next_load_step :=
  Handlers._start_next_load_step error_callback.
Definition _generic_finished := Handlers._generic_finished error_callback.
Definition _generic_error := Handlers._generic_error error_callback.
Definition on_load_available_error :=
  Handlers.on_load_available_error error_callback.
Definition on_installed_error := Handlers.on_installed_error error_callback.
Definition on_updates_result := Handlers.on_updates_result.
Definition on_updates_error := Handlers.on_updates_error error_callback.
Definition refresh_all := Handlers.refresh_all error_callback.
Definition run_emerge_command := Handlers.run_emerge_command.
Definition _command_action_finished :=
  Handlers._command_action_finished error_callback.
Definition _command_action_error := Handlers._command_action_error.
Definition call_result_slot := Handlers.call_result_slot.
Definition call_finished_slot := Handlers.call_finished_slot error_callback.
Definition call_error_slot := Handlers.call_error_slot error_callback.

(** A signal emitted by worker [id] reaches the slots connected to it in
    [run_generic_task] or [run_emerge_command]. *)
Definition deliver (id : nat) (s : Signal) : M :=
  fun st =>
    match workers st !! id with
    | None => Ok st
    | Some w =>
        match s with
        | sig_finished cb_arg => call_finished_slot (finished_slot w) cb_arg st
        | sig_error error_msg cb_arg =>
            call_error_slot (error_slot w) error_msg cb_arg st
        | sig_result data =>
            match worker_class w with
            | GenericWorker _ on_result => call_result_slot on_result data st
            | CommandWorker _ => Ok st
            end
        | sig_progress text =>
            match worker_class w with
            | CommandWorker _ => Handlers._command_progress text st
            | GenericWorker _ _ => Ok st
            end
        end
    end.

Fixpoint deliver_all (id : nat) (sigs : list Signal) : M :=
  match sigs with
  | [] => skip
  | s :: rest => deliver id s;; deliver_all id rest
  end.

(** How a task ends for the window: [result] then [finished], or [error]. *)
Inductive Outcome : Type :=
| Succeeds (data : Payload)
| Fails (error_msg : string).

Definition signals_of (cb_arg : CallbackArg) (o : Outcome) : list Signal :=
  match o with
  | Succeeds data => [sig_result data; sig_finished cb_arg]
  | Fails error_msg => [sig_error error_msg cb_arg]
  end.

(** The worker in flight ends with [o]: its signals are delivered, then its
    thread ends.  Nothing happens when no worker is in flight. *)
Definition complete_worker (o : Outcome) : M :=
  fun st =>
    match current_worker st with
    | None => Ok st
    | Some id =>
        match workers st !! id with
        | None => Ok st
        | Some w =>
            (deliver_all id (signals_of (callback_arg w) o);;
             thread_exit id) st
        end
    end.

(** The workers started one after the other end with [outcomes]. *)
Fixpoint run_sequence (outcomes : list Outcome) : M :=
  match outcomes with
  | [] => skip
  | o :: rest => complete_worker o;; run_sequence rest
  end.

(** *** What the user sees *)

(** The error dialogs shown so far, newest first. *)
Definition dialogs (st : State) : list string :=
  omap (fun c => match c with CriticalBox m => Some m | _ => None end) (ui st).

(** The blocks appended to the output console, newest first. *)
Definition console (st : State) : list string :=
  omap (fun c => match c with ConsoleAppend t => Some t | _ => None end)
       (ui st).

(** The message in the status bar. *)
Definition status_message (st : State) : option string :=
  head (omap (fun c => match c with ShowMessage t _ => Some t | _ => None end)
             (ui st)).

Definition progress_bar_visible (st : State) : option bool :=
  head (omap (fun c => match c with
                       | ProgressSetVisible b => Some b
                       | _ => None
                       end) (ui st)).

Definition cancel_button_enabled (st : State) : option bool :=
  head (omap (fun c => match c with
                       | CancelSetEnabled b => Some b
                       | _ => None
                       end) (ui st)).

(** The workers whose thread is running. *)
Definition running_workers (st : State) : list WorkerObj :=
  filter (fun w => Is_true (isRunning w)) (workers st).

(** The state [LOAD_STEP_COMPLETE] leaves: the sequence is over and the
    busy indicators are down. *)
Definition complete (st : State) : Prop :=
  current_worker st = None
  /\ status_message st = Some "Initial loading complete."
  /\ progress_bar_visible st = Some false
  /\ cancel_button_enabled st = Some false.

(** The state a cancelled or aborted sequence leaves: no worker in flight
    and the busy indicators down. *)
Definition stopped (st : State) : Prop :=
  current_worker st = None
  /\ progress_bar_visible st = Some false
  /\ cancel_button_enabled st = Some false.

(** The window after [setup_ui], before the first load step. *)
Definition created : State :=
  {| workers := [];
     current_worker := None;
     installed_packages := [];
     all_available_package_atoms := [];
     update_list_atoms := [];
     update_list_display := [];
     ui := [ProgressSetVisible false;
            ProgressSetRange 0 0;
            CancelSetEnabled false;
            SetTabText update_tab_index "Updates (?)";
            ListAddItem update_package_list "Loading...";
            SetTabText installed_tab_index "Installed Packages (?)";
            ListAddItem installed_package_list "Loading...";
            SetTabText browse_tab_index "Browse Packages (?)";
            ListAddItem browse_package_list "Loading..."] |}.

(** The window while the first load step runs: [__init__] has called
    [_start_next_load_step(self.LOAD_STEP_INSTALLED)]. *)
Definition loading_installed : State :=
  {| workers :=
       [{| worker_class :=
             GenericWorker parser_equery_installed slot_on_installed_result;
           command_list := ["equery"; "list"; "--installed"; "*/*"];
           callback_arg := Some LOAD_STEP_AVAILABLE;
           finished_slot := slot_generic_finished;
           error_slot := slot_on_installed_error;
           isRunning := true |}];
     current_worker := Some 0%nat;
     installed_packages := [];
     all_available_package_atoms := [];
     update_list_atoms := [];
     update_list_display := [];
     ui := [CancelSetEnabled true; ProgressSetVisible true;
            ProgressSetRange 0 0;
            ShowMessage "Loading installed packages..." 0;
            ListAddItem installed_package_list
              "Loading installed packages...";
            ListClear installed_package_list;
            SetTabText installed_tab_index "Installed Packages (?)"]
           ++ ui created |}.

(** [st'] holds the package data of [st], and no dialog was shown nor
    anything appended to the console on the way from [st] to [st']. *)
Definition quiet (st st' : State) : Prop :=
  installed_packages st' = installed_packages st
  /\ all_available_package_atoms st' = all_available_package_atoms st
  /\ update_list_atoms st' = update_list_atoms st
  /\ update_list_display st' = update_list_display st
  /\ dialogs st' = dialogs st
  /\ console st' = console st.

(** The entry [_generic_error] appends to the console for a failure. *)
Definition failure_log (error_msg : string) : string :=
  nl +:+ dashes 20 +:+ nl +:+ "ERROR during data load:" +:+ nl +:+ error_msg.

(** A failure diagnostic that [_generic_error] takes neither for a
    cancellation nor for a missing command.  Every diagnostic a worker
    emits is non-empty. *)
Definition ordinary (error_msg : string) : Prop :=
  error_msg <> EmptyString
  /\ contains "Operation Cancelled" error_msg = false
  /\ contains "Command not found" error_msg = false.


(** The commands of the workers created so far, oldest first. *)
Definition commands (st : State) : list (list string) :=
  command_list <$> workers st.

(** The sequence waits for the worker of [command], the last one created,
    which reports to [on_error] and hands on [next]. *)
Definition awaiting (command : list string) (on_result : ResultSlot)
    (on_error : ErrorSlot) (next : Z) (st : State) : Prop :=
  exists parser_func running earlier,
    workers st
    = earlier ++ [{| worker_class := GenericWorker parser_func on_result;
                     command_list := command;
                     callback_arg := Some next;
                     finished_slot := slot_generic_finished;
                     error_slot := on_error;
                     isRunning := running |}]
    /\ current_worker st = Some (length earlier).

End Gui.


(** ** Further definitions, for the properties of the parsers, the workers
    and the window *)

(** A whitespace character stands at the head of [s] (with its bytes in
    reverse order when [mirrored]). *)
Definition head_space (mirrored : bool) (s : string) : bool :=
  match s with
  | EmptyString => false
  | String a r =>
      space1 a
      || match r with
         | EmptyString => false
         | String b r' =>
             (if mirrored then space2 b a else space2 a b)
             || match r' with
                | EmptyString => false
                | String c _ =>
                    if mirrored then space3 c b a else space3 a b c
                end
         end
  end.

(** The test of the list comprehension of [parse_equery_installed]. *)
Definition installed_line (line : string) : Prop :=
  Is_true (negb (String.eqb line "")
           && negb (startswith "[" line)
           && contains "/" line).

Definition is_progress (s : Signal) : bool :=
  match s with
  | sig_progress _ => true
  | _ => false
  end.

(** [s] is the signal that ends a task of a worker created with
    [callback_arg]: [finished], or [error] with a diagnostic. *)
Definition ends_task (callback_arg : CallbackArg) (s : Signal) : Prop :=
  s = sig_finished callback_arg
  \/ exists error_msg, s = sig_error error_msg callback_arg
                       /\ error_msg <> EmptyString.

(** A process that fails with a message on its standard error. *)
Definition failing_process : Worker.Process :=
  {| Worker.pkexec_found := true;
     Worker.launch := Worker.Spawned;
     Worker.stdout := [];
     Worker.stdout_eof := true;
     Worker.stop_after := None;
     Worker.stderr := Some "emerge: superuser access is required.";
     Worker.wait := Worker.Exited 1 |}.





(** The process was launched, ran to the end of its output without being
    stopped, and exited with code 0 within the timeout. *)
Definition clean_exit (p : Worker.Process) : Prop :=
  Worker.launch p = Worker.Spawned
  /\ Worker.stdout_eof p = true
  /\ Worker.running p (length (Worker.stdout p)) = true
  /\ is_Some (Worker.stderr p)
  /\ Worker.wait p = Worker.Exited 0.

(** A process that prints two lines and exits with code 0. *)
Definition successful_process : Worker.Process :=
  {| Worker.pkexec_found := true;
     Worker.launch := Worker.Spawned;
     Worker.stdout := ["  app-misc/foo-1.0 "; "[I] sys-apps/bar-2.1"];
     Worker.stdout_eof := true;
     Worker.stop_after := None;
     Worker.stderr := Some EmptyString;
     Worker.wait := Worker.Exited 0 |}.

(** The process was launched and ran to the end of its output without being
    stopped, but had not exited when the timeout of [wait] expired. *)
Definition timed_out (p : Worker.Process) : Prop :=
  Worker.launch p = Worker.Spawned
  /\ Worker.stdout_eof p = true
  /\ Worker.running p (length (Worker.stdout p)) = true
  /\ is_Some (Worker.stderr p)
  /\ Worker.wait p = Worker.Expired.

(** The process was launched and leaves [run] waiting for ever: its
    standard output stays open after the last line and no stop is seen
    before that, or its standard error stays open. *)
Definition never_closes (p : Worker.Process) : Prop :=
  Worker.launch p = Worker.Spawned
  /\ ((Worker.stdout_eof p = false
       /\ forall n, Worker.stop_after p = Some n ->
                    (length (Worker.stdout p) <= n)%nat)
      \/ (Worker.stdout_eof p = true
          /\ Worker.running p (length (Worker.stdout p)) = true
          /\ Worker.stderr p = None)).

(** No byte of [s] belongs to a line boundary of [str.splitlines]: the
    bytes are ASCII and none is a control character that ends a line. *)
Fixpoint one_line (s : string) : bool :=
  match s with
  | EmptyString => true
  | String a r =>
      (code a <? 128)%N && negb (between 10 13 a || between 28 30 a)
      && one_line r
  end.

(** The process was launched and ran to the end of its output without being
    stopped, then exited with [returncode], not 0, having written
    [stderr_output] on its standard error. *)
Definition failed_exit (p : Worker.Process) (returncode : Z)
    (stderr_output : string) : Prop :=
  Worker.launch p = Worker.Spawned
  /\ Worker.stdout_eof p = true
  /\ Worker.running p (length (Worker.stdout p)) = true
  /\ Worker.stderr p = Some stderr_output
  /\ Worker.wait p = Worker.Exited returncode
  /\ returncode <> 0.

(** ** The actions of the user *)

Module Actions.

Import Gui.
Local Open Scope gui_scope.

(** The items of the update list after the calls [trace], newest first:
    the list is changed by [clear], [addItem] and [addItems] only. *)
Fixpoint update_list_items (trace : list UiCall) : list string :=
  match trace with
  | [] => []
  | c :: older =>
      match c with
      | ListClear update_package_list => []
      | ListAddItem update_package_list text =>
          update_list_items older ++ [text]
      | ListAddItems update_package_list items =>
          update_list_items older ++ items
      | _ => update_list_items older
      end
  end.

Section Actions.

(** [atom_pattern.match(text)] with [match.group(1)] for a match; the
    regular expression is left general. *)
Variable atom_pattern : string -> option string.

(** [get_selected_package_atoms] on the texts of the selected items: the
    value it returns, [results] being a Python [set] as in
    [parse_eix_output]. *)
Definition get_selected_package_atoms (items : list string) : list string :=
  let results : gset string :=
    foldl (fun (results : gset string) (text : string) =>
             match atom_pattern text with
             | Some atom => results ∪ {[ atom ]}
             | None =>
                 if contains "/" text && negb (contains " " text)
                 then results ∪ {[ text ]}
                 else results
             end)
          ∅ items in
  sorted (elements results).

(** The warnings [get_selected_package_atoms] prints on the way. *)
Fixpoint get_selected_package_atoms_prints (items : list string) : M :=
  match items with
  | [] => skip
  | text :: rest =>
      match atom_pattern text with
      | Some _ => skip
      | None =>
          if contains "/" text && negb (contains " " text) then skip
          else call (Print ("Warning: Could not parse package atom from selected item: "
                            +:+ text))
      end;;
      get_selected_package_atoms_prints rest
  end.

(** [cancel_operation]; [env] is the process as [stop] finds it.  [stop]
    emits its progress signals from the thread of the window, whose slots
    run before [emit] returns. *)
Definition cancel_operation (env : Worker.StopEnv) : M :=
  fun st =>
    if busy st then
      (call (ShowMessage "Attempting to cancel operation..." 0);;
       match current_worker st with
       | Some id => deliver_all id (Worker.stop_emitted (Worker.stop env))
       | None => skip
       end;;
       call (CancelSetEnabled false)) st
    else
      call (ShowMessage "No operation running to cancel." 3000) st.

(** [run_sync]; [answer] tells whether the question box returned [Yes], here
    and below. *)
Definition run_sync (answer : bool) : M :=
  if answer then
    run_emerge_command ["emerge"; "--sync"] (Some cb_sync_finished) None
      "Running emerge --sync..." true
  else skip.

Definition _install_packages (package_atoms_to_install : list string)
    (answer : bool) : M :=
  match package_atoms_to_install with
  | [] => show_error "No valid package atoms selected or parsed to install."
  | _ =>
      if answer then
        run_emerge_command
          (["emerge"; "--ask=n"; "--verbose"] ++ package_atoms_to_install)
          (Some cb_action_requires_refresh) None
          ("Installing " +:+ str_of_nat (length package_atoms_to_install)
           +:+ " package(s)...")
          true
      else skip
  end.

Definition install_selected_browse (items : list string) (answer : bool)
  : M :=
  get_selected_package_atoms_prints items;;
  match get_selected_package_atoms items with
  | [] => show_error "No packages selected in the Browse tab."
  | selected_atoms => _install_packages selected_atoms answer
  end.

Definition uninstall_selected (items : list string) (answer : bool) : M :=
  get_selected_package_atoms_prints items;;
  match get_selected_package_atoms items with
  | [] => show_error "No packages selected in the Installed tab."
  | selected_atoms =>
      if answer then
        run_emerge_command
          (["emerge"; "--ask=n"; "--verbose"; "--unmerge"] ++ selected_atoms)
          (Some cb_action_requires_refresh) None
          ("Unmerging " +:+ str_of_nat (length selected_atoms)
           +:+ " package(s)...")
          true
      else skip
  end.

Definition _perform_update (packages_or_world : list string)
    (answer : bool) : M :=
  if answer then
    run_emerge_command
      (["emerge"; "--ask=n"; "--verbose"; "-uND"] ++ packages_or_world)
      (Some cb_action_requires_refresh) None
      ("Updating " +:+ join " " packages_or_world +:+ "...")
      true
  else skip.

Definition update_selected (items : list string) (answer : bool) : M :=
  get_selected_package_atoms_prints items;;
  match get_selected_package_atoms items with
  | [] => show_error "No updates selected."
  | selected_atoms => _perform_update selected_atoms answer
  end.

Definition update_all (answer : bool) : M :=
  fun st =>
    match update_list_atoms st with
    | [] =>
        match update_list_items (ui st) with
        | first :: _ =>
            if negb (contains "Loading" first)
            then show_error "No updates available to perform." st
            else show_error
                   "Updates list is not populated. Please refresh first." st
        | [] =>
            show_error
              "Updates list is not populated. Please refresh first." st
        end
    | _ => _perform_update ["@world"] answer st
    end.

(** What reaches the window: the clicks on its buttons, with the selected
    items and the answer to the question box where there is one, the edits
    of the search boxes, and the end of the worker in flight, whose signals
    are delivered before its thread ends, as in [complete_worker]. *)
Inductive Event : Type :=
| click_refresh
| click_sync (answer : bool)
| click_cancel (env : Worker.StopEnv)
| click_install (items : list string) (answer : bool)
| click_uninstall (items : list string) (answer : bool)
| click_update_selected (items : list string) (answer : bool)
| click_update_all (answer : bool)
| edit_browse_search
| edit_installed_search
| worker_ends (o : Outcome).

Definition handle (e : Event) : M :=
  match e with
  | click_refresh => refresh_all
  | click_sync answer => run_sync answer
  | click_cancel env => cancel_operation env
  | click_install items answer => install_selected_browse items answer
  | click_uninstall items answer => uninstall_selected items answer
  | click_update_selected items answer => update_selected items answer
  | click_update_all answer => update_all answer
  | edit_browse_search => filter_browse_packages
  | edit_installed_search => filter_installed_packages
  | worker_ends o => complete_worker o
  end.

Fixpoint run_events (events : list Event) : M :=
  match events with
  | [] => skip
  | e :: rest => handle e;; run_events rest
  end.

Definition user_action (e : Event) : bool :=
  match e with
  | worker_ends _ => false
  | _ => true
  end.

End Actions.

(** The warning [run_generic_task] prints when it is called while a worker
    is running. *)
Definition conflict_warning (c : UiCall) : bool :=
  match c with
  | Print text => startswith "Warning: Tried to start task" text
  | _ => false
  end.

(** The commands the window runs: the three queries of the loading chain,
    as generic workers, and [emerge] with the flags of an action, as a
    command worker under pkexec. *)
Definition query (w : WorkerObj) : Prop :=
  exists parser_func on_result,
    worker_class w = GenericWorker parser_func on_result
    /\ finished_slot w = slot_generic_finished
    /\ ((command_list w = ["equery"; "list"; "--installed"; "*/*"]
         /\ parser_func = parser_equery_installed
         /\ on_result = slot_on_installed_result
         /\ error_slot w = slot_on_installed_error
         /\ callback_arg w = Some LOAD_STEP_AVAILABLE)
        \/ (command_list w = ["eix"; "-c"; "--only-names"; "*/*"]
            /\ parser_func = parser_eix_output
            /\ on_result = slot_on_load_available_result
            /\ error_slot w = slot_on_load_available_error
            /\ callback_arg w = Some LOAD_STEP_UPDATES)
        \/ (command_list w = ["emerge"; "-upvND"; "@world"]
            /\ parser_func = parser_updates
            /\ on_result = slot_on_updates_result
            /\ error_slot w = slot_on_updates_error
            /\ callback_arg w = Some LOAD_STEP_COMPLETE)).

Definition action (w : WorkerObj) : Prop :=
  worker_class w = CommandWorker true
  /\ callback_arg w = None
  /\ error_slot w = slot_command_action_error None
  /\ ((command_list w = ["emerge"; "--sync"]
       /\ finished_slot w
          = slot_command_action_finished (Some cb_sync_finished))
      \/ (exists flags targets,
            command_list w = ["emerge"; "--ask=n"; "--verbose"] ++ flags
                             ++ targets
            /\ (flags = [] \/ flags = ["--unmerge"] \/ flags = ["-uND"])
            /\ targets <> []
            /\ finished_slot w
               = slot_command_action_finished
                   (Some cb_action_requires_refresh))).

(** At most one worker runs, and it is the one [current_worker] refers
    to. *)
Definition one_at_a_time (st : State) : Prop :=
  (forall id w, workers st !! id = Some w -> isRunning w = true ->
                current_worker st = Some id)
  /\ (forall id, current_worker st = Some id ->
                 exists w, workers st !! id = Some w /\ isRunning w = true).

(** From [st] to [st'] the window has made calls on its widgets, none of
    them the conflict warning. *)
Definition grows (st st' : State) : Prop :=
  exists new, ui st' = new ++ ui st
              /\ Forall (fun c => conflict_warning c = false) new.

(** From [st] to [st'] one worker was started, for a query or an action,
    and became the current one. *)
Definition starts (st st' : State) : Prop :=
  exists w, workers st' = workers st ++ [w]
            /\ isRunning w = true
            /\ (query w \/ action w)
            /\ current_worker st' = Some (length (workers st)).

(** [st'] holds the package data of [st]. *)
Definition same_data (st st' : State) : Prop :=
  installed_packages st' = installed_packages st
  /\ all_available_package_atoms st' = all_available_package_atoms st
  /\ update_list_atoms st' = update_list_atoms st
  /\ update_list_display st' = update_list_display st.

(** What an action of the user does to the window: it leaves the workers
    alone, or starts one while none is running; the package data stay. *)
Definition keeps_or_starts (st st' : State) : Prop :=
  grows st st' /\ same_data st st'
  /\ ((workers st' = workers st /\ current_worker st' = current_worker st)
      \/ (busy st = false /\ starts st st')).

(** The busy indicators follow [current_worker]: the progress bar is
    visible while a worker is current; without one it is hidden and the
    cancel button is disabled. *)
Definition shown_busy (st : State) : Prop :=
  match current_worker st with
  | Some _ => progress_bar_visible st = Some true
  | None => progress_bar_visible st = Some false
            /\ cancel_button_enabled st = Some false
  end.

(** [w'] is the query of the load step that [step] names. *)
Definition query_of_step (step : CallbackArg) (w' : WorkerObj) : Prop :=
  query w'
  /\ ((step = Some LOAD_STEP_AVAILABLE
       /\ command_list w' = ["eix"; "-c"; "--only-names"; "*/*"])
      \/ (step = Some LOAD_STEP_UPDATES
          /\ command_list w' = ["emerge"; "-upvND"; "@world"])).

(** From [st] to [st'] the loading chain has stopped, or has gone on to
    the query of [step]. *)
Definition stops_or_goes_on (step : CallbackArg) (st st' : State) : Prop :=
  (workers st' = workers st /\ current_worker st' = None)
  \/ exists w', workers st' = workers st ++ [w']
                /\ current_worker st' = Some (length (workers st))
                /\ query_of_step step w'.

(** The state of the window is in order: one worker at a time, known
    commands only, no conflict warning printed. *)
Definition in_order (st : State) : Prop :=
  one_at_a_time st
  /\ Forall (fun w => query w \/ action w) (workers st)
  /\ Forall (fun c => conflict_warning c = false) (ui st).

Section Processes.

(** [parse_updates], the local function of [refresh_updates]: what it
    returns, or the text of the exception it raises.  Its regular
    expression is left general. *)
Variable parse_updates : list string -> string + Payload.

(** The parser a generic worker is created with. *)
Definition parser_function (parser_func : Parser)
  : list string -> string + Payload :=
  match parser_func with
  | parser_equery_installed =>
      fun lines => inr (PLines (parse_equery_installed lines))
  | parser_eix_output => fun lines => inr (PLines (parse_eix_output lines))
  | parser_updates => parse_updates
  end.

(** [run] of worker [w] on the process [p]. *)
Definition worker_run (w : WorkerObj) (p : Worker.Process) : Worker.Run :=
  match worker_class w with
  | GenericWorker parser_func _ =>
      Worker.GenericWorker_run (command_list w)
        (Some (parser_function parser_func)) (callback_arg w) p
  | CommandWorker use_pkexec =>
      Worker.CommandWorker_run (command_list w) use_pkexec (callback_arg w) p
  end.

(** The worker in flight runs on [p]: the window receives the signals of
    the run in order, and the thread ends unless [run] waits for ever. *)
Definition process_ends (p : Worker.Process) : M :=
  fun st =>
    match current_worker st with
    | None => Ok st
    | Some id =>
        match workers st !! id with
        | None => Ok st
        | Some w =>
            (deliver_all id (Worker.emitted (worker_run w p));;
             match Worker.ending (worker_run w p) with
             | Worker.Blocked => skip
             | _ => thread_exit id
             end) st
        end
    end.

End Processes.

(** The window is in order and waits for the worker of [command]. *)
Definition waits_for (command : list string) (st : State) : Prop :=
  in_order st
  /\ exists id w, current_worker st = Some id
                  /\ workers st !! id = Some w
                  /\ command_list w = command.

(** The lines in the console that come from the progress signals, newest
    first. *)
Definition console_lines (st : State) : list string :=
  omap (fun c => match c with ConsoleProgress t => Some t | _ => None end)
       (ui st).

(** The title of the tab [index]: the text of the newest [setTabText]. *)
Definition tab_text (index : Z) (st : State) : option string :=
  head (omap (fun c => match c with
                       | SetTabText i text =>
                           if i =? index then Some text else None
                       | _ => None
                       end) (ui st)).

Definition same_list (a b : ListWidget) : bool :=
  match a, b with
  | browse_package_list, browse_package_list
  | installed_package_list, installed_package_list
  | update_package_list, update_package_list => true
  | _, _ => false
  end.

(** The items of the list widget [w] after the calls [trace], newest
    first, where the calls determine them: [clear], [addItem] and
    [addItems] change the list as in [update_list_items]; a filter function
    refills the list by the text of a search box, which the trace does not
    hold, so after its call the items are not known. *)
Fixpoint list_items (w : ListWidget) (trace : list UiCall)
  : option (list string) :=
  match trace with
  | [] => Some []
  | c :: older =>
      match c with
      | ListClear w' =>
          if same_list w' w then Some [] else list_items w older
      | ListAddItem w' text =>
          if same_list w' w
          then (fun items => items ++ [text]) <$> list_items w older
          else list_items w older
      | ListAddItems w' new =>
          if same_list w' w
          then (fun items => items ++ new) <$> list_items w older
          else list_items w older
      | Refilter w' => if same_list w' w then None else list_items w older
      | _ => list_items w older
      end
  end.

End Actions.


(** * Properties *)

Import Gui.
Local Open Scope gui_scope.

(** Proof steps used more than once. *)

Ltac fields :=
  cbn [workers current_worker installed_packages
       all_available_package_atoms update_list_atoms update_list_display
       ui worker_class command_list callback_arg finished_slot error_slot
       isRunning].

(** The calls at the head of a sequence are made, one by one. *)
Ltac run_calls :=
  repeat match goal with
         | |- context [seq (call ?c) ?k ?s] =>
             change (seq (call c) k s)
               with (k {| workers := workers s;
                          current_worker := current_worker s;
                          installed_packages := installed_packages s;
                          all_available_package_atoms :=
                            all_available_package_atoms s;
                          update_list_atoms := update_list_atoms s;
                          update_list_display := update_list_display s;
                          ui := c :: ui s |});
             fields
         end.

(** No call of a list written out is the conflict warning. *)
Ltac quiet_calls :=
  repeat first [ apply Forall_nil_2
               | apply Forall_cons_2; [reflexivity|]
               | apply Forall_app_2 ].

(** The calls written out in [l] over [base]. *)
Ltac calls_over l base :=
  lazymatch l with
  | base => constr:(@nil UiCall)
  | ?c :: ?l' => let r := calls_over l' base in constr:(c :: r)
  | ?a ++ ?l' => let r := calls_over l' base in constr:(a ++ r)
  end.

(** [Actions.grows st st'] where the calls of [st'] are written out over
    those of [st]. *)
Ltac grows_calls :=
  unfold Actions.grows; fields;
  lazymatch goal with
  | |- ex (fun new => ?l = new ++ ?base /\ @?P new) =>
      let new := calls_over l base in
      exists new; split; [reflexivity | quiet_calls]
  end.

(** ** Substring tests *)

Lemma prefix_spec (p s : string) :
  String.prefix p s = true <-> exists rest, s = p +:+ rest.
Proof.
  revert s. induction p as [|a p IH]; intros s; simpl.
  - destruct s; split; eauto.
  - destruct s as [|b s]; simpl.
    + split; [discriminate | intros [rest H]; discriminate].
    + destruct (ascii_dec a b) as [->|Hne].
      * split.
        -- intros [rest H]%IH. exists rest. by rewrite H.
        -- intros [rest H]. apply IH. exists rest. by injection H.
      * split; [discriminate | intros [rest H]; injection H; congruence].
Qed.

(** [contains needle hay] holds exactly when [needle] occurs in [hay]. *)
Lemma contains_spec (needle hay : string) :
  contains needle hay = true
  <-> exists before after, hay = before +:+ needle +:+ after.
Proof.
  induction hay as [|c hay IH]; cbn [contains].
  - rewrite orb_false_r, prefix_spec. split.
    + intros [rest H]. by exists EmptyString, rest.
    + intros [[|b before] [after H]]; [by exists after | discriminate].
  - rewrite orb_true_iff, prefix_spec, IH. split.
    + intros [[rest H] | (before & after & H)].
      * by exists EmptyString, rest.
      * exists (String c before), after. simpl. by rewrite H.
    + intros [[|b before] [after H]].
      * left. by exists after.
      * right. simpl in H. injection H as -> H. by exists before, after.
Qed.

(** ** The parser of the available packages *)

(** The loop of [parse_eix_output] builds the set of the stripped lines that
    hold a slash. *)
Lemma parse_eix_output_set (lines : list string) :
  parse_eix_output lines
  = sorted (elements (list_to_set (C := gset string)
       (strip <$> filter (fun line : string =>
                            Is_true (negb (String.eqb line "")
                                     && contains "/" line)) lines))).
Proof.
  unfold parse_eix_output. do 2 f_equal.
  rewrite <- (left_id_L ∅ (∪) (list_to_set _)).
  generalize (∅ : gset string).
  induction lines as [|line lines IH]; intros acc; simpl.
  - by rewrite (right_id_L ∅ (∪)).
  - rewrite IH, filter_cons.
    destruct (negb (String.eqb line "") && contains "/" line); simpl;
      [by rewrite (assoc_L (∪)) | done].
Qed.

(** Sorting does not depend on the order in which a set is enumerated. *)
Lemma sorted_permutation (l1 l2 : list string) :
  l1 ≡ₚ l2 -> sorted l1 = sorted l2.
Proof.
  intros H. unfold sorted.
  apply (StronglySorted_unique String.le).
  - apply StronglySorted_merge_sort; apply _.
  - apply StronglySorted_merge_sort; apply _.
  - by rewrite !merge_sort_Permutation.
Qed.

Lemma slash_nonempty (line : string) :
  contains "/" line = true -> String.eqb line "" = false.
Proof. by destruct line. Qed.

(** ** The worker threads *)

Import Worker.

(** [read_loop] lets a prefix of the lines pass; it leaves by [break]
    exactly when [stop] takes effect before the lines run out. *)
Lemma read_loop_running (p : Process) (k : nat) (lines : list string) :
  (forall i, (i < length lines)%nat -> running p (k + i) = true) ->
  read_loop p k lines = (lines, false).
Proof.
  revert k. induction lines as [|line lines IH]; intros k Hrun; simpl.
  - done.
  - rewrite <- (Nat.add_0_r k) at 1. rewrite Hrun by (simpl; lia).
    rewrite IH; [done|].
    intros i Hi. replace (S k + i)%nat with (k + S i)%nat by lia.
    apply Hrun. simpl. lia.
Qed.

Lemma read_loop_stopped (p : Process) (n : nat) (lines : list string) :
  stop_after p = Some n -> (n < length lines)%nat ->
  read_loop p 0 lines = (take n lines, true).
Proof.
  intros Hstop.
  assert (Hgen : forall k rest, (k <= n)%nat -> (n - k < length rest)%nat ->
                   read_loop p k rest = (take (n - k) rest, true)).
  { intros k rest. revert k.
    induction rest as [|line rest IH]; intros k Hk Hlen; simpl in *.
    - lia.
    - unfold running. rewrite Hstop. case_bool_decide.
      + rewrite (IH (S k)) by lia.
        replace (n - k)%nat with (S (n - S k)) by lia. done.
      + replace (n - k)%nat with 0%nat by lia. done. }
  intros Hlen. rewrite (Hgen 0%nat lines) by lia. by rewrite Nat.sub_0_r.
Qed.

Lemma terminal_progress (lines : list string) :
  filter (fun s => Is_true (terminal s))
         ((fun line => sig_progress (strip line)) <$> lines) = [].
Proof.
  induction lines as [|line lines IH]; [done|].
  rewrite fmap_cons, filter_cons_False; [done | simpl; tauto].
Qed.


Example stopped_late_command_run :
  CommandWorker_run ["emerge"; "--sync"] true None stopped_late
  = returns
      [sig_error
         ("Command failed with exit code -15." +:+ nl
          +:+ "Command: pkexec --disable-internal-agent emerge --sync" +:+ nl
          +:+ "No stderr output captured.") None].
Proof. vm_compute. reflexivity. Qed.

(** Claim C8 as it is written: a [stop] during the run always ends the task
    with the cancellation.  When [stop] comes after the last look of [run]
    at [_running], the terminated process is reported as a failed
    command. *)
Lemma stop_after_last_check_is_a_failure :
  stop_after stopped_late = Some 1%nat
  /\ ending (CommandWorker_run ["emerge"; "--sync"] true None stopped_late)
     = Returned
  /\ terminal_signals
       (CommandWorker_run ["emerge"; "--sync"] true None stopped_late)
     <> [sig_error msg_cancelled None].
Proof.
  rewrite stopped_late_command_run. split; [done|]. split; [done|].
  vm_compute. discriminate.
Qed.

Lemma after_stdout_terminal (p : Process) (callback_arg : CallbackArg)
    (before : list Signal) (broke : bool) (reads : nat)
    (on_exit : Z -> string -> Run) :
  filter (fun s => Is_true (terminal s)) before = [] ->
  (forall returncode stderr_output,
     (length (terminal_signals (on_exit returncode stderr_output)) <= 1)%nat) ->
  (length (terminal_signals
             (after_stdout p callback_arg before broke reads on_exit))
   <= 1)%nat.
Proof.
  intros Hbefore Hexit. unfold after_stdout, terminal_signals.
  destruct (negb broke && negb (stdout_eof p)); simpl.
  { rewrite Hbefore. simpl. lia. }
  destruct (negb (running p reads)); simpl.
  { rewrite filter_app, Hbefore. simpl. lia. }
  destruct (stderr p) as [stderr_output|]; simpl.
  - destruct (wait p) as [returncode|]; simpl.
    + rewrite filter_app, Hbefore. apply Hexit.
    + rewrite filter_app, Hbefore. simpl. lia.
  - rewrite Hbefore. simpl. lia.
Qed.

(** A run emits at most one of [finished] and [error]. *)
Lemma command_run_one_terminal (command_list : list string)
    (use_pkexec : bool) (callback_arg : CallbackArg) (p : Process) :
  (length (terminal_signals
             (CommandWorker_run command_list use_pkexec callback_arg p))
   <= 1)%nat.
Proof.
  unfold CommandWorker_run.
  destruct (use_pkexec && negb (pkexec_found p)); [simpl; lia|].
  destruct (launch p); [| destruct command_list; simpl; lia | simpl; lia].
  destruct (read_loop p 0 (stdout p)) as [passed broke].
  apply after_stdout_terminal; [apply terminal_progress|].
  intros returncode stderr_output.
  destruct (negb (returncode =? 0)); simpl; lia.
Qed.

Lemma generic_run_one_terminal (command_list : list string)
    (parser_func : option (list string -> string + Payload))
    (callback_arg : CallbackArg) (p : Process) :
  (length (terminal_signals
             (GenericWorker_run command_list parser_func callback_arg p))
   <= 1)%nat.
Proof.
  unfold GenericWorker_run.
  destruct (launch p); [| destruct command_list; simpl; lia | simpl; lia].
  destruct (read_loop p 0 (stdout p)) as [passed broke].
  apply after_stdout_terminal; [done|].
  intros returncode stderr_output.
  destruct (negb (returncode =? 0)); [simpl; lia|].
  destruct parser_func as [parse|]; [|simpl; lia].
  destruct (parse _); simpl; lia.
Qed.

Lemma result_progress (lines : list string) :
  filter (fun s => Is_true (is_result s))
         ((fun line => sig_progress (strip line)) <$> lines) = [].
Proof.
  induction lines as [|line lines IH]; [done|].
  rewrite fmap_cons, filter_cons_False; [done | simpl; tauto].
Qed.

(** [stop] only reports its progress; it ends no task. *)
Lemma stop_emits_progress (env : StopEnv) :
  filter (fun s => Is_true (terminal s)) (stop_emitted (stop env)) = [].
Proof.
  unfold stop. destruct (process_alive env); [|done].
  by destruct (terminate env) as [[]|].
Qed.

(** Where [run] stands once it has seen [_running] cleared. *)
Lemma after_stdout_cancelled (p : Process) (callback_arg : CallbackArg)
    (before : list Signal) (broke : bool) (reads : nat)
    (on_exit : Z -> string -> Run) :
  negb broke && negb (stdout_eof p) = false ->
  running p reads = false ->
  after_stdout p callback_arg before broke reads on_exit
  = returns (before ++ [sig_error msg_cancelled callback_arg]).
Proof. intros H1 H2. unfold after_stdout. by rewrite H1, H2. Qed.

Lemma read_loop_observes_stop (p : Process) (n : nat) :
  stop_after p = Some n ->
  (n < length (stdout p))%nat
  \/ (n = length (stdout p) /\ stdout_eof p = true) ->
  exists broke,
    read_loop p 0 (stdout p) = (take n (stdout p), broke)
    /\ negb broke && negb (stdout_eof p) = false
    /\ running p (length (take n (stdout p)) + (if broke then 1 else 0))
       = false.
Proof.
  intros Hstop [Hlt | [-> Heof]].
  - exists true. rewrite (read_loop_stopped p n) by done.
    split; [done|]. split; [done|].
    unfold running. rewrite Hstop, length_take. case_bool_decide; [lia|done].
  - exists false. rewrite read_loop_running.
    + rewrite firstn_all, Heof. split; [done|]. split; [done|].
      unfold running. rewrite Hstop. case_bool_decide; [lia|done].
    + intros i Hi. unfold running. rewrite Hstop.
      case_bool_decide; [done|lia].
Qed.

(** Claim C8, amended: when [run] sees [_running] cleared at one of its
    checks (after a line of standard output, or at the check that follows
    the end of standard output), it returns with exactly one terminal
    signal, the error [Operation Cancelled], and with no result.  Whenever
    [stop] comes, a run emits at most one terminal signal, and [stop]
    itself emits none. *)
Theorem observed_stop_emits_one_cancellation
    (command_list : list string) (use_pkexec : bool)
    (parser_func : option (list string -> string + Payload))
    (callback_arg : CallbackArg) (p : Process) :
  (forall n,
     launch p = Spawned ->
     (use_pkexec = true -> pkexec_found p = true) ->
     stop_after p = Some n ->
     (n < length (stdout p))%nat
     \/ (n = length (stdout p) /\ stdout_eof p = true) ->
     let command := CommandWorker_run command_list use_pkexec callback_arg p in
     let generic := GenericWorker_run command_list parser_func callback_arg p in
     ending command = Returned
     /\ terminal_signals command = [sig_error msg_cancelled callback_arg]
     /\ result_signals command = []
     /\ emitted command
        = ((fun line => sig_progress (strip line)) <$> take n (stdout p))
          ++ [sig_error msg_cancelled callback_arg]
     /\ ending generic = Returned
     /\ emitted generic = [sig_error msg_cancelled callback_arg])
  /\ (length (terminal_signals
                (CommandWorker_run command_list use_pkexec callback_arg p))
      <= 1)%nat
  /\ (length (terminal_signals
                (GenericWorker_run command_list parser_func callback_arg p))
      <= 1)%nat
  /\ (forall env, filter (fun s => Is_true (terminal s))
                         (stop_emitted (stop env)) = []).
Proof.
  split; [| split; [apply command_run_one_terminal |
            split; [apply generic_run_one_terminal |
                    apply stop_emits_progress]]].
  intros n Hlaunch Hpkexec Hstop Hseen.
  destruct (read_loop_observes_stop p n Hstop Hseen)
    as (broke & Hloop & Hleft & Hflag).
  assert (Hcommand :
    CommandWorker_run command_list use_pkexec callback_arg p
    = returns (((fun line => sig_progress (strip line)) <$> take n (stdout p))
               ++ [sig_error msg_cancelled callback_arg])).
  { unfold CommandWorker_run.
    assert (use_pkexec && negb (pkexec_found p) = false) as ->.
    { destruct use_pkexec; [|done]. by rewrite Hpkexec. }
    rewrite Hlaunch, Hloop. by apply after_stdout_cancelled. }
  assert (Hgeneric :
    GenericWorker_run command_list parser_func callback_arg p
    = returns [sig_error msg_cancelled callback_arg]).
  { unfold GenericWorker_run. rewrite Hlaunch, Hloop.
    by apply after_stdout_cancelled. }
  simpl. rewrite Hcommand, Hgeneric. unfold terminal_signals, result_signals.
  simpl. rewrite !filter_app.
  by rewrite terminal_progress, result_progress.
Qed.

Lemma observed_stop_emits_one_cancellation_witness :
  emitted (CommandWorker_run ["emerge"; "--sync"] true None
             stopped_while_reading)
  = [sig_progress ">>> Emerging (1 of 2) app-misc/foo";
     sig_error msg_cancelled None].
Proof.
  destruct (observed_stop_emits_one_cancellation
              ["emerge"; "--sync"] true None None stopped_while_reading)
    as [H _].
  destruct (H 1%nat eq_refl (fun _ => eq_refl) eq_refl
              (or_introl (le_n 2))) as (_ & _ & _ & Hemitted & _).
  exact Hemitted.
Defined.

(** The timeout is that of [process.wait]: once both streams are read to
    their end and the process has not exited within [COMMAND_TIMEOUT]
    seconds, it is killed and the task fails with the diagnostic that names
    the 300 seconds. *)
Lemma wait_timeout_kills (command_list : list string) (use_pkexec : bool)
    (parser_func : option (list string -> string + Payload))
    (callback_arg : CallbackArg) (p : Process) (stderr_output : string) :
  launch p = Spawned ->
  (use_pkexec = true -> pkexec_found p = true) ->
  stdout_eof p = true ->
  stop_after p = None ->
  stderr p = Some stderr_output ->
  wait p = Expired ->
  let command := CommandWorker_run command_list use_pkexec callback_arg p in
  let generic := GenericWorker_run command_list parser_func callback_arg p in
  killed command = true /\ ending command = Returned
  /\ terminal_signals command
     = [sig_error "Command timed out after 300 seconds." callback_arg]
  /\ killed generic = true /\ ending generic = Returned
  /\ emitted generic
     = [sig_error "Command timed out after 300 seconds." callback_arg].
Proof.
  intros Hlaunch Hpkexec Heof Hstop Hstderr Hwait.
  assert (Hloop : read_loop p 0 (stdout p) = (stdout p, false)).
  { apply read_loop_running. intros i _. unfold running. by rewrite Hstop. }
  assert (Hafter : forall before reads on_exit,
    after_stdout p callback_arg before false reads on_exit
    = {| emitted := before ++ [sig_error msg_timeout callback_arg];
         killed := true; ending := Returned |}).
  { intros before reads on_exit. unfold after_stdout, running.
    by rewrite Heof, Hstop, Hstderr, Hwait. }
  simpl. unfold CommandWorker_run, GenericWorker_run.
  assert (use_pkexec && negb (pkexec_found p) = false) as ->.
  { destruct use_pkexec; [|done]. by rewrite Hpkexec. }
  rewrite Hlaunch, Hloop, !Hafter. unfold terminal_signals. simpl.
  by rewrite filter_app, terminal_progress.
Qed.

(** A process that keeps its standard output open blocks [run] in
    [readline]: [process.wait(timeout=COMMAND_TIMEOUT)] is not reached,
    whatever the process does afterwards. *)
Lemma open_stdout_blocks_run (command_list : list string) (use_pkexec : bool)
    (parser_func : option (list string -> string + Payload))
    (callback_arg : CallbackArg) (p : Process) :
  launch p = Spawned ->
  (use_pkexec = true -> pkexec_found p = true) ->
  stdout_eof p = false ->
  stop_after p = None ->
  let command := CommandWorker_run command_list use_pkexec callback_arg p in
  let generic := GenericWorker_run command_list parser_func callback_arg p in
  ending command = Blocked /\ killed command = false
  /\ terminal_signals command = []
  /\ ending generic = Blocked /\ killed generic = false
  /\ emitted generic = [].
Proof.
  intros Hlaunch Hpkexec Heof Hstop.
  assert (Hloop : read_loop p 0 (stdout p) = (stdout p, false)).
  { apply read_loop_running. intros i _. unfold running. by rewrite Hstop. }
  assert (Hafter : forall before reads on_exit,
    after_stdout p callback_arg before false reads on_exit
    = {| emitted := before; killed := false; ending := Blocked |}).
  { intros before reads on_exit. unfold after_stdout. by rewrite Heof. }
  simpl. unfold CommandWorker_run, GenericWorker_run.
  assert (use_pkexec && negb (pkexec_found p) = false) as ->.
  { destruct use_pkexec; [|done]. by rewrite Hpkexec. }
  rewrite Hlaunch, Hloop, !Hafter. unfold terminal_signals. simpl.
  by rewrite terminal_progress.
Qed.

(** Claim C7 at a process that never exits: it writes nothing and keeps its
    standard output open, so both workers stay in [readline]; the process
    is not killed and no timeout failure is emitted. *)
Theorem hung_process_is_not_timed_out :
  CommandWorker_run ["emerge"; "--sync"] true None hung_process
  = {| emitted := []; killed := false; ending := Blocked |}
  /\ GenericWorker_run ["eix"; "-c"; "--only-names"; "*/*"]
       (Some (fun lines => inr (PLines (parse_eix_output lines))))
       (Some LOAD_STEP_UPDATES) hung_process
     = {| emitted := []; killed := false; ending := Blocked |}.
Proof. split; vm_compute; reflexivity. Qed.

(** ** The task runners and the loading chain *)

(** From a state with no worker in flight [run_generic_task] starts the
    worker, whatever the error callback does. *)
Lemma run_generic_task_idle
    (k : ErrorSlot -> string -> CallbackArg -> M)
    (command : list string) (parser_func : Parser) (on_result : ResultSlot)
    (on_finished : FinishedSlot) (on_error : ErrorSlot)
    (status_message : string) (cb_arg : CallbackArg) (st : State) :
  busy st = false ->
  Handlers.run_generic_task k command parser_func on_result on_finished
    on_error status_message cb_arg st
  = Ok {| workers :=
            workers st
            ++ [{| worker_class := GenericWorker parser_func on_result;
                   command_list := command;
                   callback_arg := cb_arg;
                   finished_slot := on_finished;
                   error_slot := on_error;
                   isRunning := true |}];
          current_worker := Some (length (workers st));
          installed_packages := installed_packages st;
          all_available_package_atoms := all_available_package_atoms st;
          update_list_atoms := update_list_atoms st;
          update_list_display := update_list_display st;
          ui := CancelSetEnabled true :: ProgressSetVisible true
                :: ProgressSetRange 0 0 :: ShowMessage status_message 0
                :: ui st |}.
Proof. intros Hidle. unfold Handlers.run_generic_task. by rewrite Hidle. Qed.

Lemma busy_no_worker (st : State) : current_worker st = None -> busy st = false.
Proof. intros H. unfold busy. by rewrite H. Qed.

(** The worker each load step starts. *)
Lemma start_installed_idle
    (k : ErrorSlot -> string -> CallbackArg -> M) (st : State) :
  current_worker st = None ->
  Handlers._start_next_load_step k (Some LOAD_STEP_INSTALLED) st
  = Ok {| workers :=
            workers st
            ++ [{| worker_class :=
                     GenericWorker parser_equery_installed
                       slot_on_installed_result;
                   command_list := ["equery"; "list"; "--installed"; "*/*"];
                   callback_arg := Some LOAD_STEP_AVAILABLE;
                   finished_slot := slot_generic_finished;
                   error_slot := slot_on_installed_error;
                   isRunning := true |}];
          current_worker := Some (length (workers st));
          installed_packages := installed_packages st;
          all_available_package_atoms := all_available_package_atoms st;
          update_list_atoms := update_list_atoms st;
          update_list_display := update_list_display st;
          ui := [CancelSetEnabled true; ProgressSetVisible true;
                 ProgressSetRange 0 0;
                 ShowMessage "Loading installed packages..." 0;
                 ListAddItem installed_package_list
                   "Loading installed packages...";
                 ListClear installed_package_list;
                 SetTabText installed_tab_index "Installed Packages (?)"]
                ++ ui st |}.
Proof.
  intros Hidle. cbn [Handlers._start_next_load_step].
  change (LOAD_STEP_INSTALLED =? LOAD_STEP_INSTALLED) with true. cbv iota.
  unfold Handlers.refresh_installed_packages, seq, update_tab_text, call.
  by rewrite run_generic_task_idle by (by apply busy_no_worker).
Qed.

Lemma start_available_idle
    (k : ErrorSlot -> string -> CallbackArg -> M) (st : State) :
  current_worker st = None ->
  Handlers._start_next_load_step k (Some LOAD_STEP_AVAILABLE) st
  = Ok {| workers :=
            workers st
            ++ [{| worker_class :=
                     GenericWorker parser_eix_output
                       slot_on_load_available_result;
                   command_list := ["eix"; "-c"; "--only-names"; "*/*"];
                   callback_arg := Some LOAD_STEP_UPDATES;
                   finished_slot := slot_generic_finished;
                   error_slot := slot_on_load_available_error;
                   isRunning := true |}];
          current_worker := Some (length (workers st));
          installed_packages := installed_packages st;
          all_available_package_atoms := all_available_package_atoms st;
          update_list_atoms := update_list_atoms st;
          update_list_display := update_list_display st;
          ui := [CancelSetEnabled true; ProgressSetVisible true;
                 ProgressSetRange 0 0;
                 ShowMessage "Loading available packages (eix)..." 0;
                 ListAddItem browse_package_list
                   "Loading available packages (using eix)...";
                 ListClear browse_package_list;
                 SetTabText browse_tab_index "Browse Packages (?)"]
                ++ ui st |}.
Proof.
  intros Hidle. cbn [Handlers._start_next_load_step].
  change (LOAD_STEP_AVAILABLE =? LOAD_STEP_INSTALLED) with false.
  change (LOAD_STEP_AVAILABLE =? LOAD_STEP_AVAILABLE) with true. cbv iota.
  unfold Handlers.load_all_available_packages, seq, update_tab_text, call.
  by rewrite run_generic_task_idle by (by apply busy_no_worker).
Qed.

Lemma start_updates_idle
    (k : ErrorSlot -> string -> CallbackArg -> M) (st : State) :
  current_worker st = None ->
  Handlers._start_next_load_step k (Some LOAD_STEP_UPDATES) st
  = Ok {| workers :=
            workers st
            ++ [{| worker_class :=
                     GenericWorker parser_updates slot_on_updates_result;
                   command_list := ["emerge"; "-upvND"; "@world"];
                   callback_arg := Some LOAD_STEP_COMPLETE;
                   finished_slot := slot_generic_finished;
                   error_slot := slot_on_updates_error;
                   isRunning := true |}];
          current_worker := Some (length (workers st));
          installed_packages := installed_packages st;
          all_available_package_atoms := all_available_package_atoms st;
          update_list_atoms := update_list_atoms st;
          update_list_display := update_list_display st;
          ui := [CancelSetEnabled true; ProgressSetVisible true;
                 ProgressSetRange 0 0;
                 ShowMessage
                   "Checking for updates (emerge -upvND @world)..." 0;
                 ListAddItem update_package_list
                   "Checking for updates (emerge pretend)...";
                 ListClear update_package_list;
                 SetTabText update_tab_index "Updates (?)"]
                ++ ui st |}.
Proof.
  intros Hidle. cbn [Handlers._start_next_load_step].
  change (LOAD_STEP_UPDATES =? LOAD_STEP_INSTALLED) with false.
  change (LOAD_STEP_UPDATES =? LOAD_STEP_AVAILABLE) with false.
  change (LOAD_STEP_UPDATES =? LOAD_STEP_UPDATES) with true. cbv iota.
  unfold Handlers.refresh_updates, seq, update_tab_text, call.
  by rewrite run_generic_task_idle by (by apply busy_no_worker).
Qed.

Lemma start_complete
    (k : ErrorSlot -> string -> CallbackArg -> M) (st : State) :
  Handlers._start_next_load_step k (Some LOAD_STEP_COMPLETE) st
  = Ok {| workers := workers st;
          current_worker := None;
          installed_packages := installed_packages st;
          all_available_package_atoms := all_available_package_atoms st;
          update_list_atoms := update_list_atoms st;
          update_list_display := update_list_display st;
          ui := [CancelSetEnabled false; ProgressSetVisible false;
                 ShowMessage "Initial loading complete." 5000]
                ++ ui st |}.
Proof. reflexivity. Qed.

Lemma start_other
    (k : ErrorSlot -> string -> CallbackArg -> M) (step : CallbackArg)
    (st : State) :
  step <> Some LOAD_STEP_INSTALLED -> step <> Some LOAD_STEP_AVAILABLE ->
  step <> Some LOAD_STEP_UPDATES -> step <> Some LOAD_STEP_COMPLETE ->
  Handlers._start_next_load_step k step st = Ok st.
Proof.
  intros H0 H1 H2 H3. destruct step as [s|]; [|done].
  unfold Handlers._start_next_load_step.
  destruct (Z.eqb_spec s LOAD_STEP_INSTALLED); [congruence|].
  destruct (Z.eqb_spec s LOAD_STEP_AVAILABLE); [congruence|].
  destruct (Z.eqb_spec s LOAD_STEP_UPDATES); [congruence|].
  destruct (Z.eqb_spec s LOAD_STEP_COMPLETE); [congruence|].
  done.
Qed.

(** From a state with no worker in flight the next load step starts without
    a call of the error callback: it returns, shows no dialog, logs nothing
    and keeps the package data. *)
Lemma start_next_idle (step : CallbackArg) (st : State) :
  current_worker st = None ->
  exists st',
    (forall k, Handlers._start_next_load_step k step st = Ok st')
    /\ quiet st st'
    /\ (exists started, workers st' = workers st ++ started)
    /\ (exists new, ui st' = new ++ ui st)
    /\ (step = Some LOAD_STEP_COMPLETE ->
        complete st' /\ workers st' = workers st).
Proof.
  intros Hidle.
  destruct (decide (step = Some LOAD_STEP_INSTALLED)) as [->|H0].
  { eexists. split; [intros k; by apply start_installed_idle|].
    split; [done|]. split; [by eexists|]. split; [by eexists | discriminate]. }
  destruct (decide (step = Some LOAD_STEP_AVAILABLE)) as [->|H1].
  { eexists. split; [intros k; by apply start_available_idle|].
    split; [done|]. split; [by eexists|]. split; [by eexists | discriminate]. }
  destruct (decide (step = Some LOAD_STEP_UPDATES)) as [->|H2].
  { eexists. split; [intros k; by apply start_updates_idle|].
    split; [done|]. split; [by eexists|]. split; [by eexists | discriminate]. }
  destruct (decide (step = Some LOAD_STEP_COMPLETE)) as [->|H3].
  { eexists. split; [intros k; by apply start_complete|].
    split; [done|]. split; [exists []; simpl; by rewrite app_nil_r|].
    split; [by eexists | done]. }
  exists st. split; [intros k; by apply start_other|].
  split; [done|]. split; [exists []; by rewrite app_nil_r|].
  split; [by exists [] | done].
Qed.

Lemma generic_finished_unfold
    (k : ErrorSlot -> string -> CallbackArg -> M) (cb_arg : CallbackArg)
    (st : State) :
  Handlers._generic_finished k cb_arg st
  = Handlers._start_next_load_step k cb_arg
      {| workers := workers st;
         current_worker := None;
         installed_packages := installed_packages st;
         all_available_package_atoms := all_available_package_atoms st;
         update_list_atoms := update_list_atoms st;
         update_list_display := update_list_display st;
         ui := Print ("Generic task finished, proceeding to step: "
                      +:+ str_of_arg cb_arg) :: ui st |}.
Proof. reflexivity. Qed.

(** The three ways of [_generic_error]. *)
Lemma generic_error_cancelled
    (k : ErrorSlot -> string -> CallbackArg -> M) (error_msg : string)
    (cb_arg : CallbackArg) (st : State) :
  contains "Operation Cancelled" error_msg = true ->
  Handlers._generic_error k error_msg cb_arg st
  = Ok {| workers := workers st;
          current_worker := None;
          installed_packages := installed_packages st;
          all_available_package_atoms := all_available_package_atoms st;
          update_list_atoms := update_list_atoms st;
          update_list_display := update_list_display st;
          ui := [CancelSetEnabled false; ProgressSetVisible false;
                 ConsoleEnsureCursorVisible;
                 ConsoleAppend (nl +:+ dashes 20 +:+ nl
                                +:+ "Load Operation Cancelled by User.");
                 ShowMessage "Load operation Cancelled." 5000;
                 Print ("Generic task error: " +:+ error_msg
                        +:+ ", proceeding to step: " +:+ str_of_arg cb_arg)]
                ++ ui st |}.
Proof.
  intros Hcancel. unfold Handlers._generic_error.
  rewrite Hcancel. reflexivity.
Qed.

Lemma first_line_nonempty (s : string) :
  s <> EmptyString -> first_line s = Some (until_break s).
Proof. by destruct s. Qed.

Lemma generic_error_ordinary
    (k : ErrorSlot -> string -> CallbackArg -> M) (error_msg : string)
    (cb_arg : CallbackArg) (st : State) :
  ordinary error_msg ->
  Handlers._generic_error k error_msg cb_arg st
  = Handlers._start_next_load_step k cb_arg
      {| workers := workers st;
         current_worker := None;
         installed_packages := installed_packages st;
         all_available_package_atoms := all_available_package_atoms st;
         update_list_atoms := update_list_atoms st;
         update_list_display := update_list_display st;
         ui := [ShowMessage ("Load failed: " +:+ until_break error_msg
                             +:+ "...") 6000;
                ConsoleEnsureCursorVisible;
                ConsoleAppend (failure_log error_msg);
                Print ("Generic task error: " +:+ error_msg
                       +:+ ", proceeding to step: " +:+ str_of_arg cb_arg)]
               ++ ui st |}.
Proof.
  intros (Hne & Hcancel & Hfound). unfold Handlers._generic_error.
  rewrite Hcancel, (first_line_nonempty _ Hne), Hfound. reflexivity.
Qed.

Lemma generic_error_command_not_found
    (k : ErrorSlot -> string -> CallbackArg -> M) (error_msg : string)
    (cb_arg : CallbackArg) (st : State) :
  contains "Operation Cancelled" error_msg = false ->
  contains "Command not found" error_msg = true ->
  Handlers._generic_error k error_msg cb_arg st
  = Ok {| workers := workers st;
          current_worker := None;
          installed_packages := installed_packages st;
          all_available_package_atoms := all_available_package_atoms st;
          update_list_atoms := update_list_atoms st;
          update_list_display := update_list_display st;
          ui := [CancelSetEnabled false; ProgressSetVisible false;
                 CriticalBox
                   ("Data Loading Failed:" +:+ nl +:+ error_msg +:+ nl +:+ nl
                    +:+ "Please ensure the necessary tools (like eix, equery) are installed and in your PATH.");
                 ShowMessage ("Load failed: " +:+ until_break error_msg
                              +:+ "...") 6000;
                 ConsoleEnsureCursorVisible;
                 ConsoleAppend (failure_log error_msg);
                 Print ("Generic task error: " +:+ error_msg
                        +:+ ", proceeding to step: " +:+ str_of_arg cb_arg)]
                ++ ui st |}.
Proof.
  intros Hcancel Hfound. unfold Handlers._generic_error.
  assert (Hne : error_msg <> EmptyString) by (by intros ->).
  rewrite Hcancel, (first_line_nonempty _ Hne), Hfound. reflexivity.
Qed.

(** [_generic_error] on any diagnostic but the empty one: it returns, with
    one more entry on the console, no package data changed, and a result
    that does not depend on the error callback. *)
Lemma generic_error_returns (error_msg : string) (cb_arg : CallbackArg)
    (st : State) :
  error_msg <> EmptyString ->
  exists st' entry,
    (forall k, Handlers._generic_error k error_msg cb_arg st = Ok st')
    /\ console st' = entry :: console st
    /\ installed_packages st' = installed_packages st
    /\ all_available_package_atoms st' = all_available_package_atoms st
    /\ update_list_atoms st' = update_list_atoms st
    /\ update_list_display st' = update_list_display st
    /\ (exists new, ui st' = new ++ ui st).
Proof.
  intros Hne.
  destruct (contains "Operation Cancelled" error_msg) eqn:Hcancel.
  { eexists _, _. split; [intros k; by apply generic_error_cancelled|].
    repeat split; try done. by eexists. }
  destruct (contains "Command not found" error_msg) eqn:Hfound.
  { eexists _, _.
    split; [intros k; by apply generic_error_command_not_found|].
    repeat split; try done. by eexists. }
  pose (st1 :=
    {| workers := workers st;
       current_worker := None;
       installed_packages := installed_packages st;
       all_available_package_atoms := all_available_package_atoms st;
       update_list_atoms := update_list_atoms st;
       update_list_display := update_list_display st;
       ui := [ShowMessage ("Load failed: " +:+ until_break error_msg
                           +:+ "...") 6000;
              ConsoleEnsureCursorVisible;
              ConsoleAppend (failure_log error_msg);
              Print ("Generic task error: " +:+ error_msg
                     +:+ ", proceeding to step: " +:+ str_of_arg cb_arg)]
             ++ ui st |}).
  destruct (start_next_idle cb_arg st1 eq_refl)
    as (st' & Hk & Hquiet & _ & [new Hui] & _).
  exists st', (failure_log error_msg).
  split; [intros k; rewrite generic_error_ordinary by done; apply Hk|].
  destruct Hquiet as (-> & -> & -> & -> & _ & ->).
  repeat split; try done.
  rewrite Hui. unfold st1. simpl. eexists (new ++ [_; _; _; _]).
  by rewrite <- app_assoc.
Qed.

Lemma on_updates_result_empty (st : State) :
  Handlers.on_updates_result [] [] st
  = Ok {| workers := workers st;
          current_worker := current_worker st;
          installed_packages := installed_packages st;
          all_available_package_atoms := all_available_package_atoms st;
          update_list_atoms := [];
          update_list_display := [];
          ui := [SetTabText update_tab_index "Updates (0)";
                 ShowMessage "System is up to date." 3000;
                 ListAddItem update_package_list "No updates available.";
                 ListClear update_package_list]
                ++ ui st |}.
Proof. reflexivity. Qed.

(** The benign branch of [on_updates_error]: the update lists are emptied
    and the chain goes on through [_generic_finished]; no dialog, nothing on
    the console. *)
Lemma updates_error_benign (error_msg : string) (cb_arg : CallbackArg)
    (st : State) :
  classify error_msg = NoUpdates ->
  exists st',
    (forall k, Handlers.on_updates_error k error_msg cb_arg st = Ok st')
    /\ update_list_atoms st' = [] /\ update_list_display st' = []
    /\ installed_packages st' = installed_packages st
    /\ all_available_package_atoms st' = all_available_package_atoms st
    /\ dialogs st' = dialogs st /\ console st' = console st
    /\ ListAddItem update_package_list "No updates available." ∈ ui st'
    /\ (cb_arg = Some LOAD_STEP_COMPLETE ->
        complete st' /\ workers st' = workers st).
Proof.
  intros Hclass.
  pose (st1 :=
    {| workers := workers st;
       current_worker := None;
       installed_packages := installed_packages st;
       all_available_package_atoms := all_available_package_atoms st;
       update_list_atoms := [];
       update_list_display := [];
       ui := [Print ("Generic task finished, proceeding to step: "
                     +:+ str_of_arg cb_arg);
              SetTabText update_tab_index "Updates (0)";
              ShowMessage "System is up to date." 3000;
              ListAddItem update_package_list "No updates available.";
              ListClear update_package_list;
              Print "Detected 'no updates' condition from emerge output."]
             ++ ui st |}).
  destruct (start_next_idle cb_arg st1 eq_refl)
    as (st' & Hk & Hquiet & _ & [new Hui] & Hcomplete).
  exists st'. split.
  { intros k. unfold Handlers.on_updates_error. rewrite Hclass.
    rewrite <- (Hk k). reflexivity. }
  destruct Hquiet as (-> & -> & -> & -> & -> & ->).
  repeat split; try done; try (by apply Hcomplete).
  rewrite Hui. apply elem_of_app. right. unfold st1. simpl.
  do 3 apply list_elem_of_further. apply list_elem_of_here.
Qed.

Lemma is_no_updates_classify (error_msg : string) :
  is_no_updates error_msg = true <-> classify error_msg = NoUpdates.
Proof.
  unfold classify. destruct (is_no_updates error_msg); [done|].
  by destruct (is_permission_denied error_msg).
Qed.

Lemma contains_nonempty (needle hay : string) :
  needle <> EmptyString -> contains needle hay = true -> hay <> EmptyString.
Proof. intros Hneedle Hin ->. by destruct needle. Qed.

Lemma permission_denied_nonempty (error_msg : string) :
  is_permission_denied error_msg = true -> error_msg <> EmptyString.
Proof. by intros H ->. Qed.

(** The failure branches of [on_updates_error] hand the diagnostic to
    [_generic_error] after marking the update list. *)
Lemma updates_error_failure
    (k : ErrorSlot -> string -> CallbackArg -> M) (error_msg : string)
    (cb_arg : CallbackArg) (st : State) :
  classify error_msg <> NoUpdates ->
  Handlers.on_updates_error k error_msg cb_arg st
  = Handlers._generic_error k error_msg cb_arg
      {| workers := workers st;
         current_worker := current_worker st;
         installed_packages := installed_packages st;
         all_available_package_atoms := all_available_package_atoms st;
         update_list_atoms := update_list_atoms st;
         update_list_display := update_list_display st;
         ui := [SetTabText update_tab_index "Updates (0)";
                ListAddItem update_package_list
                  (match classify error_msg with
                   | PermissionError => "Permission error checking updates."
                   | _ => "Error checking for updates."
                   end);
                ListClear update_package_list]
               ++ ui st |}.
Proof.
  intros Hclass. unfold Handlers.on_updates_error.
  by destruct (classify error_msg).
Qed.

(** The result of an error callback does not depend on how nested error
    callbacks are run: no handler reaches the busy branch of
    [run_generic_task]. *)
Lemma generic_error_independent
    (k k' : ErrorSlot -> string -> CallbackArg -> M) (error_msg : string)
    (cb_arg : CallbackArg) (st : State) :
  Handlers._generic_error k error_msg cb_arg st
  = Handlers._generic_error k' error_msg cb_arg st
  /\ Handlers._generic_error k error_msg cb_arg st <> Unfinished.
Proof.
  destruct (decide (error_msg = EmptyString)) as [->|Hne]; [done|].
  destruct (generic_error_returns error_msg cb_arg st Hne)
    as (st' & entry & Hk & _).
  by rewrite !Hk.
Qed.

Lemma command_action_error_finishes (error_msg : string)
    (callback : option ErrorCallback) (st : State) :
  Handlers._command_action_error error_msg callback st <> Unfinished.
Proof.
  destruct callback as [[]|]. unfold Handlers._command_action_error.
  destruct (contains "Operation Cancelled" error_msg); [done|].
  by destruct error_msg.
Qed.

Lemma call_error_slot_independent
    (k k' : ErrorSlot -> string -> CallbackArg -> M) (slot : ErrorSlot)
    (error_msg : string) (cb_arg : CallbackArg) (st : State) :
  Handlers.call_error_slot k slot error_msg cb_arg st
  = Handlers.call_error_slot k' slot error_msg cb_arg st
  /\ Handlers.call_error_slot k slot error_msg cb_arg st <> Unfinished.
Proof.
  destruct slot as [| | |callback]; simpl.
  - apply generic_error_independent.
  - apply generic_error_independent.
  - destruct (classify error_msg) eqn:Hc.
    + destruct (updates_error_benign error_msg cb_arg st Hc) as (st' & Hk & _).
      by rewrite !Hk.
    + rewrite !updates_error_failure by congruence.
      apply generic_error_independent.
    + rewrite !updates_error_failure by congruence.
      apply generic_error_independent.
  - split; [done | apply command_action_error_finishes].
Qed.

(** Depth 1 is enough for every error callback, and an error callback
    always comes to an end. *)
Lemma error_callback_total (depth : nat) (slot : ErrorSlot)
    (error_msg : string) (cb_arg : CallbackArg) (st : State) :
  error_callback_at (S depth) slot error_msg cb_arg st
  = error_callback slot error_msg cb_arg st
  /\ error_callback slot error_msg cb_arg st <> Unfinished.
Proof.
  split.
  - exact (proj1 (call_error_slot_independent
                    (error_callback_at depth) (error_callback_at 0)
                    slot error_msg cb_arg st)).
  - exact (proj2 (call_error_slot_independent
                    (error_callback_at 0) (error_callback_at 0)
                    slot error_msg cb_arg st)).
Qed.

(** ** The classifier of the update step *)

(** Claim C2: a failure diagnostic of the update step that holds one of the
    phrases of [no_updates_phrases] is taken for a success with an empty
    payload: [on_updates_result] receives empty atoms and display lists,
    no dialog is shown and nothing is logged as an error, and the chain goes
    on through [_generic_finished], the handler of a success. *)
Theorem benign_failure_is_success (error_msg : string) (cb_arg : CallbackArg)
    (st : State) :
  is_no_updates error_msg = true ->
  classify error_msg = NoUpdates
  /\ on_updates_error error_msg cb_arg st
     = (call (Print "Detected 'no updates' condition from emerge output.");;
        on_updates_result [] [];;
        _generic_finished cb_arg) st
  /\ exists st',
       on_updates_error error_msg cb_arg st = Ok st'
       /\ update_list_atoms st' = [] /\ update_list_display st' = []
       /\ dialogs st' = dialogs st /\ console st' = console st
       /\ ListAddItem update_package_list "No updates available." ∈ ui st'
       /\ (cb_arg = Some LOAD_STEP_COMPLETE -> complete st').
Proof.
  intros Hbenign. apply is_no_updates_classify in Hbenign.
  split; [done|]. split.
  { unfold on_updates_error, Handlers.on_updates_error.
    by rewrite Hbenign. }
  destruct (updates_error_benign error_msg cb_arg st Hbenign)
    as (st' & Hk & Hatoms & Hdisplay & _ & _ & Hdialogs & Hconsole & Hitem
        & Hcomplete).
  exists st'. split; [apply Hk|].
  repeat split; try done; by apply Hcomplete.
Qed.

Lemma benign_failure_is_success_witness :
  exists st',
    on_updates_error
      (Worker.msg_failed 1 ["emerge"; "-upvND"; "@world"]
         "emerge: there are no ebuilds to satisfy @world")
      (Some LOAD_STEP_COMPLETE) loading_installed = Ok st'
    /\ update_list_atoms st' = [] /\ update_list_display st' = []
    /\ dialogs st' = dialogs loading_installed
    /\ console st' = console loading_installed
    /\ ListAddItem update_package_list "No updates available." ∈ ui st'
    /\ (Some LOAD_STEP_COMPLETE = Some LOAD_STEP_COMPLETE -> complete st').
Proof.
  apply (benign_failure_is_success
           (Worker.msg_failed 1 ["emerge"; "-upvND"; "@world"]
              "emerge: there are no ebuilds to satisfy @world")
           (Some LOAD_STEP_COMPLETE) loading_installed).
  vm_compute. reflexivity.
Defined.

Lemma is_no_updates_phrase (phrase error_msg : string) :
  phrase ∈ no_updates_phrases -> contains phrase error_msg = true ->
  is_no_updates error_msg = true.
Proof.
  intros Hin Hphrase. unfold is_no_updates. apply existsb_exists.
  exists phrase. split; [|done]. by apply list_elem_of_In.
Qed.

(** Claim C10: a failure diagnostic of the update step that holds any of
    the phrases, the bare [Exiting.] among them, is rewritten into a success
    with an empty result, whether or not the diagnostic also holds
    [Permission denied] or [are you root?]: the phrases are looked for
    first, and the permission branch, which marks the list with a
    permission error and logs the failure, is not taken.  The update lists
    are emptied, nothing is logged and no dialog is shown, and the sequence
    continues as after a result: called as the program calls it, with
    [LOAD_STEP_COMPLETE], the handler ends the sequence in the Complete
    state with the update list showing that there are no updates; called
    with the step of a query, it starts the worker of that query. *)
Theorem benign_phrase_wins_over_permission_denied
    (phrase error_msg : string) (cb_arg : CallbackArg) (st : State) :
  phrase ∈ no_updates_phrases ->
  contains phrase error_msg = true ->
  "Exiting." ∈ no_updates_phrases
  /\ classify error_msg = NoUpdates
  /\ (is_permission_denied error_msg = true ->
      classify error_msg <> PermissionError)
  /\ exists st',
       on_updates_error error_msg cb_arg st = Ok st'
       /\ update_list_atoms st' = [] /\ update_list_display st' = []
       /\ console st' = console st /\ dialogs st' = dialogs st
       /\ (cb_arg = Some LOAD_STEP_COMPLETE ->
           complete st'
           /\ workers st' = workers st
           /\ Actions.list_items update_package_list (ui st')
              = Some ["No updates available."]
           /\ Actions.tab_text update_tab_index st' = Some "Updates (0)")
       /\ (forall command,
             (cb_arg = Some LOAD_STEP_INSTALLED
              /\ command = ["equery"; "list"; "--installed"; "*/*"])
             \/ (cb_arg = Some LOAD_STEP_AVAILABLE
                 /\ command = ["eix"; "-c"; "--only-names"; "*/*"])
             \/ (cb_arg = Some LOAD_STEP_UPDATES
                 /\ command = ["emerge"; "-upvND"; "@world"]) ->
             commands st' = commands st ++ [command]
             /\ current_worker st' = Some (length (workers st))
             /\ busy st' = true).
Proof.
  intros Hin Hphrase.
  pose proof (is_no_updates_phrase _ _ Hin Hphrase) as Hbenign.
  apply is_no_updates_classify in Hbenign as Hclass.
  split. { unfold no_updates_phrases. do 3 apply list_elem_of_further.
           apply list_elem_of_here. }
  split; [done|]. split; [by rewrite Hclass|].
  pose (st1 :=
    {| workers := workers st;
       current_worker := None;
       installed_packages := installed_packages st;
       all_available_package_atoms := all_available_package_atoms st;
       update_list_atoms := [];
       update_list_display := [];
       ui := [Print ("Generic task finished, proceeding to step: "
                     +:+ str_of_arg cb_arg);
              SetTabText update_tab_index "Updates (0)";
              ShowMessage "System is up to date." 3000;
              ListAddItem update_package_list "No updates available.";
              ListClear update_package_list;
              Print "Detected 'no updates' condition from emerge output."]
             ++ ui st |}).
  assert (Hrun : on_updates_error error_msg cb_arg st
                 = _start_next_load_step cb_arg st1).
  { unfold on_updates_error, Handlers.on_updates_error. by rewrite Hclass. }
  rewrite Hrun. unfold _start_next_load_step.
  assert (Hbusy : forall (ws : list WorkerObj) (w : WorkerObj) rest more,
            isRunning w = true ->
            busy {| workers := ws ++ [w];
                    current_worker := Some (length ws);
                    installed_packages := rest;
                    all_available_package_atoms := more;
                    update_list_atoms := [];
                    update_list_display := [];
                    ui := [] |} = true).
  { intros ws w rest more Hw. unfold busy. fields.
    by rewrite list_lookup_middle. }
  destruct (decide (cb_arg = Some LOAD_STEP_COMPLETE)) as [Hstep|Hcomplete].
  { rewrite Hstep, start_complete. eexists. split; [reflexivity|].
    unfold st1. fields.
    split; [done|]. split; [done|]. split; [done|]. split; [done|].
    split.
    - intros _. split; [done|]. split; [done|]. split; reflexivity.
    - intros command [[H _] | [[H _] | [H _]]];
        vm_compute in H; discriminate H. }
  destruct (decide (cb_arg = Some LOAD_STEP_INSTALLED)) as [Hstep|Hinstalled].
  { rewrite Hstep, start_installed_idle by done. eexists.
    split; [reflexivity|]. unfold st1. fields.
    split; [done|]. split; [done|]. split; [done|]. split; [done|].
    split; [intros H; vm_compute in H; discriminate H|].
    intros command [[_ ->] | [[H _] | [H _]]];
      [|vm_compute in H; discriminate H..].
    unfold commands, busy. fields.
    rewrite fmap_app, list_lookup_middle by done. done. }
  destruct (decide (cb_arg = Some LOAD_STEP_AVAILABLE)) as [Hstep|Havailable].
  { rewrite Hstep, start_available_idle by done. eexists.
    split; [reflexivity|]. unfold st1. fields.
    split; [done|]. split; [done|]. split; [done|]. split; [done|].
    split; [intros H; vm_compute in H; discriminate H|].
    intros command [[H _] | [[_ ->] | [H _]]];
      [vm_compute in H; discriminate H|
      |vm_compute in H; discriminate H].
    unfold commands, busy. fields.
    rewrite fmap_app, list_lookup_middle by done. done. }
  destruct (decide (cb_arg = Some LOAD_STEP_UPDATES)) as [Hstep|Hupdates].
  { rewrite Hstep, start_updates_idle by done. eexists.
    split; [reflexivity|]. unfold st1. fields.
    split; [done|]. split; [done|]. split; [done|]. split; [done|].
    split; [intros H; vm_compute in H; discriminate H|].
    intros command [[H _] | [[H _] | [_ ->]]];
      [vm_compute in H; discriminate H..|].
    unfold commands, busy. fields.
    rewrite fmap_app, list_lookup_middle by done. done. }
  rewrite start_other by done. exists st1.
  split; [done|]. unfold st1. fields.
  split; [done|]. split; [done|]. split; [done|]. split; [done|].
  split; [done|].
  intros command [[? _] | [[? _] | [? _]]]; congruence.
Qed.

Lemma benign_phrase_wins_over_permission_denied_witness :
  is_permission_denied "Permission denied: are you root? Exiting." = true
  /\ classify "Permission denied: are you root? Exiting." = NoUpdates.
Proof.
  split; [vm_compute; reflexivity|].
  apply (benign_phrase_wins_over_permission_denied "Exiting."
           "Permission denied: are you root? Exiting." None created).
  - vm_compute. do 3 apply list_elem_of_further. apply list_elem_of_here.
  - vm_compute. reflexivity.
Defined.

Example permission_denied_and_exiting_console :
  exists st',
    on_updates_error
      (Worker.msg_failed 1 ["emerge"; "-upvND"; "@world"]
         "Permission denied: '/var/db/repos'. Exiting.")
      (Some LOAD_STEP_COMPLETE) created = Ok st'
    /\ console st' = [] /\ update_list_atoms st' = [].
Proof. eexists. split; [vm_compute; reflexivity|]. split; reflexivity. Qed.

(** Claim C3 as it is written: every diagnostic with a permission-denied
    pattern ends in a reported failure.  A diagnostic that also holds
    [Exiting.] is taken for the success with no updates: the update lists
    are emptied and nothing is logged. *)
Lemma permission_denied_is_not_always_a_failure :
  ~ (forall (error_msg : string) (cb_arg : CallbackArg) (st : State),
        is_permission_denied error_msg = true ->
        exists st' entry,
          on_updates_error error_msg cb_arg st = Ok st'
          /\ console st' = entry :: console st).
Proof.
  intros H.
  destruct (H (Worker.msg_failed 1 ["emerge"; "-upvND"; "@world"]
                 "Permission denied: '/var/db/repos'. Exiting.")
              (Some LOAD_STEP_COMPLETE) created)
    as (st' & entry & Hrun & Hlog).
  - vm_compute. reflexivity.
  - destruct permission_denied_and_exiting_console
      as (st'' & Hrun' & Hconsole & _).
    rewrite Hrun in Hrun'. injection Hrun' as ->. rewrite Hconsole in Hlog.
    discriminate.
Qed.

(** Claim C3, amended: a diagnostic with a permission-denied pattern and
    with none of the phrases of [no_updates_phrases] is classified as the
    permission failure: the predicates are tried in order, the first match
    decides.  It is never taken for a success: the stored update lists are
    left as they were and the diagnostic goes to [_generic_error], which
    logs it on the console as an error, unless the diagnostic also holds
    [Operation Cancelled], when the console gets the note of a cancellation
    instead, and which shows a dialog only when the diagnostic also holds
    [Command not found].  The failure is terminal: called as the program
    calls it, with [LOAD_STEP_COMPLETE], the handler starts no worker, so
    the check is not run again, leaves no worker current and the busy
    indicators down, and the update list shows the permission error under
    the tab title [Updates (0)]. *)
Theorem permission_denied_is_failure (error_msg : string)
    (cb_arg : CallbackArg) (st : State) :
  is_permission_denied error_msg = true ->
  is_no_updates error_msg = false ->
  classify error_msg = PermissionError
  /\ exists st',
       on_updates_error error_msg cb_arg st = Ok st'
       /\ update_list_atoms st' = update_list_atoms st
       /\ update_list_display st' = update_list_display st
       /\ console st'
          = (if contains "Operation Cancelled" error_msg
             then nl +:+ dashes 20 +:+ nl
                  +:+ "Load Operation Cancelled by User."
             else failure_log error_msg) :: console st
       /\ dialogs st'
          = (if negb (contains "Operation Cancelled" error_msg)
                && contains "Command not found" error_msg
             then ["Data Loading Failed:" +:+ nl +:+ error_msg +:+ nl +:+ nl
                   +:+ "Please ensure the necessary tools (like eix, equery) are installed and in your PATH."]
             else []) ++ dialogs st
       /\ (cb_arg = Some LOAD_STEP_COMPLETE ->
           workers st' = workers st
           /\ stopped st'
           /\ Actions.list_items update_package_list (ui st')
              = Some ["Permission error checking updates."]
           /\ Actions.tab_text update_tab_index st' = Some "Updates (0)").
Proof.
  intros Hdenied Hbenign.
  assert (Hclass : classify error_msg = PermissionError).
  { unfold classify. by rewrite Hbenign, Hdenied. }
  split; [done|].
  unfold on_updates_error.
  rewrite updates_error_failure by congruence. rewrite Hclass.
  destruct (contains "Operation Cancelled" error_msg) eqn:Hcancel.
  { rewrite generic_error_cancelled by done.
    eexists. split; [reflexivity|]. fields.
    split; [done|]. split; [done|]. split; [reflexivity|].
    split; [reflexivity|]. intros _.
    split; [done|]. split; [done|]. split; reflexivity. }
  destruct (contains "Command not found" error_msg) eqn:Hfound.
  { rewrite generic_error_command_not_found by done.
    eexists. split; [reflexivity|]. fields.
    split; [done|]. split; [done|]. split; [reflexivity|].
    split; [reflexivity|]. intros _.
    split; [done|]. split; [done|]. split; reflexivity. }
  assert (Hordinary : ordinary error_msg)
    by (split; [by apply permission_denied_nonempty | done]).
  rewrite generic_error_ordinary by done.
  destruct (decide (cb_arg = Some LOAD_STEP_COMPLETE)) as [->|Hstep].
  { rewrite start_complete.
    eexists. split; [reflexivity|]. fields.
    split; [done|]. split; [done|]. split; [reflexivity|].
    split; [reflexivity|]. intros _.
    split; [done|]. split; [done|]. split; reflexivity. }
  match goal with
  | |- exists st', Handlers._start_next_load_step _ _ ?s = _ /\ _ =>
      destruct (start_next_idle cb_arg s eq_refl)
        as (st' & Hk & Hquiet & _ & _ & _)
  end.
  exists st'. split; [apply Hk|].
  destruct Hquiet as (_ & _ & -> & -> & -> & ->).
  split; [done|]. split; [done|]. split; [reflexivity|].
  split; [reflexivity | done].
Qed.

Lemma permission_denied_is_failure_witness :
  classify
    (Worker.msg_failed 1 ["emerge"; "-upvND"; "@world"]
       "Permission denied: '/var/db/repos'")
  = PermissionError.
Proof.
  apply (permission_denied_is_failure
           (Worker.msg_failed 1 ["emerge"; "-upvND"; "@world"]
              "Permission denied: '/var/db/repos'")
           (Some LOAD_STEP_COMPLETE) loading_installed).
  - vm_compute. reflexivity.
  - vm_compute. reflexivity.
Defined.

(** ** Cancellation *)

Lemma cancelled_contains :
  contains "Operation Cancelled" Worker.msg_cancelled = true.
Proof. vm_compute. reflexivity. Qed.

Lemma command_action_error_cancelled (error_msg : string) (st : State) :
  contains "Operation Cancelled" error_msg = true ->
  Handlers._command_action_error error_msg None st
  = Ok {| workers := workers st;
          current_worker := None;
          installed_packages := installed_packages st;
          all_available_package_atoms := all_available_package_atoms st;
          update_list_atoms := update_list_atoms st;
          update_list_display := update_list_display st;
          ui := [ConsoleEnsureCursorVisible;
                 ConsoleAppend (nl +:+ dashes 20 +:+ nl
                                +:+ "Operation Cancelled by User.");
                 ShowMessage "Operation Cancelled." 5000;
                 CancelSetEnabled false; ProgressSetVisible false]
                ++ ui st |}.
Proof.
  intros Hcancel. unfold Handlers._command_action_error.
  rewrite Hcancel. reflexivity.
Qed.

(** Claim C6 as it is written: on a cancellation the user interface
    receives a status notice only, which tells a cancelled task from a
    failed one.  A cancelled load step also clears the list of the step and
    puts in it the item of a failed load, as after a failure, and appends a
    note to the console. *)
Lemma cancelled_load_step_shows_the_failure_item :
  exists st_cancelled st_failed,
    call_error_slot slot_on_installed_error Worker.msg_cancelled
      (Some LOAD_STEP_AVAILABLE) loading_installed = Ok st_cancelled
    /\ call_error_slot slot_on_installed_error
         (Worker.msg_failed 1 ["equery"; "list"; "--installed"; "*/*"] "")
         (Some LOAD_STEP_AVAILABLE) loading_installed = Ok st_failed
    /\ Actions.list_items installed_package_list (ui loading_installed)
       = Some ["Loading installed packages..."]
    /\ Actions.list_items installed_package_list (ui st_cancelled)
       = Some ["Error loading installed packages."]
    /\ Actions.list_items installed_package_list (ui st_failed)
       = Some ["Error loading installed packages."]
    /\ console st_cancelled
       = [nl +:+ dashes 20 +:+ nl +:+ "Load Operation Cancelled by User."].
Proof.
  eexists _, _. split; [vm_compute; reflexivity|].
  split; [vm_compute; reflexivity|].
  split; [vm_compute; reflexivity|]. split; [vm_compute; reflexivity|].
  split; vm_compute; reflexivity.
Qed.

(** Claim C6, amended: when a task ends with the cancellation, whichever
    error slot receives it (the three load steps and the user actions), the
    handler returns with no worker started, so no further step runs, with
    no worker current and the busy indicators down; no error dialog is
    shown and the package data is kept; the status bar shows the
    cancellation notice and the console gets the note of the cancellation,
    not a failure entry.  These are all the calls made for a user action.
    For a load step the handler of the step has first cleared the list of
    the step and put in it the item it shows for a failure, and for the
    update step reset the tab title to [Updates (0)]. *)
Theorem cancelled_task_stops_without_dialog (slot : ErrorSlot)
    (cb_arg : CallbackArg) (st : State) :
  exists st',
    call_error_slot slot Worker.msg_cancelled cb_arg st = Ok st'
    /\ workers st' = workers st
    /\ stopped st'
    /\ dialogs st' = dialogs st
    /\ installed_packages st' = installed_packages st
    /\ all_available_package_atoms st' = all_available_package_atoms st
    /\ update_list_atoms st' = update_list_atoms st
    /\ update_list_display st' = update_list_display st
    /\ status_message st'
       = Some match slot with
              | slot_command_action_error _ => "Operation Cancelled."
              | _ => "Load operation Cancelled."
              end
    /\ console st'
       = (nl +:+ dashes 20 +:+ nl
          +:+ match slot with
              | slot_command_action_error _ => "Operation Cancelled by User."
              | _ => "Load Operation Cancelled by User."
              end) :: console st
    /\ match slot with
       | slot_command_action_error _ =>
           ui st'
           = [ConsoleEnsureCursorVisible;
              ConsoleAppend (nl +:+ dashes 20 +:+ nl
                             +:+ "Operation Cancelled by User.");
              ShowMessage "Operation Cancelled." 5000;
              CancelSetEnabled false; ProgressSetVisible false] ++ ui st
       | slot_on_installed_error =>
           ui st'
           = [CancelSetEnabled false; ProgressSetVisible false;
              ConsoleEnsureCursorVisible;
              ConsoleAppend (nl +:+ dashes 20 +:+ nl
                             +:+ "Load Operation Cancelled by User.");
              ShowMessage "Load operation Cancelled." 5000;
              Print ("Generic task error: " +:+ Worker.msg_cancelled
                     +:+ ", proceeding to step: " +:+ str_of_arg cb_arg);
              ListAddItem installed_package_list
                "Error loading installed packages.";
              ListClear installed_package_list] ++ ui st
           /\ Actions.list_items installed_package_list (ui st')
              = Some ["Error loading installed packages."]
       | slot_on_load_available_error =>
           ui st'
           = [CancelSetEnabled false; ProgressSetVisible false;
              ConsoleEnsureCursorVisible;
              ConsoleAppend (nl +:+ dashes 20 +:+ nl
                             +:+ "Load Operation Cancelled by User.");
              ShowMessage "Load operation Cancelled." 5000;
              Print ("Generic task error: " +:+ Worker.msg_cancelled
                     +:+ ", proceeding to step: " +:+ str_of_arg cb_arg);
              ListAddItem browse_package_list
                "Error loading available packages.";
              ListClear browse_package_list] ++ ui st
           /\ Actions.list_items browse_package_list (ui st')
              = Some ["Error loading available packages."]
       | slot_on_updates_error =>
           ui st'
           = [CancelSetEnabled false; ProgressSetVisible false;
              ConsoleEnsureCursorVisible;
              ConsoleAppend (nl +:+ dashes 20 +:+ nl
                             +:+ "Load Operation Cancelled by User.");
              ShowMessage "Load operation Cancelled." 5000;
              Print ("Generic task error: " +:+ Worker.msg_cancelled
                     +:+ ", proceeding to step: " +:+ str_of_arg cb_arg);
              SetTabText update_tab_index "Updates (0)";
              ListAddItem update_package_list "Error checking for updates.";
              ListClear update_package_list] ++ ui st
           /\ Actions.list_items update_package_list (ui st')
              = Some ["Error checking for updates."]
           /\ Actions.tab_text update_tab_index st' = Some "Updates (0)"
       end.
Proof.
  assert (Hclass : classify Worker.msg_cancelled = ActualError)
    by (vm_compute; reflexivity).
  unfold call_error_slot.
  destruct slot as [| | |[[]|]]; cbn [Handlers.call_error_slot].
  - unfold Handlers.on_installed_error, seq, call.
    rewrite generic_error_cancelled by apply cancelled_contains.
    eexists. split; [reflexivity|]. fields. repeat split; reflexivity.
  - unfold Handlers.on_load_available_error, seq, call.
    rewrite generic_error_cancelled by apply cancelled_contains.
    eexists. split; [reflexivity|]. fields. repeat split; reflexivity.
  - rewrite updates_error_failure by congruence.
    rewrite generic_error_cancelled by apply cancelled_contains.
    eexists. split; [reflexivity|]. fields. repeat split; reflexivity.
  - rewrite command_action_error_cancelled by apply cancelled_contains.
    eexists. split; [reflexivity|]. fields. repeat split; reflexivity.
Qed.

(** ** The busy check *)

(** While a worker is running [run_emerge_command] shows the error dialog
    and does nothing else. *)
Lemma run_emerge_command_busy (command : list string)
    (on_finished : option FinishedCallback)
    (on_error : option ErrorCallback) (status_message : string)
    (use_pkexec : bool) (st : State) :
  busy st = true ->
  run_emerge_command command on_finished on_error status_message use_pkexec st
  = show_error
      "Another operation is already in progress. Please wait or cancel." st.
Proof.
  intros Hbusy. unfold run_emerge_command, Handlers.run_emerge_command.
  by rewrite Hbusy.
Qed.

(** While a worker is running [run_generic_task] does not start the command
    it is given: it prints a warning and calls the error callback with the
    task conflict. *)
Lemma run_generic_task_busy (command : list string) (parser_func : Parser)
    (on_result : ResultSlot) (on_finished : FinishedSlot)
    (on_error : ErrorSlot) (status_message : string) (cb_arg : CallbackArg)
    (st : State) :
  busy st = true ->
  run_generic_task command parser_func on_result on_finished on_error
    status_message cb_arg st
  = (call (Print ("Warning: Tried to start task '" +:+ join " " command
                  +:+ "' while another was running."));;
     call_error_slot on_error
       "Internal Error: Task conflict during sequential load." cb_arg) st.
Proof.
  intros Hbusy. unfold run_generic_task, Handlers.run_generic_task.
  rewrite Hbusy. unfold seq, call, call_error_slot.
  apply (call_error_slot_independent (error_callback_at 0) error_callback).
Qed.


(** ** A missing command *)

Example launch_error_diagnostic :
  Worker.GenericWorker_run ["equery"; "list"; "--installed"; "*/*"]
    (Some (fun lines => inr (PLines (parse_equery_installed lines))))
    (Some LOAD_STEP_AVAILABLE) Worker.missing_executable
  = Worker.returns
      [sig_error
         "Error: Command 'equery' not found. Is it installed and in PATH?"
         (Some LOAD_STEP_AVAILABLE)].
Proof. vm_compute. reflexivity. Qed.

(** Claim C5 at the first load step whose executable is missing: the
    diagnostic of the worker, with the name of the command between
    [Command] and [not found], does not hold the text [Command not found]
    that [_generic_error] looks for; no dialog is shown and the next step
    is started. *)
Theorem launch_error_does_not_abort :
  contains "Command not found"
    "Error: Command 'equery' not found. Is it installed and in PATH?" = false
  /\ exists st',
       run_sequence
         [Fails
            "Error: Command 'equery' not found. Is it installed and in PATH?"]
         loading_installed = Ok st'
       /\ dialogs st' = dialogs loading_installed
       /\ commands st'
          = [["equery"; "list"; "--installed"; "*/*"];
             ["eix"; "-c"; "--only-names"; "*/*"]]
       /\ current_worker st' = Some 1%nat
       /\ progress_bar_visible st' = Some true.
Proof.
  split; [vm_compute; reflexivity|]. eexists.
  split; [vm_compute; reflexivity|].
  split; [vm_compute; reflexivity|].
  split; [vm_compute; reflexivity|]. split; reflexivity.
Qed.

(** ** The loading chain *)

Lemma complete_worker_success (id : nat) (w : WorkerObj)
    (parser_func : Parser) (on_result : ResultSlot) (data : Payload)
    (st st_result st_finished : State) :
  current_worker st = Some id ->
  workers st !! id = Some w ->
  worker_class w = GenericWorker parser_func on_result ->
  call_result_slot on_result data st = Ok st_result ->
  workers st_result = workers st ->
  call_finished_slot (finished_slot w) (callback_arg w) st_result
  = Ok st_finished ->
  complete_worker (Succeeds data) st = thread_exit id st_finished.
Proof.
  intros Hcur Hw Hclass Hresult Hsame Hfinished.
  unfold complete_worker. rewrite Hcur, Hw.
  cbn [signals_of deliver_all]. unfold seq, skip.
  unfold deliver at 1. rewrite Hw, Hclass, Hresult.
  unfold deliver. by rewrite Hsame, Hw, Hfinished.
Qed.


Lemma on_installed_result_unfold (packages : list string) (st : State) :
  Handlers.on_installed_result packages st
  = Ok {| workers := workers st;
          current_worker := current_worker st;
          installed_packages := packages;
          all_available_package_atoms := all_available_package_atoms st;
          update_list_atoms := update_list_atoms st;
          update_list_display := update_list_display st;
          ui := [Refilter installed_package_list;
                 SetTabText installed_tab_index
                   ("Installed Packages (" +:+ str_of_nat (length packages)
                    +:+ ")")]
                ++ (if bool_decide (0 < length packages)%nat
                    then [ShowMessage (str_of_nat (length packages)
                                       +:+ " installed packages loaded.") 3000;
                          ListAddItems installed_package_list packages]
                    else [ShowMessage "No installed packages found." 3000;
                          ListAddItem installed_package_list
                            "No installed packages found (check equery?)."])
                ++ [ListClear installed_package_list] ++ ui st |}.
Proof.
  unfold Handlers.on_installed_result, seq, call, set_installed_packages.
  by destruct (bool_decide (0 < length packages)%nat).
Qed.

Lemma on_load_available_result_unfold (packages : list string) (st : State) :
  Handlers.on_load_available_result packages st
  = Ok {| workers := workers st;
          current_worker := current_worker st;
          installed_packages := installed_packages st;
          all_available_package_atoms := packages;
          update_list_atoms := update_list_atoms st;
          update_list_display := update_list_display st;
          ui := [Refilter browse_package_list;
                 SetTabText browse_tab_index
                   ("Browse Packages (" +:+ str_of_nat (length packages)
                    +:+ ")")]
                ++ (if bool_decide (0 < length packages)%nat
                    then [ShowMessage ("Loaded "
                                       +:+ str_of_nat (length packages)
                                       +:+ " available packages.") 3000;
                          ListAddItems browse_package_list packages]
                    else [ShowMessage "No available packages found." 3000;
                          ListAddItem browse_package_list
                            "No available packages found (check eix?)."])
                ++ [ListClear browse_package_list] ++ ui st |}.
Proof.
  unfold Handlers.on_load_available_result, seq, call,
    set_all_available_package_atoms.
  by destruct (bool_decide (0 < length packages)%nat).
Qed.

Lemma on_updates_result_unfold (atoms display : list string) (st : State) :
  Handlers.on_updates_result atoms display st
  = Ok {| workers := workers st;
          current_worker := current_worker st;
          installed_packages := installed_packages st;
          all_available_package_atoms := all_available_package_atoms st;
          update_list_atoms := atoms;
          update_list_display := display;
          ui := [SetTabText update_tab_index
                   ("Updates (" +:+ str_of_nat (length atoms) +:+ ")")]
                ++ (if bool_decide (length atoms = 0)%nat
                    then [ShowMessage "System is up to date." 3000;
                          ListAddItem update_package_list
                            "No updates available."]
                    else [ShowMessage (str_of_nat (length atoms)
                                       +:+ " updates available.") 3000;
                          ListAddItems update_package_list display])
                ++ [ListClear update_package_list] ++ ui st |}.
Proof.
  unfold Handlers.on_updates_result, seq, call, set_update_lists.
  by destruct (bool_decide (length atoms = 0)%nat).
Qed.








(** ** The results of a generic worker, as the window receives them *)

Lemma append_nonempty (a b : string) :
  a <> EmptyString -> a +:+ b <> EmptyString.
Proof. by destruct a. Qed.

(** A run of the generic worker that returns ends with a result followed by
    [finished], or with one [error] whose diagnostic is not empty. *)
Lemma generic_run_outcome (command : list string)
    (parser_func : option (list string -> string + Payload))
    (cb_arg : CallbackArg) (p : Worker.Process) :
  Worker.ending (Worker.GenericWorker_run command parser_func cb_arg p)
  = Worker.Returned ->
  exists o,
    Worker.emitted (Worker.GenericWorker_run command parser_func cb_arg p)
    = signals_of cb_arg o
    /\ (forall error_msg, o = Fails error_msg -> error_msg <> EmptyString).
Proof.
  unfold Worker.GenericWorker_run.
  destruct (Worker.launch p) as [| |e].
  - destruct (Worker.read_loop p 0 (Worker.stdout p)) as [passed broke].
    unfold Worker.after_stdout.
    destruct (negb broke && negb (Worker.stdout_eof p)); [done|].
    destruct (negb (Worker.running p _)).
    { intros _. exists (Fails Worker.msg_cancelled). split; [done|].
      by intros ? [= <-]. }
    destruct (Worker.stderr p) as [stderr_output|]; [|done].
    destruct (Worker.wait p) as [returncode|].
    + destruct (negb (returncode =? 0)).
      { intros _. eexists (Fails _). split; [reflexivity|].
        intros ? [= <-]. by apply append_nonempty. }
      destruct parser_func as [parse|].
      * destruct (parse _) as [e|parsed].
        -- intros _. eexists (Fails _). split; [reflexivity|].
           intros ? [= <-]. by apply append_nonempty.
        -- intros _. by exists (Succeeds parsed).
      * intros _. by eexists (Succeeds _).
    + intros _. exists (Fails Worker.msg_timeout). split; [done|].
      by intros ? [= <-].
  - destruct command as [|c command]; [done|].
    intros _. eexists (Fails _). split; [reflexivity|].
    intros ? [= <-]. by apply append_nonempty.
  - intros _. eexists (Fails _). split; [reflexivity|].
    intros ? [= <-]. by apply append_nonempty.
Qed.

(** ** More on the parsers *)

Lemma drop_space_fixed (m : bool) (s : string) :
  head_space m s = false -> drop_space m s = s.
Proof.
  destruct s as [|a [|b [|c r]]]; simpl; [done|..];
    destruct (space1 a); simpl; try done;
    destruct (if m then space2 b a else space2 a b); simpl; try done;
    by destruct (if m then space3 c b a else space3 a b c).
Qed.

Lemma drop_space_head (m : bool) (s : string) :
  head_space m (drop_space m s) = false.
Proof.
  remember (String.length s) as n eqn:Hn.
  revert s Hn. induction (lt_wf n) as [n _ IH]. intros s ->.
  destruct s as [|a r]; [done|].
  cbn [drop_space]. destruct (space1 a) eqn:H1.
  { eapply IH; [|reflexivity]. simpl. lia. }
  destruct r as [|b r'].
  { simpl. by rewrite H1. }
  destruct (if m then space2 b a else space2 a b) eqn:H2.
  { eapply IH; [|reflexivity]. simpl. lia. }
  destruct r' as [|c r''].
  { simpl. by rewrite H1, H2. }
  destruct (if m then space3 c b a else space3 a b c) eqn:H3.
  { eapply IH; [|reflexivity]. simpl. lia. }
  simpl. by rewrite H1, H2, H3.
Qed.

Lemma append_cons (a : ascii) (s t : string) :
  String a s +:+ t = String a (s +:+ t).
Proof. reflexivity. Qed.

Lemma drop_space_suffix (m : bool) (s : string) :
  exists dropped, s = dropped +:+ drop_space m s.
Proof.
  remember (String.length s) as n eqn:Hn.
  revert s Hn. induction (lt_wf n) as [n _ IH]. intros s ->.
  destruct s as [|a r]; [by exists EmptyString|].
  cbn [drop_space]. destruct (space1 a).
  { destruct (IH (String.length r)) with (s := r) as [d Hd];
      [simpl; lia | done |].
    exists (String a d). by rewrite append_cons, <- Hd. }
  destruct r as [|b r']; [by exists EmptyString|].
  destruct (if m then space2 b a else space2 a b).
  { destruct (IH (String.length r')) with (s := r') as [d Hd];
      [simpl; lia | done |].
    exists (String a (String b d)). by rewrite !append_cons, <- Hd. }
  destruct r' as [|c r'']; [by exists EmptyString|].
  destruct (if m then space3 c b a else space3 a b c).
  { destruct (IH (String.length r'')) with (s := r'') as [d Hd];
      [simpl; lia | done |].
    exists (String a (String b (String c d))).
    by rewrite !append_cons, <- Hd. }
  by exists EmptyString.
Qed.

Lemma head_space_prefix (u v : string) :
  head_space false u = true -> head_space false (u +:+ v) = true.
Proof.
  destruct u as [|a [|b [|c r]]]; rewrite ?append_cons; simpl; [done|..].
  - rewrite orb_false_r. by intros ->.
  - rewrite orb_false_r. intros H. destruct (space1 a); [done|]. simpl in *.
    by rewrite H.
  - done.
Qed.

Lemma append_nil_r (s : string) : s +:+ "" = s.
Proof. induction s; rewrite ?append_cons; by f_equal. Qed.

Lemma append_assoc (a b c : string) : (a +:+ b) +:+ c = a +:+ b +:+ c.
Proof. induction a; rewrite ?append_cons; by f_equal. Qed.

Lemma rev_app_spec (s acc : string) :
  String.rev_app s acc = String.rev s +:+ acc.
Proof.
  unfold String.rev. revert acc.
  induction s as [|a s IH]; intros acc; simpl; [done|].
  rewrite (IH (String a acc)), (IH (String a "")).
  by rewrite append_assoc.
Qed.

Lemma rev_cons (a : ascii) (s : string) :
  String.rev (String a s) = String.rev s +:+ String a "".
Proof. unfold String.rev at 1. simpl. apply rev_app_spec. Qed.

Lemma rev_append (a b : string) :
  String.rev (a +:+ b) = String.rev b +:+ String.rev a.
Proof.
  induction a as [|c a IH]; rewrite ?append_cons.
  - by rewrite append_nil_r.
  - by rewrite !rev_cons, IH, append_assoc.
Qed.

Lemma rev_involutive (s : string) : String.rev (String.rev s) = s.
Proof.
  induction s as [|a s IH]; [done|].
  by rewrite rev_cons, rev_append, IH.
Qed.

(** [strip] leaves what it returns unchanged. *)
Lemma strip_idempotent (s : string) : strip (strip s) = strip s.
Proof.
  unfold strip, rstrip, lstrip.
  set (t := drop_space false s).
  set (u := String.rev (drop_space true (String.rev t))).
  assert (Ht : head_space false t = false) by apply drop_space_head.
  assert (Hu : head_space false u = false).
  { destruct (drop_space_suffix true (String.rev t)) as [d Hd].
    assert (Hprefix : t = u +:+ String.rev d).
    { rewrite <- (rev_involutive t), Hd, rev_append. done. }
    destruct (head_space false u) eqn:H; [|done].
    apply (head_space_prefix u (String.rev d)) in H.
    rewrite <- Hprefix in H. congruence. }
  rewrite (drop_space_fixed false u Hu). unfold u.
  rewrite rev_involutive.
  by rewrite (drop_space_fixed true _ (drop_space_head true _)).
Qed.

(** Claim C9: [parse_eix_output] is called by [GenericWorker.run] only, on
    the lines of the output of [eix] after [strip].  For every list of
    lines without surrounding whitespace, so for every list the worker
    hands over, it returns the sorted, duplicate-free list of the lines
    that contain a slash (for any other list, of their stripped texts); the
    result is the same for every permutation of the input and for every
    order in which the set is enumerated, and the two lines of the example
    come out in alphabetical order. *)
Theorem parse_eix_output_sorted_dedup (lines : list string) :
  StronglySorted String.le (parse_eix_output lines)
  /\ NoDup (parse_eix_output lines)
  /\ (forall x, x ∈ parse_eix_output lines
                <-> exists line, line ∈ lines /\ contains "/" line = true
                                 /\ x = strip line)
  /\ (Forall (fun line => strip line = line) lines ->
      forall x, x ∈ parse_eix_output lines
                <-> x ∈ lines /\ contains "/" x = true)
  /\ (forall lines', lines' ≡ₚ lines ->
                     parse_eix_output lines' = parse_eix_output lines)
  /\ (forall enumeration : list string,
        NoDup enumeration ->
        (forall x, x ∈ enumeration
                   <-> exists line, line ∈ lines /\ contains "/" line = true
                                    /\ x = strip line) ->
        sorted enumeration = parse_eix_output lines)
  /\ (forall (raw : list string) (x : string),
        x ∈ parse_eix_output (strip <$> raw)
        <-> x ∈ strip <$> raw /\ contains "/" x = true)
  /\ parse_eix_output ["app-misc/foo-1.0"; "app-misc/bar-2.1"]
     = ["app-misc/bar-2.1"; "app-misc/foo-1.0"]
  /\ parse_eix_output ["app-misc/bar-2.1"; "app-misc/foo-1.0"]
     = ["app-misc/bar-2.1"; "app-misc/foo-1.0"].
Proof.
  assert (Hsorted : StronglySorted String.le (parse_eix_output lines)).
  { unfold parse_eix_output, sorted.
    apply StronglySorted_merge_sort; apply _. }
  assert (Hnodup : NoDup (parse_eix_output lines)).
  { unfold parse_eix_output, sorted.
    rewrite merge_sort_Permutation. apply NoDup_elements. }
  assert (Hmem : forall lines x, x ∈ parse_eix_output lines
                 <-> exists line, line ∈ lines /\ contains "/" line = true
                                  /\ x = strip line).
  { clear. intros lines x. rewrite parse_eix_output_set. unfold sorted.
    rewrite merge_sort_Permutation, elem_of_elements, elem_of_list_to_set,
      list_elem_of_fmap.
    split.
    - intros (line & -> & Hline). apply list_elem_of_filter in Hline.
      destruct Hline as [Hp Hin]. exists line.
      apply Is_true_true, andb_true_iff in Hp. by destruct Hp.
    - intros (line & Hin & Hslash & ->). exists line. split; [done|].
      apply list_elem_of_filter. split; [|done].
      apply Is_true_true. by rewrite Hslash, (slash_nonempty _ Hslash). }
  assert (Hstripped : forall lines,
            Forall (fun line => strip line = line) lines ->
            forall x, x ∈ parse_eix_output lines
                      <-> x ∈ lines /\ contains "/" x = true).
  { clear -Hmem. intros lines Hstripped x. rewrite Forall_forall in Hstripped.
    rewrite Hmem. split.
    - intros (line & Hin & Hslash & ->). by rewrite (Hstripped _ Hin).
    - intros [Hin Hslash]. exists x. by rewrite (Hstripped _ Hin). }
  split; [done|]. split; [done|]. split; [apply Hmem|].
  split; [apply Hstripped|].
  split.
  { intros lines' Hperm. rewrite !parse_eix_output_set.
    do 2 f_equal. apply list_to_set_perm_L. by rewrite Hperm. }
  split.
  { intros enumeration Henum Hsame.
    apply (StronglySorted_unique String.le); [| done |].
    - apply StronglySorted_merge_sort; apply _.
    - unfold sorted at 1. rewrite merge_sort_Permutation.
      apply NoDup_Permutation; [done..|].
      intros x. by rewrite Hsame, Hmem. }
  split.
  { intros raw. apply Hstripped. apply Forall_fmap, Forall_forall.
    intros line _. apply strip_idempotent. }
  split; vm_compute; reflexivity.
Qed.

Lemma parse_eix_output_sorted_dedup_witness :
  parse_eix_output ["app-misc/foo-1.0"; "app-misc/bar-2.1"; "app-misc/foo-1.0"]
  = parse_eix_output ["app-misc/bar-2.1"; "app-misc/foo-1.0";
                      "app-misc/foo-1.0"].
Proof.
  destruct (parse_eix_output_sorted_dedup
              ["app-misc/bar-2.1"; "app-misc/foo-1.0"; "app-misc/foo-1.0"])
    as (_ & _ & _ & _ & Hperm & _).
  apply Hperm. apply perm_swap.
Defined.

Lemma contains_slash_cons (a : ascii) (r : string) :
  contains "/" (String a r)
  = (if ascii_dec "/" a then true else false) || contains "/" r.
Proof. cbn [contains String.prefix]. by destruct (ascii_dec "/" a), r. Qed.

Lemma contains_slash_append (a b : string) :
  contains "/" (a +:+ b) = contains "/" a || contains "/" b.
Proof.
  induction a as [|c a IH].
  - by destruct b.
  - by rewrite append_cons, !contains_slash_cons, IH, orb_assoc.
Qed.

Lemma contains_slash_rev (s : string) :
  contains "/" (String.rev s) = contains "/" s.
Proof.
  induction s as [|c s IH]; [done|].
  rewrite rev_cons, contains_slash_append, IH, !contains_slash_cons.
  simpl. by rewrite orb_false_r, orb_comm.
Qed.

(** No byte of a whitespace character is a slash. *)
Lemma space1_not_slash (a : ascii) :
  space1 a = true -> (if ascii_dec "/" a then true else false) = false.
Proof. destruct (ascii_dec "/" a) as [<-|]; [by vm_compute | done]. Qed.

Lemma is_byte_not_slash (n : N) (a : ascii) :
  (128 <= n)%N -> is_byte n a = true ->
  (if ascii_dec "/" a then true else false) = false.
Proof.
  intros Hn Hbyte. destruct (ascii_dec "/" a) as [<-|]; [|done].
  unfold is_byte in Hbyte. apply N.eqb_eq in Hbyte.
  change (code "/") with 47%N in Hbyte. lia.
Qed.

Lemma space2_not_slash (a b : ascii) :
  space2 a b = true ->
  (if ascii_dec "/" a then true else false) = false
  /\ (if ascii_dec "/" b then true else false) = false.
Proof.
  unfold space2. intros [Ha Hb]%andb_true_iff. split.
  - by apply (is_byte_not_slash 194).
  - apply orb_true_iff in Hb as [Hb|Hb];
      [by apply (is_byte_not_slash 133) | by apply (is_byte_not_slash 160)].
Qed.

Lemma between_not_slash (lo hi : N) (a : ascii) :
  (128 <= lo)%N -> between lo hi a = true ->
  (if ascii_dec "/" a then true else false) = false.
Proof.
  intros Hlo Hb. destruct (ascii_dec "/" a) as [<-|]; [|done].
  unfold between in Hb. apply andb_true_iff in Hb as [Hb _].
  apply N.leb_le in Hb. change (code "/") with 47%N in Hb. lia.
Qed.

Lemma space3_not_slash (a b c : ascii) :
  space3 a b c = true ->
  (if ascii_dec "/" a then true else false) = false
  /\ (if ascii_dec "/" b then true else false) = false
  /\ (if ascii_dec "/" c then true else false) = false.
Proof.
  unfold space3. rewrite !orb_true_iff, !andb_true_iff, !orb_true_iff.
  intros [[[[[Ha Hb] Hc] | [[Ha Hb] Hc]] | [[Ha Hb] Hc]] | [[Ha Hb] Hc]].
  - split; [by apply (is_byte_not_slash 225)|].
    split; [by apply (is_byte_not_slash 154) | by apply (is_byte_not_slash 128)].
  - split; [by apply (is_byte_not_slash 226)|].
    split; [by apply (is_byte_not_slash 128)|].
    destruct Hc as [[[Hc|Hc]|Hc]|Hc];
      [by apply (between_not_slash 128 138) | by apply (is_byte_not_slash 168)
       | by apply (is_byte_not_slash 169) | by apply (is_byte_not_slash 175)].
  - split; [by apply (is_byte_not_slash 226)|].
    split; [by apply (is_byte_not_slash 129) | by apply (is_byte_not_slash 159)].
  - split; [by apply (is_byte_not_slash 227)|].
    split; by apply (is_byte_not_slash 128).
Qed.

Lemma contains_slash_drop_space (m : bool) (s : string) :
  contains "/" (drop_space m s) = contains "/" s.
Proof.
  remember (String.length s) as n eqn:Hn.
  revert s Hn. induction (lt_wf n) as [n _ IH]. intros s ->.
  destruct s as [|a r]; [done|].
  cbn [drop_space]. destruct (space1 a) eqn:H1.
  { rewrite (IH (String.length r)) by (simpl; lia || done).
    by rewrite contains_slash_cons, (space1_not_slash a H1). }
  destruct r as [|b r']; [done|].
  destruct (if m then space2 b a else space2 a b) eqn:H2.
  { rewrite (IH (String.length r')) by (simpl; lia || done).
    rewrite !contains_slash_cons.
    assert (Hab : (if ascii_dec "/" a then true else false) = false
                  /\ (if ascii_dec "/" b then true else false) = false).
    { destruct m; apply space2_not_slash in H2; tauto. }
    destruct Hab as [-> ->]. done. }
  destruct r' as [|c r'']; [done|].
  destruct (if m then space3 c b a else space3 a b c) eqn:H3; [|done].
  rewrite (IH (String.length r'')) by (simpl; lia || done).
  rewrite !contains_slash_cons.
  assert (Habc : (if ascii_dec "/" a then true else false) = false
                 /\ (if ascii_dec "/" b then true else false) = false
                 /\ (if ascii_dec "/" c then true else false) = false).
  { destruct m; apply space3_not_slash in H3; tauto. }
  destruct Habc as (-> & -> & ->). done.
Qed.

(** [strip] neither removes nor adds a slash. *)
Lemma strip_slash (s : string) : contains "/" (strip s) = contains "/" s.
Proof.
  unfold strip, rstrip, lstrip.
  by rewrite contains_slash_rev, contains_slash_drop_space,
    contains_slash_rev, contains_slash_drop_space.
Qed.

Lemma parse_eix_output_elem (lines : list string) (x : string) :
  x ∈ parse_eix_output lines
  <-> exists line, line ∈ lines /\ contains "/" line = true /\ x = strip line.
Proof.
  rewrite parse_eix_output_set. unfold sorted.
  rewrite merge_sort_Permutation, elem_of_elements, elem_of_list_to_set,
    list_elem_of_fmap.
  split.
  - intros (line & -> & Hline). apply list_elem_of_filter in Hline.
    destruct Hline as [Hp Hin]. exists line.
    apply Is_true_true, andb_true_iff in Hp. by destruct Hp.
  - intros (line & Hin & Hslash & ->). exists line. split; [done|].
    apply list_elem_of_filter. split; [|done].
    apply Is_true_true. by rewrite Hslash, (slash_nonempty _ Hslash).
Qed.

Lemma parse_eix_output_atoms (lines : list string) :
  Forall (fun x => strip x = x /\ contains "/" x = true)
         (parse_eix_output lines).
Proof.
  apply Forall_forall. intros x (line & _ & Hslash & ->)%parse_eix_output_elem.
  by rewrite strip_idempotent, strip_slash.
Qed.

Lemma parse_eix_output_sorted (lines : list string) :
  StronglySorted String.le (parse_eix_output lines)
  /\ NoDup (parse_eix_output lines).
Proof.
  unfold parse_eix_output, sorted. split.
  - apply StronglySorted_merge_sort; apply _.
  - rewrite merge_sort_Permutation. apply NoDup_elements.
Qed.

(** Every atom [parse_eix_output] returns holds a slash and carries no
    surrounding whitespace, and parsing its own result again returns it
    unchanged. *)
Theorem parse_eix_output_clean (lines : list string) :
  Forall (fun x => strip x = x /\ contains "/" x = true)
         (parse_eix_output lines)
  /\ parse_eix_output (parse_eix_output lines) = parse_eix_output lines.
Proof.
  pose proof (parse_eix_output_atoms lines) as Hclean.
  split; [done|].
  apply (StronglySorted_unique String.le).
  - unfold parse_eix_output, sorted.
    apply StronglySorted_merge_sort; apply _.
  - unfold parse_eix_output, sorted.
    apply StronglySorted_merge_sort; apply _.
  - apply NoDup_Permutation.
    + unfold parse_eix_output, sorted.
      rewrite merge_sort_Permutation. apply NoDup_elements.
    + unfold parse_eix_output, sorted.
      rewrite merge_sort_Permutation. apply NoDup_elements.
    + intros x. rewrite (parse_eix_output_elem (parse_eix_output lines)).
      rewrite Forall_forall in Hclean. split.
      * intros (y & Hy & _ & ->). by rewrite (proj1 (Hclean y Hy)).
      * intros Hx. exists x. destruct (Hclean x Hx) as [Hstrip Hslash].
        by rewrite Hstrip.
Qed.

(** [parse_equery_installed] returns, in sorted order, the stripped text of
    every line that is not empty, does not start with a bracket and holds a
    slash: once per occurrence (duplicates are kept, unlike in
    [parse_eix_output]) and whatever the order of the lines. *)
Theorem parse_equery_installed_sorted (lines : list string) :
  StronglySorted String.le (parse_equery_installed lines)
  /\ parse_equery_installed lines ≡ₚ strip <$> filter installed_line lines
  /\ length (parse_equery_installed lines)
     = length (filter installed_line lines)
  /\ Forall (fun x => strip x = x /\ contains "/" x = true)
            (parse_equery_installed lines)
  /\ (forall lines', lines' ≡ₚ lines ->
                     parse_equery_installed lines'
                     = parse_equery_installed lines).
Proof.
  assert (Hperm : parse_equery_installed lines
                  ≡ₚ strip <$> filter installed_line lines).
  { unfold parse_equery_installed, sorted. by rewrite merge_sort_Permutation. }
  split.
  { unfold parse_equery_installed, sorted.
    apply StronglySorted_merge_sort; apply _. }
  split; [done|]. split; [by rewrite Hperm, length_fmap|].
  split.
  { rewrite Hperm. apply Forall_fmap, Forall_forall.
    intros line [Hline _]%list_elem_of_filter. simpl.
    rewrite strip_idempotent, strip_slash. split; [done|].
    unfold installed_line in Hline.
    by apply Is_true_true, andb_true_iff in Hline as [_ ?]. }
  intros lines' Hlines. unfold parse_equery_installed.
  apply sorted_permutation. by rewrite Hlines.
Qed.

(** ** More on the worker threads *)

Lemma after_stdout_returned (p : Process) (cb : CallbackArg)
    (before : list Signal) (broke : bool) (reads : nat)
    (on_exit : Z -> string -> Run) :
  ending (after_stdout p cb before broke reads on_exit) = Returned ->
  emitted (after_stdout p cb before broke reads on_exit)
  = before ++ [sig_error msg_cancelled cb]
  \/ emitted (after_stdout p cb before broke reads on_exit)
     = before ++ [sig_error msg_timeout cb]
  \/ exists returncode stderr_output,
       ending (on_exit returncode stderr_output) = Returned
       /\ emitted (after_stdout p cb before broke reads on_exit)
          = before ++ emitted (on_exit returncode stderr_output).
Proof.
  unfold after_stdout.
  destruct (negb broke && negb (stdout_eof p)); [done|].
  destruct (negb (running p reads)); [by left|].
  destruct (stderr p) as [stderr_output|]; [|done].
  destruct (wait p) as [returncode|]; [|by right; left].
  intros Hend. right. right. by exists returncode, stderr_output.
Qed.

Lemma msg_cancelled_nonempty : msg_cancelled <> EmptyString.
Proof. done. Qed.

Lemma msg_timeout_nonempty : msg_timeout <> EmptyString.
Proof. done. Qed.

Lemma msg_failed_nonempty (returncode : Z) (command : list string)
    (stderr_output : string) :
  msg_failed returncode command stderr_output <> EmptyString.
Proof. by apply append_nonempty. Qed.

Lemma terminal_progress_all (lines : list string) :
  Forall (fun s => terminal s = false)
         ((fun line => sig_progress (strip line)) <$> lines).
Proof. apply Forall_fmap, Forall_forall. done. Qed.

(** A run of either worker that returns has emitted exactly one signal that
    ends the task, as its last signal and with the worker's callback
    argument; a result comes only right before [finished]. *)
Theorem returned_run_ends_with_one_terminal_signal
    (command_list : list string) (use_pkexec : bool)
    (parser_func : option (list string -> string + Payload))
    (callback_arg : CallbackArg) (p : Process) (r : Run) :
  r = CommandWorker_run command_list use_pkexec callback_arg p
  \/ r = GenericWorker_run command_list parser_func callback_arg p ->
  ending r = Returned ->
  exists before last,
    emitted r = before ++ [last]
    /\ ends_task callback_arg last
    /\ Forall (fun s => terminal s = false) before
    /\ (last = sig_finished callback_arg ->
        exists before' data, before = before' ++ [sig_result data])
    /\ (forall data, sig_result data ∈ before ->
                     last = sig_finished callback_arg).
Proof.
  assert (Herror : forall before error_msg,
    Forall (fun s => terminal s = false) before ->
    Forall (fun s => is_result s = false) before ->
    error_msg <> EmptyString ->
    exists before0 last,
      before ++ [sig_error error_msg callback_arg] = before0 ++ [last]
      /\ ends_task callback_arg last
      /\ Forall (fun s => terminal s = false) before0
      /\ (last = sig_finished callback_arg ->
          exists before' data, before0 = before' ++ [sig_result data])
      /\ (forall data, sig_result data ∈ before0 ->
                       last = sig_finished callback_arg)).
  { intros before error_msg Hterm Hres Hne.
    exists before, (sig_error error_msg callback_arg).
    split; [done|]. split; [right; by exists error_msg|].
    split; [done|]. split; [done|].
    intros data Hin. rewrite Forall_forall in Hres.
    by specialize (Hres _ Hin). }
  assert (Hfinished : forall before data,
    Forall (fun s => terminal s = false) before ->
    exists before0 last,
      before ++ [sig_result data; sig_finished callback_arg]
      = before0 ++ [last]
      /\ ends_task callback_arg last
      /\ Forall (fun s => terminal s = false) before0
      /\ (last = sig_finished callback_arg ->
          exists before' data, before0 = before' ++ [sig_result data])
      /\ (forall data, sig_result data ∈ before0 ->
                       last = sig_finished callback_arg)).
  { intros before data Hterm.
    exists (before ++ [sig_result data]), (sig_finished callback_arg).
    split; [by rewrite <- app_assoc|]. split; [by left|].
    split; [apply Forall_app; split; [done | by repeat constructor]|].
    split; [by eexists _, _ | done]. }
  assert (Hprogress : forall lines,
    Forall (fun s => is_result s = false)
           ((fun line => sig_progress (strip line)) <$> lines)).
  { intros lines. apply Forall_fmap, Forall_forall. done. }
  intros [-> | ->].
  - unfold CommandWorker_run.
    destruct (use_pkexec && negb (pkexec_found p)).
    { intros _. by apply (Herror []). }
    destruct (launch p) as [| |e].
    + destruct (read_loop p 0 (stdout p)) as [passed broke].
      intros Hend.
      destruct (after_stdout_returned _ _ _ _ _ _ Hend)
        as [-> | [-> | (returncode & stderr_output & Hexit & ->)]].
      * apply Herror;
          [apply terminal_progress_all | apply Hprogress
           | apply msg_cancelled_nonempty].
      * apply Herror;
          [apply terminal_progress_all | apply Hprogress
           | apply msg_timeout_nonempty].
      * destruct (negb (returncode =? 0)).
        -- apply Herror;
             [apply terminal_progress_all | apply Hprogress
              | apply msg_failed_nonempty].
        -- apply Hfinished, terminal_progress_all.
    + destruct command_list as [|c rest]; [done|].
      intros _. apply (Herror []); [done | done | by apply append_nonempty].
    + intros _. apply (Herror []); [done | done | by apply append_nonempty].
  - unfold GenericWorker_run.
    destruct (launch p) as [| |e].
    + destruct (read_loop p 0 (stdout p)) as [passed broke].
      intros Hend.
      destruct (after_stdout_returned _ _ _ _ _ _ Hend)
        as [-> | [-> | (returncode & stderr_output & Hexit & ->)]].
      * by apply (Herror []).
      * by apply (Herror []).
      * destruct (negb (returncode =? 0)).
        -- apply (Herror []); [done | done | apply msg_failed_nonempty].
        -- destruct parser_func as [parse|].
           ++ destruct (parse _) as [e|parsed].
              ** apply (Herror []); [done | done | by apply append_nonempty].
              ** by apply (Hfinished []).
           ++ by apply (Hfinished []).
    + destruct command_list as [|c rest]; [done|].
      intros _. apply (Herror []); [done | done | by apply append_nonempty].
    + intros _. apply (Herror []); [done | done | by apply append_nonempty].
Qed.

Lemma returned_run_ends_with_one_terminal_signal_witness :
  exists before last,
    emitted (CommandWorker_run ["emerge"; "--sync"] true None failing_process)
    = before ++ [last]
    /\ ends_task None last
    /\ Forall (fun s => terminal s = false) before
    /\ (last = sig_finished None ->
        exists before' data, before = before' ++ [sig_result data])
    /\ (forall data, sig_result data ∈ before -> last = sig_finished None).
Proof.
  apply (returned_run_ends_with_one_terminal_signal
           ["emerge"; "--sync"] true None None failing_process).
  - left. reflexivity.
  - vm_compute. reflexivity.
Defined.

(** What the reading loop has passed on when it ends, and what [_running]
    reads after it. *)
Lemma read_loop_spec (p : Process) :
  exists passed broke,
    read_loop p 0 (stdout p) = (passed, broke)
    /\ passed = take (default (length (stdout p)) (stop_after p)) (stdout p)
    /\ (broke = false -> passed = stdout p)
    /\ running p (length passed + (if broke then 1 else 0))
       = running p (length (stdout p))
    /\ (running p (length (stdout p)) = true -> broke = false).
Proof.
  destruct (stop_after p) as [n|] eqn:Hstop; simpl.
  - destruct (decide (n < length (stdout p))%nat) as [Hlt|Hge].
    + exists (take n (stdout p)), true.
      split; [by apply read_loop_stopped|]. split; [done|].
      split; [done|]. unfold running. rewrite Hstop, length_take.
      split; repeat case_bool_decide; (done || lia).
    + exists (stdout p), false. split.
      { apply read_loop_running. intros i Hi. unfold running. rewrite Hstop.
        case_bool_decide; [done | lia]. }
      split; [by rewrite take_ge by lia|]. split; [done|].
      by rewrite Nat.add_0_r.
  - exists (stdout p), false. split.
    { apply read_loop_running. intros i _. unfold running. by rewrite Hstop. }
    split; [by rewrite firstn_all|]. split; [done|].
    by rewrite Nat.add_0_r.
Qed.

Lemma progress_filter_progress (lines : list string) :
  filter (fun s => Is_true (is_progress s))
         ((fun line => sig_progress (strip line)) <$> lines)
  = (fun line => sig_progress (strip line)) <$> lines.
Proof.
  induction lines as [|line lines IH]; [done|].
  rewrite fmap_cons, filter_cons_True by done. by rewrite IH.
Qed.

Lemma finished_not_progress (cb : CallbackArg) (lines : list string) :
  sig_finished cb ∉ (fun line => sig_progress (strip line)) <$> lines.
Proof. by intros (line & [=] & _)%list_elem_of_fmap. Qed.

(** The progress signals of a command worker are the lines of the process
    output up to some point, in order and stripped: all of them when the
    command finishes, none past the line at which a stop is seen.  A generic
    worker emits no progress signal. *)
Theorem command_progress_is_output_prefix
    (command_list : list string) (use_pkexec : bool)
    (parser_func : option (list string -> string + Payload))
    (callback_arg : CallbackArg) (p : Process) :
  (exists k,
     filter (fun s => Is_true (is_progress s))
            (emitted (CommandWorker_run command_list use_pkexec callback_arg p))
     = (fun line => sig_progress (strip line)) <$> take k (stdout p)
     /\ (sig_finished callback_arg
           ∈ emitted (CommandWorker_run command_list use_pkexec callback_arg p)
         -> take k (stdout p) = stdout p)
     /\ (forall n, stop_after p = Some n -> (k <= n)%nat))
  /\ filter (fun s => Is_true (is_progress s))
            (emitted (GenericWorker_run command_list parser_func
                        callback_arg p))
     = [].
Proof.
  split.
  - unfold CommandWorker_run.
    destruct (use_pkexec && negb (pkexec_found p)).
    { exists 0%nat. split; [done|]. split; [|lia].
      by intros [=]%list_elem_of_singleton. }
    destruct (launch p) as [| |e].
    + destruct (read_loop_spec p)
        as (passed & broke & -> & Hpassed & Hall & Hrun & Hbroke).
      exists (default (length (stdout p)) (stop_after p)).
      rewrite <- Hpassed.
      assert (Hfilter : forall tail,
        filter (fun s => Is_true (is_progress s)) tail = [] ->
        filter (fun s => Is_true (is_progress s))
               (((fun line => sig_progress (strip line)) <$> passed) ++ tail)
        = (fun line => sig_progress (strip line)) <$> passed).
      { intros tail Htail.
        by rewrite filter_app, progress_filter_progress, Htail, app_nil_r. }
      split; [|split].
      * unfold after_stdout.
        destruct (negb broke && negb (stdout_eof p));
          [apply progress_filter_progress|].
        destruct (negb (running p _)); [by apply Hfilter|].
        destruct (stderr p) as [stderr_output|];
          [|apply progress_filter_progress].
        destruct (wait p) as [returncode|]; [|by apply Hfilter].
        destruct (negb (returncode =? 0)); by apply Hfilter.
      * unfold after_stdout. rewrite Hrun.
        destruct (negb broke && negb (stdout_eof p));
          [by intros ?%finished_not_progress|].
        destruct (running p (length (stdout p))) eqn:Hrunning.
        { intros _. by apply Hall, Hbroke. }
        simpl. intros [?%finished_not_progress | [=]%list_elem_of_singleton]
                 %elem_of_app. done.
      * intros n Hstop. rewrite Hstop. done.
    + exists 0%nat. split; [by destruct command_list|]. split; [|lia].
      destruct command_list; [by intros ?%elem_of_nil|].
      by intros [=]%list_elem_of_singleton.
    + exists 0%nat. split; [done|]. split; [|lia].
      by intros [=]%list_elem_of_singleton.
  - unfold GenericWorker_run.
    destruct (launch p) as [| |e]; [|by destruct command_list | done].
    destruct (read_loop p 0 (stdout p)) as [passed broke].
    unfold after_stdout.
    destruct (negb broke && negb (stdout_eof p)); [done|].
    destruct (negb (running p _)); [done|].
    destruct (stderr p) as [stderr_output|]; [|done].
    destruct (wait p) as [returncode|]; [|done].
    destruct (negb (returncode =? 0)); [done|].
    destruct parser_func as [parse|]; [|done].
    by destruct (parse _).
Qed.

(** The run of a process from its launch on, in the four ways it can go. *)
Lemma after_stdout_spec (p : Process) (cb : CallbackArg)
    (before : list Signal) (on_exit : Z -> string -> Run) :
  launch p = Spawned ->
  exists passed broke,
    read_loop p 0 (stdout p) = (passed, broke)
    /\ passed = take (default (length (stdout p)) (stop_after p)) (stdout p)
    /\ (broke = false -> passed = stdout p)
    /\ (running p (length (stdout p)) = true -> broke = false)
    /\ after_stdout p cb before broke
         (length passed + (if broke then 1 else 0)) on_exit
       = if negb broke && negb (stdout_eof p) then
           {| emitted := before; killed := false; ending := Blocked |}
         else if negb (running p (length (stdout p))) then
           returns (before ++ [sig_error msg_cancelled cb])
         else
           match stderr p with
           | None => {| emitted := before; killed := false;
                        ending := Blocked |}
           | Some stderr_output =>
               match wait p with
               | Expired =>
                   {| emitted := before ++ [sig_error msg_timeout cb];
                      killed := true; ending := Returned |}
               | Exited returncode =>
                   {| emitted :=
                        before ++ emitted (on_exit returncode stderr_output);
                      killed := killed (on_exit returncode stderr_output);
                      ending := ending (on_exit returncode stderr_output) |}
               end
           end.
Proof.
  intros _.
  destruct (read_loop_spec p)
    as (passed & broke & Hloop & Hpassed & Hall & Hrun & Hbroke).
  exists passed, broke. split; [done|]. split; [done|]. split; [done|].
  split; [done|]. unfold after_stdout. by rewrite Hrun.
Qed.

(** A command worker emits [finished] exactly when pkexec, if asked for,
    was found and the process exited cleanly; it has then passed on every
    line of the output, stripped and in order, followed by its result, and
    has not killed the process. *)
Theorem command_finishes_exactly_on_clean_exit
    (command_list : list string) (use_pkexec : bool)
    (callback_arg : CallbackArg) (p : Process) :
  let r := CommandWorker_run command_list use_pkexec callback_arg p in
  (sig_finished callback_arg ∈ emitted r
   <-> (use_pkexec = true -> pkexec_found p = true) /\ clean_exit p)
  /\ (sig_finished callback_arg ∈ emitted r ->
      emitted r
      = ((fun line => sig_progress (strip line)) <$> stdout p)
        ++ [sig_result (PText "Command finished successfully.");
            sig_finished callback_arg]
      /\ killed r = false /\ ending r = Returned).
Proof.
  intros r.
  assert (Hforward :
    sig_finished callback_arg ∈ emitted r ->
    ((use_pkexec = true -> pkexec_found p = true) /\ clean_exit p)
    /\ emitted r
       = ((fun line => sig_progress (strip line)) <$> stdout p)
         ++ [sig_result (PText "Command finished successfully.");
             sig_finished callback_arg]
    /\ killed r = false /\ ending r = Returned).
  { unfold r, CommandWorker_run, clean_exit.
    destruct (use_pkexec && negb (pkexec_found p)) eqn:Hpk.
    { by intros [=]%list_elem_of_singleton. }
    assert (Hfound : use_pkexec = true -> pkexec_found p = true).
    { intros ->. by destruct (pkexec_found p). }
    destruct (launch p) as [| |e] eqn:Hlaunch.
    - destruct (after_stdout_spec p callback_arg
                  ((fun line => sig_progress (strip line))
                     <$> take (default (length (stdout p)) (stop_after p))
                              (stdout p))
                  (fun returncode stderr_output =>
                     if negb (returncode =? 0) then
                       returns [sig_error
                                  (msg_failed returncode
                                     (if use_pkexec
                                      then ["pkexec"; "--disable-internal-agent"]
                                           ++ command_list
                                      else command_list) stderr_output)
                                  callback_arg]
                     else
                       returns [sig_result
                                  (PText "Command finished successfully.");
                                sig_finished callback_arg]) Hlaunch)
        as (passed & broke & -> & -> & Hall & Hbroke & ->).
      destruct (negb broke && negb (stdout_eof p)) eqn:Heof;
        [by intros ?%finished_not_progress|].
      destruct (running p (length (stdout p))) eqn:Hrunning; simpl.
      2:{ by intros [?%finished_not_progress | [=]%list_elem_of_singleton]
               %elem_of_app. }
      specialize (Hbroke eq_refl). subst broke. specialize (Hall eq_refl).
      destruct (stdout_eof p); [|done].
      destruct (stderr p) as [stderr_output|];
        [|by intros ?%finished_not_progress].
      destruct (wait p) as [returncode|]; simpl.
      2:{ by intros [?%finished_not_progress | [=]%list_elem_of_singleton]
               %elem_of_app. }
      destruct (Z.eqb_spec returncode 0) as [->|Hcode]; simpl.
      2:{ by intros [?%finished_not_progress | [=]%list_elem_of_singleton]
               %elem_of_app. }
      intros _. rewrite Hall. by repeat split.
    - destruct command_list; [by intros ?%elem_of_nil|].
      by intros [=]%list_elem_of_singleton.
    - by intros [=]%list_elem_of_singleton. }
  split; [split|]; [apply Hforward | | apply Hforward].
  intros (Hfound & Hlaunch & Heof & Hrunning & [stderr_output Hstderr] & Hwait).
  unfold r, CommandWorker_run.
  assert (use_pkexec && negb (pkexec_found p) = false) as ->.
  { destruct use_pkexec; [|done]. by rewrite Hfound. }
  rewrite Hlaunch.
  destruct (after_stdout_spec p callback_arg
              ((fun line => sig_progress (strip line))
                 <$> take (default (length (stdout p)) (stop_after p))
                          (stdout p))
              (fun returncode stderr_output =>
                 if negb (returncode =? 0) then
                   returns [sig_error
                              (msg_failed returncode
                                 (if use_pkexec
                                  then ["pkexec"; "--disable-internal-agent"]
                                       ++ command_list
                                  else command_list) stderr_output)
                              callback_arg]
                 else
                   returns [sig_result
                              (PText "Command finished successfully.");
                            sig_finished callback_arg]) Hlaunch)
    as (passed & broke & -> & -> & Hall & Hbroke & ->).
  rewrite Hrunning, Heof, Hstderr, Hwait, andb_false_r. simpl.
  apply elem_of_app. right. apply list_elem_of_further, list_elem_of_here.
Qed.

(** A generic worker emits a result exactly when the process exited cleanly
    and the parser, if there is one, returned: the result is what the parser
    makes of the stripped lines of the whole output, or these lines
    themselves, and [finished] follows it.  [finished] is never emitted
    without a result before it. *)
Theorem generic_result_is_parsed_output
    (command_list : list string)
    (parser_func : option (list string -> string + Payload))
    (callback_arg : CallbackArg) (p : Process) :
  let r := GenericWorker_run command_list parser_func callback_arg p in
  let stdout_lines := strip <$> stdout p in
  (forall data,
     sig_result data ∈ emitted r
     <-> clean_exit p
         /\ match parser_func with
            | None => data = PLines stdout_lines
            | Some parse => parse stdout_lines = inr data
            end)
  /\ (forall data,
        sig_result data ∈ emitted r ->
        emitted r = [sig_result data; sig_finished callback_arg]
        /\ killed r = false /\ ending r = Returned)
  /\ (sig_finished callback_arg ∈ emitted r ->
      exists data, sig_result data ∈ emitted r).
Proof.
  intros r stdout_lines.
  set (on_exit := fun (lines : list string) (returncode : Z)
                      (stderr_output : string) =>
    if negb (returncode =? 0) then
      returns [sig_error (msg_failed returncode command_list stderr_output)
                 callback_arg]
    else
      match parser_func with
      | None => returns [sig_result (PLines lines);
                         sig_finished callback_arg]
      | Some parse =>
          match parse lines with
          | inl e =>
              returns [sig_error
                         ("Error parsing command output: " +:+ e
                          +:+ Worker.nl +:+ "Output:" +:+ Worker.nl
                          +:+ join " " (take 10 lines) +:+ "...")
                         callback_arg]
          | inr parsed_result =>
              returns [sig_result parsed_result; sig_finished callback_arg]
          end
      end).
  assert (Hcases :
    (clean_exit p /\ emitted r = emitted (on_exit stdout_lines 0 EmptyString)
     /\ killed r = false /\ ending r = Returned
     /\ (forall e, on_exit stdout_lines 0 e
                   = on_exit stdout_lines 0 EmptyString))
    \/ (~ clean_exit p
        /\ (emitted r = [] \/ exists error_msg,
              emitted r = [sig_error error_msg callback_arg]))).
  { unfold r, GenericWorker_run, clean_exit.
    destruct (launch p) as [| |e] eqn:Hlaunch.
    - destruct (after_stdout_spec p callback_arg [] (on_exit
                  (strip <$> take (default (length (stdout p)) (stop_after p))
                                  (stdout p))) Hlaunch)
        as (passed & broke & -> & -> & Hall & Hbroke & Hafter).
      unfold on_exit in Hafter at 1. rewrite Hafter. clear Hafter.
      destruct (running p (length (stdout p))) eqn:Hrunning; simpl.
      2:{ right. split; [by intros (_ & _ & [=] & _)|].
          destruct (negb broke && negb (stdout_eof p)); [by left|].
          right. by eexists. }
      specialize (Hbroke eq_refl). subst broke. specialize (Hall eq_refl).
      destruct (stdout_eof p); simpl.
      2:{ right. split; [by intros (_ & [=] & _) | by left]. }
      destruct (stderr p) as [stderr_output|].
      2:{ right. split; [by intros (_ & _ & _ & [? [=]] & _) | by left]. }
      destruct (wait p) as [returncode|]; simpl.
      2:{ right. split; [by intros (_ & _ & _ & _ & [=])|].
          right. by eexists. }
      destruct (Z.eqb_spec returncode 0) as [->|Hcode].
      2:{ right. split; [intros (_ & _ & _ & _ & [=]); congruence|].
          right. unfold on_exit.
          destruct (Z.eqb_spec returncode 0); [done|]. by eexists. }
      left. split; [by repeat split|]. rewrite Hall.
      split; [done|]. split; [unfold on_exit; simpl|].
      { destruct parser_func as [parse|]; [|done]. by destruct (parse _). }
      split; [unfold on_exit; simpl|done].
      destruct parser_func as [parse|]; [|done]. by destruct (parse _).
    - right. split; [by intros ([=] & _)|].
      destruct command_list; [by left | right; by eexists].
    - right. split; [by intros ([=] & _)|]. right. by eexists. }
  assert (Hexit : forall data,
    sig_result data ∈ emitted (on_exit stdout_lines 0 EmptyString)
    <-> match parser_func with
        | None => data = PLines stdout_lines
        | Some parse => parse stdout_lines = inr data
        end).
  { intros data. unfold on_exit. simpl.
    destruct parser_func as [parse|].
    - destruct (parse stdout_lines) as [e|parsed]; simpl.
      + rewrite list_elem_of_singleton. split; [done|discriminate].
      + rewrite elem_of_cons, list_elem_of_singleton.
        split; [intros [[= ->]|[=]]; done | intros [= ->]; by left].
    - simpl. rewrite elem_of_cons, list_elem_of_singleton.
      split; [intros [[= ->]|[=]]; done | intros ->; by left]. }
  assert (Hshape : forall data,
    sig_result data ∈ emitted (on_exit stdout_lines 0 EmptyString) ->
    emitted (on_exit stdout_lines 0 EmptyString)
    = [sig_result data; sig_finished callback_arg]).
  { intros data. unfold on_exit. simpl.
    destruct parser_func as [parse|].
    - destruct (parse stdout_lines) as [e|parsed]; simpl.
      + by intros [=]%list_elem_of_singleton.
      + by intros [[= ->]|[=]%list_elem_of_singleton]%elem_of_cons.
    - simpl. by intros [[= ->]|[=]%list_elem_of_singleton]%elem_of_cons. }
  assert (Hfinished :
    sig_finished callback_arg
      ∈ emitted (on_exit stdout_lines 0 EmptyString) ->
    exists data,
      sig_result data ∈ emitted (on_exit stdout_lines 0 EmptyString)).
  { unfold on_exit. simpl. destruct parser_func as [parse|].
    - destruct (parse stdout_lines) as [e|parsed]; simpl.
      + by intros [=]%list_elem_of_singleton.
      + intros _. exists parsed. by left.
    - intros _. eexists. by left. }
  destruct Hcases as [(Hclean & Hemitted & Hkilled & Hending & _)
                     | (Hnot & Hemitted)].
  - rewrite Hemitted. split; [|split].
    + intros data. rewrite Hexit. by split; [|intros [_ ?]].
    + intros data Hin. by rewrite (Hshape _ Hin).
    + done.
  - assert (Hnone : forall s, terminal s = false \/ s = sig_finished callback_arg
                              -> s ∉ emitted r).
    { intros s Hs. destruct Hemitted as [-> | [error_msg ->]].
      - apply not_elem_of_nil.
      - intros ->%list_elem_of_singleton. by destruct Hs. }
    split; [|split].
    + intros data. split; [|by intros [? _]].
      intros Hin. by destruct (Hnone (sig_result data) (or_introl eq_refl)).
    + intros data Hin.
      by destruct (Hnone (sig_result data) (or_introl eq_refl)).
    + intros Hin.
      by destruct (Hnone (sig_finished callback_arg) (or_intror eq_refl)).
Qed.

Lemma read_loop_broke (p : Process) (passed : list string) (broke : bool) :
  read_loop p 0 (stdout p) = (passed, broke) ->
  broke = false
  <-> forall n, stop_after p = Some n -> (length (stdout p) <= n)%nat.
Proof.
  intros Hloop. destruct (stop_after p) as [n|] eqn:Hstop.
  - destruct (decide (n < length (stdout p))%nat) as [Hlt|Hge].
    + rewrite (read_loop_stopped p n) in Hloop by done.
      injection Hloop as _ <-. split; [done|].
      intros H. specialize (H n eq_refl). lia.
    + rewrite read_loop_running in Hloop.
      * injection Hloop as _ <-. split; [|done].
        intros _ m [= <-]. lia.
      * intros i Hi. unfold running. rewrite Hstop.
        case_bool_decide; [done | lia].
  - rewrite read_loop_running in Hloop.
    + injection Hloop as _ <-. by split.
    + intros i _. unfold running. by rewrite Hstop.
Qed.

(** How a run goes once the process is launched: [on_exit] never kills and
    always returns. *)
Lemma spawned_run_ending (p : Process) (cb : CallbackArg)
    (before : list Signal) (on_exit : Z -> string -> Run) :
  launch p = Spawned ->
  (forall returncode stderr_output,
     killed (on_exit returncode stderr_output) = false
     /\ ending (on_exit returncode stderr_output) = Returned) ->
  exists passed broke,
    read_loop p 0 (stdout p) = (passed, broke)
    /\ let r := after_stdout p cb before broke
                  (length passed + (if broke then 1 else 0)) on_exit in
       (killed r = true <-> timed_out p)
       /\ (killed r = true ->
           ending r = Returned
           /\ emitted r = before ++ [sig_error msg_timeout cb])
       /\ (ending r = Blocked <-> never_closes p)
       /\ (ending r = Blocked -> emitted r = before /\ killed r = false).
Proof.
  intros Hlaunch Hexit.
  destruct (after_stdout_spec p cb before on_exit Hlaunch)
    as (passed & broke & Hloop & _ & _ & Hbroke & Hafter).
  exists passed, broke. split; [done|]. rewrite Hafter. clear Hafter.
  pose proof (read_loop_broke p passed broke Hloop) as Hstops.
  unfold timed_out, never_closes. rewrite Hlaunch.
  destruct broke; simpl.
  - assert (Hstopped : running p (length (stdout p)) = false).
    { destruct (running p (length (stdout p))); [by apply Hbroke | done]. }
    rewrite Hstopped. simpl.
    split; [split; [done | by intros (_ & _ & [=] & _)]|].
    split; [done|].
    split; [|done].
    split; [done|].
    intros [_ [[_ H] | (_ & [=] & _)]]. by apply Hstops in H.
  - destruct (stdout_eof p); simpl.
    + destruct (running p (length (stdout p))); simpl.
      * destruct (stderr p) as [stderr_output|].
        -- destruct (wait p) as [returncode|]; simpl.
           ++ destruct (Hexit returncode stderr_output) as (-> & ->).
              split; [split; [done | by intros (_ & _ & _ & _ & [=])]|].
              split; [done|]. split; [|done].
              split; [done|]. by intros [_ [[[=] _] | (_ & _ & [=])]].
           ++ split; [split; [by repeat split | done]|].
              split; [done|]. split; [|done].
              split; [done|]. by intros [_ [[[=] _] | (_ & _ & [=])]].
        -- split; [split; [done | by intros (_ & _ & _ & [? [=]] & _)]|].
           split; [done|]. split; [|done].
           split; [intros _; split; [done|]; right; by repeat split | done].
      * split; [split; [done | by intros (_ & _ & [=] & _)]|].
        split; [done|]. split; [|done].
        split; [done|]. by intros [_ [[[=] _] | (_ & [=] & _)]].
    + split; [split; [done | by intros (_ & [=] & _)]|].
      split; [done|]. split; [|done].
      split; [|done]. intros _. split; [done|]. left.
      split; [done|]. by apply Hstops.
Qed.


(** A run waits for ever, without a signal that ends the task and without
    killing the process, exactly when the process is launched and keeps its
    standard output open after its last line with no stop seen before, or
    keeps its standard error open: the timeout does not apply to the
    reading of the output. *)
Theorem run_waits_forever_exactly_on_open_pipe
    (command_list : list string) (use_pkexec : bool)
    (parser_func : option (list string -> string + Payload))
    (callback_arg : CallbackArg) (p : Process) :
  let command := CommandWorker_run command_list use_pkexec callback_arg p in
  let generic := GenericWorker_run command_list parser_func callback_arg p in
  (ending command = Blocked
   <-> (use_pkexec = true -> pkexec_found p = true) /\ never_closes p)
  /\ (ending generic = Blocked <-> never_closes p)
  /\ (ending command = Blocked ->
      terminal_signals command = [] /\ killed command = false)
  /\ (ending generic = Blocked ->
      emitted generic = [] /\ killed generic = false).
Proof.
  intros command generic.
  assert (Hgeneric :
    (ending generic = Blocked <-> never_closes p)
    /\ (ending generic = Blocked ->
        emitted generic = [] /\ killed generic = false)).
  { unfold generic, GenericWorker_run.
    destruct (launch p) as [| |e] eqn:Hlaunch.
    - destruct (read_loop p 0 (stdout p)) as [passed broke] eqn:Hloop.
      match goal with
      | |- context [after_stdout p callback_arg [] _ _ ?f] =>
          destruct (spawned_run_ending p callback_arg [] f Hlaunch)
            as (passed' & broke' & Hloop' & _ & _ & Hblocked & Hthen)
      end.
      { intros returncode stderr_output.
        destruct (negb (returncode =? 0)); [done|].
        destruct parser_func as [parse|]; [|done]. by destruct (parse _). }
      rewrite Hloop in Hloop'. injection Hloop' as <- <-. by split.
    - unfold never_closes. rewrite Hlaunch.
      destruct command_list; (split; [split; [done | by intros ([=] & _)]
                                     | done]).
    - unfold never_closes. rewrite Hlaunch.
      split; [split; [done | by intros ([=] & _)] | done]. }
  assert (Hcommand :
    (ending command = Blocked
     <-> (use_pkexec = true -> pkexec_found p = true) /\ never_closes p)
    /\ (ending command = Blocked ->
        terminal_signals command = [] /\ killed command = false)).
  { unfold terminal_signals, command, CommandWorker_run.
    destruct (use_pkexec && negb (pkexec_found p)) eqn:Hpk.
    { split; [|done]. split; [done|]. intros [Hfound _].
      destruct use_pkexec; [|done]. by rewrite Hfound in Hpk. }
    assert (Hfound : use_pkexec = true -> pkexec_found p = true).
    { intros ->. by destruct (pkexec_found p). }
    destruct (launch p) as [| |e] eqn:Hlaunch.
    - destruct (read_loop p 0 (stdout p)) as [passed broke] eqn:Hloop.
      match goal with
      | |- context [after_stdout p callback_arg ?b _ _ ?f] =>
          destruct (spawned_run_ending p callback_arg b f Hlaunch)
            as (passed' & broke' & Hloop' & _ & _ & Hblocked & Hthen)
      end.
      { intros returncode stderr_output.
        by destruct (negb (returncode =? 0)). }
      rewrite Hloop in Hloop'. injection Hloop' as <- <-.
      split.
      + rewrite Hblocked. by split; [|intros [_ ?]].
      + intros Hb. destruct (Hthen Hb) as [-> ->].
        by rewrite terminal_progress.
    - unfold never_closes. rewrite Hlaunch.
      destruct command_list;
        (split; [split; [done | by intros (_ & [=] & _)] | done]).
    - unfold never_closes. rewrite Hlaunch.
      split; [split; [done | by intros (_ & [=] & _)] | done]. }
  destruct Hgeneric as [Hg1 Hg2]. destruct Hcommand as [Hc1 Hc2].
  split; [exact Hc1|]. split; [exact Hg1|]. split; [exact Hc2 | exact Hg2].
Qed.

(** ** The actions of the user and the workers they start *)

Import Actions.

Lemma grows_refl (st : State) : grows st st.
Proof. exists []. by split. Qed.

Lemma grows_trans (st1 st2 st3 : State) :
  grows st1 st2 -> grows st2 st3 -> grows st1 st3.
Proof.
  intros (new1 & H1 & Hq1) (new2 & H2 & Hq2). exists (new2 ++ new1).
  split; [by rewrite H2, H1, app_assoc | by apply Forall_app_2].
Qed.

Lemma query_installed (running : bool) :
  query {| worker_class :=
             GenericWorker parser_equery_installed slot_on_installed_result;
           command_list := ["equery"; "list"; "--installed"; "*/*"];
           callback_arg := Some LOAD_STEP_AVAILABLE;
           finished_slot := slot_generic_finished;
           error_slot := slot_on_installed_error;
           isRunning := running |}.
Proof. eexists _, _. split; [done|]. split; [done|]. by left. Qed.

Lemma query_available (running : bool) :
  query {| worker_class :=
             GenericWorker parser_eix_output slot_on_load_available_result;
           command_list := ["eix"; "-c"; "--only-names"; "*/*"];
           callback_arg := Some LOAD_STEP_UPDATES;
           finished_slot := slot_generic_finished;
           error_slot := slot_on_load_available_error;
           isRunning := running |}.
Proof. eexists _, _. split; [done|]. split; [done|]. right. by left. Qed.

Lemma query_updates (running : bool) :
  query {| worker_class := GenericWorker parser_updates slot_on_updates_result;
           command_list := ["emerge"; "-upvND"; "@world"];
           callback_arg := Some LOAD_STEP_COMPLETE;
           finished_slot := slot_generic_finished;
           error_slot := slot_on_updates_error;
           isRunning := running |}.
Proof. eexists _, _. split; [done|]. split; [done|]. right. by right. Qed.

(** From a state with no worker in flight a load step starts the worker of
    its query, or none. *)
Lemma start_next_starts (step : CallbackArg) (st : State) :
  current_worker st = None ->
  exists st',
    (forall k, Handlers._start_next_load_step k step st = Ok st')
    /\ grows st st' /\ same_data st st'
    /\ dialogs st' = dialogs st
    /\ ((workers st' = workers st /\ current_worker st' = None)
        \/ starts st st').
Proof.
  intros Hidle.
  destruct (decide (step = Some LOAD_STEP_INSTALLED)) as [->|H0].
  { eexists. split; [intros k; by apply start_installed_idle|].
    split; [grows_calls|]. split; [done|]. split; [done|].
    right. eexists. split; [reflexivity|]. split; [done|].
    split; [left; apply query_installed | done]. }
  destruct (decide (step = Some LOAD_STEP_AVAILABLE)) as [->|H1].
  { eexists. split; [intros k; by apply start_available_idle|].
    split; [grows_calls|]. split; [done|]. split; [done|].
    right. eexists. split; [reflexivity|]. split; [done|].
    split; [left; apply query_available | done]. }
  destruct (decide (step = Some LOAD_STEP_UPDATES)) as [->|H2].
  { eexists. split; [intros k; by apply start_updates_idle|].
    split; [grows_calls|]. split; [done|]. split; [done|].
    right. eexists. split; [reflexivity|]. split; [done|].
    split; [left; apply query_updates | done]. }
  destruct (decide (step = Some LOAD_STEP_COMPLETE)) as [->|H3].
  { eexists. split; [intros k; by apply start_complete|].
    split; [grows_calls|]. split; [done|]. split; [done|]. by left. }
  exists st. split; [intros k; by apply start_other|].
  split; [apply grows_refl|]. split; [done|]. split; [done|]. by left.
Qed.

(** The same from a state [st1] that differs from [st] by calls on the
    widgets. *)
Lemma start_next_after (step : CallbackArg) (st st1 : State) :
  current_worker st1 = None ->
  workers st1 = workers st ->
  grows st st1 ->
  exists st',
    (forall k, Handlers._start_next_load_step k step st1 = Ok st')
    /\ grows st st' /\ same_data st1 st'
    /\ dialogs st' = dialogs st1
    /\ ((workers st' = workers st /\ current_worker st' = None)
        \/ starts st st').
Proof.
  intros Hidle Hws Hgrows.
  destruct (start_next_starts step st1 Hidle)
    as (st' & Hk & Hg & Hdata & Hd & Hw).
  exists st'. split; [done|]. split; [by eapply grows_trans|].
  split; [done|]. split; [done|].
  unfold starts in *. by rewrite <- Hws.
Qed.

Lemma generic_finished_starts (cb_arg : CallbackArg) (st : State) :
  exists st',
    (forall k, Handlers._generic_finished k cb_arg st = Ok st')
    /\ grows st st' /\ same_data st st'
    /\ dialogs st' = dialogs st
    /\ ((workers st' = workers st /\ current_worker st' = None)
        \/ starts st st').
Proof.
  edestruct (start_next_after cb_arg st) as (st' & Hk & H);
    [| | | exists st'; split;
           [intros k; rewrite generic_finished_unfold; apply Hk | exact H]].
  - reflexivity.
  - reflexivity.
  - grows_calls.
Qed.

Lemma generic_error_starts (error_msg : string) (cb_arg : CallbackArg)
    (st : State) :
  error_msg <> EmptyString ->
  exists st',
    (forall k, Handlers._generic_error k error_msg cb_arg st = Ok st')
    /\ grows st st' /\ same_data st st'
    /\ ((workers st' = workers st /\ current_worker st' = None)
        \/ starts st st').
Proof.
  intros Hne.
  destruct (contains "Operation Cancelled" error_msg) eqn:Hcancel.
  { eexists. split; [intros k; by apply generic_error_cancelled|].
    split; [grows_calls|]. split; [done|]. by left. }
  destruct (contains "Command not found" error_msg) eqn:Hfound.
  { eexists. split; [intros k; by apply generic_error_command_not_found|].
    split; [grows_calls|]. split; [done|]. by left. }
  edestruct (start_next_after cb_arg st) as (st' & Hk & Hg & Hdata & _ & Hw);
    [| | | exists st'; split;
           [intros k; rewrite generic_error_ordinary by done; apply Hk|]].
  - reflexivity.
  - reflexivity.
  - grows_calls.
  - split; [done|]. split; [exact Hdata | exact Hw].
Qed.

Lemma command_action_error_failure (error_msg : string) (st : State) :
  error_msg <> EmptyString ->
  contains "Operation Cancelled" error_msg = false ->
  Handlers._command_action_error error_msg None st
  = Ok {| workers := workers st;
          current_worker := None;
          installed_packages := installed_packages st;
          all_available_package_atoms := all_available_package_atoms st;
          update_list_atoms := update_list_atoms st;
          update_list_display := update_list_display st;
          ui := [ConsoleEnsureCursorVisible;
                 ShowMessage ("Operation failed: " +:+ until_break error_msg)
                   6000;
                 CriticalBox ("Operation Failed:" +:+ Gui.nl
                              +:+ until_break error_msg +:+ "..."
                              +:+ Gui.nl +:+ Gui.nl
                              +:+ "See Output Console for details.");
                 ConsoleAppend (Gui.nl +:+ dashes 20 +:+ Gui.nl +:+ "ERROR:"
                                +:+ Gui.nl +:+ error_msg);
                 CancelSetEnabled false; ProgressSetVisible false]
                ++ ui st |}.
Proof.
  intros Hne Hcancel. unfold Handlers._command_action_error.
  rewrite Hcancel, (first_line_nonempty _ Hne). reflexivity.
Qed.

(** What the slot of [signals.error] does on a diagnostic of a worker: it
    returns, having released the current worker and started at most one
    query. *)
Lemma error_slot_starts (slot : ErrorSlot) (error_msg : string)
    (cb_arg : CallbackArg) (st : State) :
  error_msg <> EmptyString ->
  exists st',
    call_error_slot slot error_msg cb_arg st = Ok st'
    /\ grows st st'
    /\ ((workers st' = workers st /\ current_worker st' = None)
        \/ starts st st').
Proof.
  intros Hne. destruct slot as [| | |callback].
  - unfold call_error_slot, Handlers.call_error_slot,
      Handlers.on_installed_error.
    run_calls.
    match goal with
    | |- context [Handlers._generic_error _ _ _ ?s] =>
        destruct (generic_error_starts error_msg cb_arg s Hne)
          as (st' & Hk & Hg & _ & Hw)
    end.
    exists st'. split; [apply Hk|]. split; [|exact Hw].
    eapply grows_trans; [|exact Hg]. grows_calls.
  - unfold call_error_slot, Handlers.call_error_slot,
      Handlers.on_load_available_error.
    run_calls.
    match goal with
    | |- context [Handlers._generic_error _ _ _ ?s] =>
        destruct (generic_error_starts error_msg cb_arg s Hne)
          as (st' & Hk & Hg & _ & Hw)
    end.
    exists st'. split; [apply Hk|]. split; [|exact Hw].
    eapply grows_trans; [|exact Hg]. grows_calls.
  - unfold call_error_slot, Handlers.call_error_slot.
    destruct (classify error_msg) eqn:Hclass.
    + unfold Handlers.on_updates_error. rewrite Hclass.
      run_calls. unfold seq at 1.
      rewrite on_updates_result_empty.
      match goal with
      | |- context [Handlers._generic_finished _ _ ?s] =>
          destruct (generic_finished_starts cb_arg s)
            as (st' & Hk & Hg & _ & _ & Hw)
      end.
      exists st'. split; [apply Hk|]. split; [|exact Hw].
      eapply grows_trans; [|exact Hg]. grows_calls.
    + rewrite updates_error_failure by congruence.
      match goal with
      | |- context [Handlers._generic_error _ _ _ ?s] =>
          destruct (generic_error_starts error_msg cb_arg s Hne)
            as (st' & Hk & Hg & _ & Hw)
      end.
      exists st'. split; [apply Hk|]. split; [|exact Hw].
      eapply grows_trans; [|exact Hg]. grows_calls.
    + rewrite updates_error_failure by congruence.
      match goal with
      | |- context [Handlers._generic_error _ _ _ ?s] =>
          destruct (generic_error_starts error_msg cb_arg s Hne)
            as (st' & Hk & Hg & _ & Hw)
      end.
      exists st'. split; [apply Hk|]. split; [|exact Hw].
      eapply grows_trans; [|exact Hg]. grows_calls.
  - destruct callback as [[]|].
    unfold call_error_slot, Handlers.call_error_slot.
    destruct (contains "Operation Cancelled" error_msg) eqn:Hcancel.
    + eexists. split; [by apply command_action_error_cancelled|].
      split; [grows_calls | by left].
    + eexists. split; [by apply command_action_error_failure|].
      split; [grows_calls | by left].
Qed.

(** The empty diagnostic makes every slot of [signals.error] raise. *)
Lemma error_slot_empty (slot : ErrorSlot) (cb_arg : CallbackArg)
    (st : State) :
  exists st', call_error_slot slot EmptyString cb_arg st
              = Raised IndexError st'.
Proof.
  destruct slot as [| | |[[]|]]; eexists; reflexivity.
Qed.

Lemma command_action_finished_unfold
    (k : ErrorSlot -> string -> CallbackArg -> M) (cb : FinishedCallback)
    (st : State) :
  Handlers._command_action_finished k (Some cb) st
  = match Handlers.call_finished_callback k cb
            {| workers := workers st;
               current_worker := None;
               installed_packages := installed_packages st;
               all_available_package_atoms := all_available_package_atoms st;
               update_list_atoms := update_list_atoms st;
               update_list_display := update_list_display st;
               ui := [ConsoleEnsureCursorVisible;
                      ConsoleAppend (Gui.nl +:+ dashes 20 +:+ Gui.nl
                                     +:+ "Operation finished successfully.");
                      CancelSetEnabled false; ProgressSetVisible false;
                      ShowMessage "Operation completed successfully." 5000]
                     ++ ui st |} with
    | Raised e st' =>
        (call (Print ("Error during post-action callback: "
                      +:+ exn_text e));;
         show_error ("Operation succeeded, but an error occurred during the post-action callback:"
                     +:+ Gui.nl +:+ exn_text e)) st'
    | r => r
    end.
Proof. reflexivity. Qed.

Lemma command_action_finished_none
    (k : ErrorSlot -> string -> CallbackArg -> M) (st : State) :
  Handlers._command_action_finished k None st
  = Ok {| workers := workers st;
          current_worker := None;
          installed_packages := installed_packages st;
          all_available_package_atoms := all_available_package_atoms st;
          update_list_atoms := update_list_atoms st;
          update_list_display := update_list_display st;
          ui := [ConsoleEnsureCursorVisible;
                 ConsoleAppend (Gui.nl +:+ dashes 20 +:+ Gui.nl
                                +:+ "Operation finished successfully.");
                 CancelSetEnabled false; ProgressSetVisible false;
                 ShowMessage "Operation completed successfully." 5000]
                ++ ui st |}.
Proof. reflexivity. Qed.

Lemma refresh_updates_idle (k : ErrorSlot -> string -> CallbackArg -> M)
    (cb_arg : CallbackArg) (st : State) :
  busy st = false ->
  Handlers.refresh_updates k cb_arg st
  = Ok {| workers :=
            workers st
            ++ [{| worker_class :=
                     GenericWorker parser_updates slot_on_updates_result;
                   command_list := ["emerge"; "-upvND"; "@world"];
                   callback_arg := cb_arg;
                   finished_slot := slot_generic_finished;
                   error_slot := slot_on_updates_error;
                   isRunning := true |}];
          current_worker := Some (length (workers st));
          installed_packages := installed_packages st;
          all_available_package_atoms := all_available_package_atoms st;
          update_list_atoms := update_list_atoms st;
          update_list_display := update_list_display st;
          ui := [CancelSetEnabled true; ProgressSetVisible true;
                 ProgressSetRange 0 0;
                 ShowMessage
                   "Checking for updates (emerge -upvND @world)..." 0;
                 ListAddItem update_package_list
                   "Checking for updates (emerge pretend)...";
                 ListClear update_package_list;
                 SetTabText update_tab_index "Updates (?)"]
                ++ ui st |}.
Proof.
  intros Hidle. unfold Handlers.refresh_updates, update_tab_text.
  run_calls.
  rewrite run_generic_task_idle by exact Hidle. fields. reflexivity.
Qed.

Lemma sync_finished_unfold (k : ErrorSlot -> string -> CallbackArg -> M)
    (st : State) :
  busy st = false ->
  Handlers._sync_finished k st
  = Ok {| workers :=
            workers st
            ++ [{| worker_class :=
                     GenericWorker parser_updates slot_on_updates_result;
                   command_list := ["emerge"; "-upvND"; "@world"];
                   callback_arg := Some LOAD_STEP_COMPLETE;
                   finished_slot := slot_generic_finished;
                   error_slot := slot_on_updates_error;
                   isRunning := true |}];
          current_worker := Some (length (workers st));
          installed_packages := installed_packages st;
          all_available_package_atoms := all_available_package_atoms st;
          update_list_atoms := update_list_atoms st;
          update_list_display := update_list_display st;
          ui := [CancelSetEnabled true; ProgressSetVisible true;
                 ProgressSetRange 0 0;
                 ShowMessage
                   "Checking for updates (emerge -upvND @world)..." 0;
                 ListAddItem update_package_list
                   "Checking for updates (emerge pretend)...";
                 ListClear update_package_list;
                 SetTabText update_tab_index "Updates (?)";
                 ShowMessage "Sync finished. Refreshing updates list..." 3000]
                ++ ui st |}.
Proof.
  intros Hidle. unfold Handlers._sync_finished. run_calls.
  rewrite refresh_updates_idle by exact Hidle. fields. reflexivity.
Qed.

Lemma refresh_all_idle (k : ErrorSlot -> string -> CallbackArg -> M)
    (st : State) :
  busy st = false ->
  Handlers.refresh_all k st
  = Ok {| workers :=
            workers st
            ++ [{| worker_class :=
                     GenericWorker parser_equery_installed
                       slot_on_installed_result;
                   command_list := ["equery"; "list"; "--installed"; "*/*"];
                   callback_arg := Some LOAD_STEP_AVAILABLE;
                   finished_slot := slot_generic_finished;
                   error_slot := slot_on_installed_error;
                   isRunning := true |}];
          current_worker := Some (length (workers st));
          installed_packages := installed_packages st;
          all_available_package_atoms := all_available_package_atoms st;
          update_list_atoms := update_list_atoms st;
          update_list_display := update_list_display st;
          ui := [CancelSetEnabled true; ProgressSetVisible true;
                 ProgressSetRange 0 0;
                 ShowMessage "Loading installed packages..." 0;
                 ListAddItem installed_package_list
                   "Loading installed packages...";
                 ListClear installed_package_list;
                 SetTabText installed_tab_index "Installed Packages (?)";
                 SetTabText update_tab_index "Updates (?)";
                 SetTabText browse_tab_index "Browse Packages (?)";
                 SetTabText installed_tab_index "Installed Packages (?)";
                 ListAddItem update_package_list "Loading...";
                 ListClear update_package_list;
                 ListAddItem browse_package_list "Loading...";
                 ListClear browse_package_list;
                 ListAddItem installed_package_list "Loading...";
                 ListClear installed_package_list;
                 ShowMessage "Starting full refresh sequence..." 0]
                ++ ui st |}.
Proof.
  intros Hidle. unfold Handlers.refresh_all. rewrite Hidle.
  unfold update_tab_text. run_calls.
  cbn [Handlers._start_next_load_step].
  change (LOAD_STEP_INSTALLED =? LOAD_STEP_INSTALLED) with true. cbv iota.
  unfold Handlers.refresh_installed_packages, update_tab_text.
  run_calls.
  rewrite run_generic_task_idle by exact Hidle. fields. reflexivity.
Qed.

Lemma refresh_all_busy (k : ErrorSlot -> string -> CallbackArg -> M)
    (st : State) :
  busy st = true ->
  Handlers.refresh_all k st
  = Ok {| workers := workers st;
          current_worker := current_worker st;
          installed_packages := installed_packages st;
          all_available_package_atoms := all_available_package_atoms st;
          update_list_atoms := update_list_atoms st;
          update_list_display := update_list_display st;
          ui := CriticalBox
                  ("Cannot refresh: An operation is already in progress."
                   +:+ Gui.nl
                   +:+ "Please wait or cancel the current operation.")
                :: ui st |}.
Proof. intros Hbusy. unfold Handlers.refresh_all. by rewrite Hbusy. Qed.

Lemma action_requires_refresh_idle
    (k : ErrorSlot -> string -> CallbackArg -> M) (st : State) :
  busy st = false ->
  Handlers._action_requires_refresh k st
  = Handlers.refresh_all k
      {| workers := workers st;
         current_worker := current_worker st;
         installed_packages := installed_packages st;
         all_available_package_atoms := all_available_package_atoms st;
         update_list_atoms := update_list_atoms st;
         update_list_display := update_list_display st;
         ui := ShowMessage "Operation finished. Refreshing all lists..." 3000
               :: ui st |}.
Proof. reflexivity. Qed.

(** What the slot of [signals.finished] does: it returns, having released
    the current worker and started at most one query. *)
Lemma finished_slot_starts (slot : FinishedSlot) (cb_arg : CallbackArg)
    (st : State) :
  exists st',
    call_finished_slot slot cb_arg st = Ok st'
    /\ grows st st' /\ same_data st st'
    /\ dialogs st' = dialogs st
    /\ ((workers st' = workers st /\ current_worker st' = None)
        \/ starts st st').
Proof.
  destruct slot as [|[[]|]].
  - destruct (generic_finished_starts cb_arg st) as (st' & Hk & H).
    exists st'. split; [apply Hk | exact H].
  - eexists. split.
    { unfold call_finished_slot, Handlers.call_finished_slot.
      rewrite command_action_finished_unfold.
      unfold Handlers.call_finished_callback.
      rewrite sync_finished_unfold by done. fields. reflexivity. }
    split; [grows_calls|]. split; [done|]. split; [done|].
    right. eexists. split; [reflexivity|]. split; [done|].
    split; [left; apply query_updates | done].
  - eexists. split.
    { unfold call_finished_slot, Handlers.call_finished_slot.
      rewrite command_action_finished_unfold.
      unfold Handlers.call_finished_callback.
      rewrite action_requires_refresh_idle by done.
      rewrite refresh_all_idle by done. fields. reflexivity. }
    split; [grows_calls|]. split; [done|]. split; [done|].
    right. eexists. split; [reflexivity|]. split; [done|].
    split; [left; apply query_installed | done].
  - eexists. split; [apply command_action_finished_none|].
    split; [grows_calls|]. split; [done|]. split; [done|]. by left.
Qed.

(** The slots of [signals.result] and [signals.progress] leave the workers
    alone. *)
Lemma deliver_data (id : nat) (s : Signal) (st st' : State) :
  terminal s = false ->
  deliver id s st = Ok st' ->
  grows st st'
  /\ workers st' = workers st /\ current_worker st' = current_worker st
  /\ dialogs st' = dialogs st.
Proof.
  intros Hs. unfold deliver.
  destruct (workers st !! id) as [w|];
    [|intros [= <-]; split; [apply grows_refl | done]].
  destruct s as [cb|error_msg cb|data|text]; try done.
  - destruct (worker_class w) as [parser_func on_result|use_pkexec];
      [|intros [= <-]; split; [apply grows_refl | done]].
    unfold call_result_slot, Handlers.call_result_slot.
    destruct on_result, data as [text|packages|atoms display]; try done.
    + rewrite on_installed_result_unfold. intros [= <-].
      split; [|by destruct (bool_decide (0 < length packages)%nat)].
      destruct (bool_decide (0 < length packages)%nat); grows_calls.
    + rewrite on_load_available_result_unfold. intros [= <-].
      split; [|by destruct (bool_decide (0 < length packages)%nat)].
      destruct (bool_decide (0 < length packages)%nat); grows_calls.
    + rewrite on_updates_result_unfold. intros [= <-].
      split; [|by destruct (bool_decide (length atoms = 0)%nat)].
      destruct (bool_decide (length atoms = 0)%nat); grows_calls.
  - destruct (worker_class w) as [parser_func on_result|use_pkexec];
      [intros [= <-]; split; [apply grows_refl | done]|].
    unfold Handlers._command_progress. run_calls.
    intros [= <-]. split; [grows_calls | done].
Qed.

Lemma run_emerge_command_idle (command : list string)
    (on_finished : option FinishedCallback)
    (on_error : option ErrorCallback) (status : string)
    (use_pkexec : bool) (st : State) :
  busy st = false ->
  run_emerge_command command on_finished on_error status use_pkexec st
  = Ok {| workers :=
            workers st
            ++ [{| worker_class := CommandWorker use_pkexec;
                   command_list := command;
                   callback_arg := None;
                   finished_slot := slot_command_action_finished on_finished;
                   error_slot := slot_command_action_error on_error;
                   isRunning := true |}];
          current_worker := Some (length (workers st));
          installed_packages := installed_packages st;
          all_available_package_atoms := all_available_package_atoms st;
          update_list_atoms := update_list_atoms st;
          update_list_display := update_list_display st;
          ui := [ConsoleEnsureCursorVisible;
                 ConsoleAppend
                   (Gui.nl +:+ dashes 30 +:+ Gui.nl +:+ "Executing: "
                    +:+ (if use_pkexec then "pkexec " else "")
                    +:+ join " " command +:+ Gui.nl
                    +:+ dashes 30 +:+ Gui.nl);
                 ShowOutputTab; CancelSetEnabled true;
                 ProgressSetVisible true; ProgressSetRange 0 0;
                 ShowMessage status 0]
                ++ ui st |}.
Proof.
  intros Hidle. unfold run_emerge_command, Handlers.run_emerge_command.
  rewrite Hidle. run_calls. reflexivity.
Qed.

(** [run_emerge_command] as the actions call it: with a worker running it
    shows a dialog and starts nothing; otherwise it starts the command. *)
Lemma run_emerge_command_effect (command : list string)
    (callback : option FinishedCallback) (status : string) (st : State) :
  action {| worker_class := CommandWorker true;
            command_list := command;
            callback_arg := None;
            finished_slot := slot_command_action_finished callback;
            error_slot := slot_command_action_error None;
            isRunning := true |} ->
  exists st',
    run_emerge_command command callback None status true st = Ok st'
    /\ grows st st' /\ same_data st st'
    /\ ((busy st = true /\ workers st' = workers st
         /\ current_worker st' = current_worker st
         /\ dialogs st'
            = "Another operation is already in progress. Please wait or cancel."
              :: dialogs st)
        \/ (busy st = false /\ starts st st' /\ dialogs st' = dialogs st
            /\ commands st' = commands st ++ [command])).
Proof.
  intros Haction. destruct (busy st) eqn:Hbusy.
  - eexists. split; [by apply run_emerge_command_busy|].
    split; [grows_calls|]. split; [done|]. by left.
  - eexists. split; [by apply run_emerge_command_idle|].
    split; [grows_calls|]. split; [done|]. right. split; [done|].
    split; [|split; [done|]].
    + eexists. split; [reflexivity|]. split; [done|].
      split; [right; exact Haction | done].
    + unfold commands. fields. by rewrite fmap_app.
Qed.

Lemma action_sync :
  action {| worker_class := CommandWorker true;
            command_list := ["emerge"; "--sync"];
            callback_arg := None;
            finished_slot :=
              slot_command_action_finished (Some cb_sync_finished);
            error_slot := slot_command_action_error None;
            isRunning := true |}.
Proof. split; [done|]. split; [done|]. split; [done|]. by left. Qed.

Lemma action_emerge (flags targets : list string) :
  flags = [] \/ flags = ["--unmerge"] \/ flags = ["-uND"] ->
  targets <> [] ->
  action {| worker_class := CommandWorker true;
            command_list := ["emerge"; "--ask=n"; "--verbose"] ++ flags
                            ++ targets;
            callback_arg := None;
            finished_slot :=
              slot_command_action_finished (Some cb_action_requires_refresh);
            error_slot := slot_command_action_error None;
            isRunning := true |}.
Proof.
  intros Hflags Htargets. split; [done|]. split; [done|]. split; [done|].
  right. by exists flags, targets.
Qed.

(** The warnings of [get_selected_package_atoms] are calls of [print]. *)
Lemma get_selected_package_atoms_prints_effect
    (atom_pattern : string -> option string) (items : list string)
    (st : State) :
  exists st',
    get_selected_package_atoms_prints atom_pattern items st = Ok st'
    /\ grows st st' /\ same_data st st'
    /\ workers st' = workers st /\ current_worker st' = current_worker st
    /\ dialogs st' = dialogs st
    /\ progress_bar_visible st' = progress_bar_visible st
    /\ cancel_button_enabled st' = cancel_button_enabled st.
Proof.
  revert st. induction items as [|text items IH]; intros st.
  { exists st. split; [done|]. split; [apply grows_refl | done]. }
  cbn [get_selected_package_atoms_prints].
  destruct (atom_pattern text) as [atom|]; [apply IH|].
  destruct (contains "/" text && negb (contains " " text)); [apply IH|].
  run_calls.
  match goal with
  | |- context [get_selected_package_atoms_prints _ _ ?s] =>
      destruct (IH s)
        as (st' & Hrun & Hgrows & Hdata & Hws & Hcur & Hd & Hbar & Hcancel)
  end.
  exists st'. split; [exact Hrun|].
  split; [|done].
  eapply grows_trans; [|exact Hgrows]. grows_calls.
Qed.

(** The progress signals of [stop] reach [_command_progress] or no slot. *)
Lemma deliver_all_progress (id : nat) (sigs : list Signal) (st : State) :
  Forall (fun s => is_progress s = true) sigs ->
  exists st',
    deliver_all id sigs st = Ok st'
    /\ grows st st' /\ same_data st st'
    /\ workers st' = workers st /\ current_worker st' = current_worker st
    /\ dialogs st' = dialogs st
    /\ progress_bar_visible st' = progress_bar_visible st
    /\ cancel_button_enabled st' = cancel_button_enabled st.
Proof.
  intros Hsigs. revert st.
  induction Hsigs as [|s sigs Hs _ IH]; intros st.
  { exists st. split; [done|]. split; [apply grows_refl | done]. }
  destruct s as [| | |text]; try done.
  cbn [deliver_all]. unfold seq at 1. unfold deliver.
  destruct (workers st !! id) as [w|]; [|apply IH].
  destruct (worker_class w) as [parser_func on_result|use_pkexec];
    [apply IH|].
  unfold Handlers._command_progress. run_calls. unfold call at 1.
  match goal with
  | |- context [deliver_all id sigs ?s] =>
      destruct (IH s)
        as (st' & Hrun & Hgrows & Hdata & Hws & Hcur & Hd & Hbar & Hcancel)
  end.
  exists st'. split; [exact Hrun|]. split; [|done].
  eapply grows_trans; [|exact Hgrows]. grows_calls.
Qed.

Lemma stop_emits_progress_only (env : StopEnv) :
  Forall (fun s => is_progress s = true) (stop_emitted (stop env)).
Proof.
  unfold stop. destruct (process_alive env); [|done].
  destruct (terminate env) as [[]|]; by repeat constructor.
Qed.

Lemma keeps_or_starts_after (st st1 st' : State) :
  grows st st1 -> same_data st st1 ->
  workers st1 = workers st -> current_worker st1 = current_worker st ->
  keeps_or_starts st1 st' -> keeps_or_starts st st'.
Proof.
  intros Hgrows (Hd1 & Hd2 & Hd3 & Hd4) Hws Hcur
    (Hgrows' & (Hd1' & Hd2' & Hd3' & Hd4') & Hchange).
  split; [by eapply grows_trans|].
  split; [unfold same_data; by rewrite Hd1', Hd2', Hd3', Hd4'|].
  unfold starts, busy in *. by rewrite <- Hws, <- Hcur.
Qed.

Lemma keeps_ui (st : State) (new : list UiCall) :
  Forall (fun c => conflict_warning c = false) new ->
  keeps_or_starts st
    {| workers := workers st;
       current_worker := current_worker st;
       installed_packages := installed_packages st;
       all_available_package_atoms := all_available_package_atoms st;
       update_list_atoms := update_list_atoms st;
       update_list_display := update_list_display st;
       ui := new ++ ui st |}.
Proof. intros Hnew. split; [by exists new|]. split; [done | by left]. Qed.

Lemma keeps_refl (st : State) : keeps_or_starts st st.
Proof. split; [apply grows_refl|]. split; [done | by left]. Qed.

Lemma run_emerge_command_keeps_or_starts (command : list string)
    (callback : option FinishedCallback) (status : string) (st : State) :
  action {| worker_class := CommandWorker true;
            command_list := command;
            callback_arg := None;
            finished_slot := slot_command_action_finished callback;
            error_slot := slot_command_action_error None;
            isRunning := true |} ->
  exists st',
    run_emerge_command command callback None status true st = Ok st'
    /\ keeps_or_starts st st'.
Proof.
  intros Haction.
  destruct (run_emerge_command_effect command callback status st Haction)
    as (st' & Hrun & Hgrows & Hdata & Hchange).
  exists st'. split; [done|]. split; [done|]. split; [done|].
  destruct Hchange as [(_ & Hws & Hcur & _) | (Hidle & Hstarts & _)];
    [by left | by right].
Qed.

Lemma perform_update_keeps_or_starts (packages : list string)
    (answer : bool) (st : State) :
  packages <> [] ->
  exists st',
    _perform_update packages answer st = Ok st' /\ keeps_or_starts st st'.
Proof.
  intros Hne. unfold _perform_update. destruct answer.
  - apply run_emerge_command_keeps_or_starts.
    apply (action_emerge ["-uND"] packages); [by right; right | done].
  - exists st. split; [done | apply keeps_refl].
Qed.

Lemma show_error_keeps (message : string) (st : State) :
  exists st', show_error message st = Ok st' /\ keeps_or_starts st st'.
Proof.
  eexists. split; [reflexivity|]. apply (keeps_ui st [_]). quiet_calls.
Qed.

(** An action of the user always returns; it leaves the workers and the
    package data alone, or starts one worker while none is running. *)
Lemma user_action_keeps_or_starts
    (atom_pattern : string -> option string) (e : Event) (st : State) :
  user_action e = true ->
  exists st', handle atom_pattern e st = Ok st' /\ keeps_or_starts st st'.
Proof.
  intros Huser. destruct e as [|answer|env|items answer|items answer
                               |items answer|answer| | |o]; [..|done];
    cbn [handle].
  - destruct (busy st) eqn:Hbusy.
    + eexists. split; [by apply refresh_all_busy|].
      apply (keeps_ui st [_]). quiet_calls.
    + eexists. split; [by apply refresh_all_idle|].
      split; [grows_calls|].
      split; [done|]. right. split; [done|].
      eexists. split; [reflexivity|]. split; [done|].
      split; [left; apply query_installed | done].
  - unfold run_sync. destruct answer.
    + apply run_emerge_command_keeps_or_starts, action_sync.
    + exists st. split; [done | apply keeps_refl].
  - unfold cancel_operation. destruct (busy st) eqn:Hbusy.
    + run_calls. unfold seq at 1.
      destruct (current_worker st) as [id|] eqn:Hcur.
      * match goal with
        | |- context [deliver_all id _ ?s] =>
            destruct (deliver_all_progress id (stop_emitted (stop env)) s
                        (stop_emits_progress_only env))
              as (st1 & -> & Hgrows & Hdata & Hws & Hcur' & _)
        end.
        eexists. split; [reflexivity|].
        split; [|split; [exact Hdata|]].
        -- eapply grows_trans; [|eapply grows_trans; [exact Hgrows|]];
             grows_calls.
        -- left. fields. by rewrite Hws, Hcur'.
      * by rewrite (busy_no_worker st Hcur) in Hbusy.
    + eexists. split; [reflexivity|]. apply (keeps_ui st [_]). quiet_calls.
  - unfold install_selected_browse. unfold seq at 1.
    destruct (get_selected_package_atoms_prints_effect atom_pattern items st)
      as (st1 & -> & Hgrows & Hdata & Hws & Hcur & _).
    destruct (get_selected_package_atoms atom_pattern items)
      as [|atom atoms].
    + destruct (show_error_keeps "No packages selected in the Browse tab."
                  st1) as (st' & Hrun & H).
      exists st'. split; [exact Hrun|]. by eapply keeps_or_starts_after.
    + cbn [_install_packages]. destruct answer.
      * edestruct (run_emerge_command_keeps_or_starts) as (st' & Hrun & H);
          [|exists st'; split; [exact Hrun|];
            by eapply keeps_or_starts_after].
        apply (action_emerge [] (atom :: atoms)); [by left | done].
      * exists st1. split; [done|].
        eapply keeps_or_starts_after; try done. apply keeps_refl.
  - unfold uninstall_selected. unfold seq at 1.
    destruct (get_selected_package_atoms_prints_effect atom_pattern items st)
      as (st1 & -> & Hgrows & Hdata & Hws & Hcur & _).
    destruct (get_selected_package_atoms atom_pattern items)
      as [|atom atoms].
    + destruct (show_error_keeps "No packages selected in the Installed tab."
                  st1) as (st' & Hrun & H).
      exists st'. split; [exact Hrun|]. by eapply keeps_or_starts_after.
    + destruct answer.
      * edestruct (run_emerge_command_keeps_or_starts) as (st' & Hrun & H);
          [|exists st'; split; [exact Hrun|];
            by eapply keeps_or_starts_after].
        apply (action_emerge ["--unmerge"] (atom :: atoms));
          [by right; left | done].
      * exists st1. split; [done|].
        eapply keeps_or_starts_after; try done. apply keeps_refl.
  - unfold update_selected. unfold seq at 1.
    destruct (get_selected_package_atoms_prints_effect atom_pattern items st)
      as (st1 & -> & Hgrows & Hdata & Hws & Hcur & _).
    destruct (get_selected_package_atoms atom_pattern items)
      as [|atom atoms].
    + destruct (show_error_keeps "No updates selected." st1)
        as (st' & Hrun & H).
      exists st'. split; [exact Hrun|]. by eapply keeps_or_starts_after.
    + destruct (perform_update_keeps_or_starts (atom :: atoms) answer st1)
        as (st' & Hrun & H); [done|].
      exists st'. split; [exact Hrun|]. by eapply keeps_or_starts_after.
  - unfold update_all. destruct (update_list_atoms st).
    + destruct (update_list_items (ui st)) as [|first rest].
      * apply show_error_keeps.
      * destruct (negb (contains "Loading" first)); apply show_error_keeps.
    + by apply perform_update_keeps_or_starts.
  - eexists. split; [reflexivity|]. apply (keeps_ui st [_]). quiet_calls.
  - eexists. split; [reflexivity|]. apply (keeps_ui st [_]). quiet_calls.
Qed.

Lemma grows_quiet (st st' : State) :
  grows st st' ->
  Forall (fun c => conflict_warning c = false) (ui st) ->
  Forall (fun c => conflict_warning c = false) (ui st').
Proof. intros (new & -> & Hnew) Hui. by apply Forall_app_2. Qed.

Lemma idle_none_running (st : State) (id : nat) (w : WorkerObj) :
  one_at_a_time st -> busy st = false ->
  workers st !! id = Some w -> isRunning w = false.
Proof.
  intros [Hone _] Hidle Hw. destruct (isRunning w) eqn:Hrun; [|done].
  unfold busy in Hidle. by rewrite (Hone id w Hw Hrun), Hw, Hrun in Hidle.
Qed.

(** An action of the user keeps the window in order. *)
Lemma keeps_or_starts_in_order (st st' : State) :
  in_order st -> keeps_or_starts st st' -> in_order st'.
Proof.
  intros (Hone & Hknown & Hquiet) (Hgrows & _ & Hchange).
  split; [|split]; [| |by eapply grows_quiet].
  - destruct Hchange as [[Hws Hcur] | [Hidle (w & Hws & Hrun & _ & Hcur)]].
    { unfold one_at_a_time. rewrite Hws, Hcur. exact Hone. }
    split.
    + intros id w' Hw' Hrun'. rewrite Hws in Hw'.
      apply lookup_app_Some in Hw' as [Hold | [Hlen Hnew]].
      * by rewrite (idle_none_running st id w' Hone Hidle Hold) in Hrun'.
      * rewrite Hcur. f_equal.
        apply lookup_lt_Some in Hnew. simpl in Hnew. lia.
    + intros id. rewrite Hcur. intros [= <-]. exists w.
      split; [|done]. rewrite Hws. by apply list_lookup_middle.
  - destruct Hchange as [[Hws _] | [_ (w & Hws & _ & Hw & _)]];
      rewrite Hws; [done|].
    apply Forall_app_2; [done | by constructor].
Qed.

Lemma known_after_exit (w : WorkerObj) :
  query w \/ action w ->
  query {| worker_class := worker_class w;
           command_list := command_list w;
           callback_arg := callback_arg w;
           finished_slot := finished_slot w;
           error_slot := error_slot w;
           isRunning := false |}
  \/ action {| worker_class := worker_class w;
               command_list := command_list w;
               callback_arg := callback_arg w;
               finished_slot := finished_slot w;
               error_slot := error_slot w;
               isRunning := false |}.
Proof. intros [H | H]; [left | right]; exact H. Qed.

(** When the thread of the current worker ends after its slots have
    released it, and started at most one worker, the window is in order. *)
Lemma thread_exit_in_order (id : nat) (st st2 st' : State) :
  in_order st ->
  current_worker st = Some id ->
  grows st st2 ->
  (workers st2 = workers st /\ current_worker st2 = None) \/ starts st st2 ->
  thread_exit id st2 = Ok st' ->
  in_order st'.
Proof.
  intros ([Hone Hcur] & Hknown & Hquiet) Hid Hgrows Hchange [= <-].
  destruct (Hcur id Hid) as (w & Hw & Hrun).
  assert (Hbound : (id < length (workers st))%nat)
    by (by eapply lookup_lt_Some).
  assert (Hothers : forall j w', j <> id -> workers st !! j = Some w' ->
                                 isRunning w' = false).
  { intros j w' Hj Hw'. destruct (isRunning w') eqn:Hrun'; [|done].
    specialize (Hone j w' Hw' Hrun'). congruence. }
  split; [split|split]; unfold set_workers; fields.
  - intros j w' Hw' Hrun'.
    destruct (decide (j = id)) as [->|Hj].
    { rewrite list_lookup_alter_eq in Hw'.
      by apply fmap_Some in Hw' as (w0 & _ & ->). }
    rewrite list_lookup_alter_ne in Hw' by done.
    destruct Hchange as [[Hws _] | (wn & Hws & _ & _ & Hcurrent)];
      rewrite Hws in Hw'.
    + by rewrite (Hothers j w' Hj Hw') in Hrun'.
    + apply lookup_app_Some in Hw' as [Hold | [Hlen Hnew]].
      * by rewrite (Hothers j w' Hj Hold) in Hrun'.
      * rewrite Hcurrent. f_equal.
        apply lookup_lt_Some in Hnew. simpl in Hnew. lia.
  - intros j Hj.
    destruct Hchange as [[_ Hnone] | (wn & Hws & Hrunning & _ & Hcurrent)];
      [congruence|].
    rewrite Hcurrent in Hj. injection Hj as <-.
    exists wn. split; [|done].
    rewrite list_lookup_alter_ne by lia.
    rewrite Hws. by apply list_lookup_middle.
  - assert (Hknown2 : Forall (fun w => query w \/ action w) (workers st2)).
    { destruct Hchange as [[Hws _] | (wn & Hws & _ & Hwn & _)];
        rewrite Hws; [done|].
      apply Forall_app_2; [done | by constructor]. }
    apply Forall_alter; [done|].
    intros w0 _ Hw0. by apply known_after_exit.
  - by eapply grows_quiet.
Qed.

(** The end of the worker in flight keeps the window in order. *)
Lemma complete_worker_in_order (o : Outcome) (st st' : State) :
  in_order st -> complete_worker o st = Ok st' -> in_order st'.
Proof.
  intros Horder. unfold complete_worker.
  destruct (current_worker st) as [id|] eqn:Hid; [|by intros [= <-]].
  destruct (workers st !! id) as [w|] eqn:Hw; [|by intros [= <-]].
  destruct o as [data|error_msg]; cbn [signals_of deliver_all].
  - unfold seq.
    destruct (deliver id (sig_result data) st) as [st1| |] eqn:Hresult;
      [|done..].
    destruct (deliver_data id (sig_result data) st st1 eq_refl Hresult)
      as (Hgrows1 & Hws1 & Hcur1 & _).
    unfold deliver. rewrite Hws1, Hw.
    destruct (finished_slot_starts (finished_slot w) (callback_arg w) st1)
      as (st2 & -> & Hgrows2 & _ & _ & Hchange).
    unfold skip. apply (thread_exit_in_order id st st2); try done.
    + by eapply grows_trans.
    + unfold starts in *. by rewrite <- Hws1.
  - unfold seq. unfold deliver. rewrite Hw.
    destruct (decide (error_msg = EmptyString)) as [->|Hne].
    { by destruct (error_slot_empty (error_slot w) (callback_arg w) st)
        as [st1 ->]. }
    destruct (error_slot_starts (error_slot w) error_msg (callback_arg w) st
                Hne) as (st2 & -> & Hgrows2 & Hchange).
    unfold skip. by apply (thread_exit_in_order id st st2).
Qed.

Lemma handle_in_order (atom_pattern : string -> option string) (e : Event)
    (st st' : State) :
  in_order st -> handle atom_pattern e st = Ok st' -> in_order st'.
Proof.
  intros Horder Hrun. destruct (user_action e) eqn:Huser.
  - destruct (user_action_keeps_or_starts atom_pattern e st Huser)
      as (st1 & Hrun1 & Hkeeps).
    rewrite Hrun1 in Hrun. injection Hrun as <-.
    by eapply keeps_or_starts_in_order.
  - destruct e; try done. by eapply complete_worker_in_order.
Qed.

Lemma run_events_in_order (atom_pattern : string -> option string)
    (events : list Event) (st st' : State) :
  in_order st -> run_events atom_pattern events st = Ok st' -> in_order st'.
Proof.
  revert st. induction events as [|e events IH]; intros st Horder.
  { by intros [= <-]. }
  cbn [run_events]. unfold seq.
  destruct (handle atom_pattern e st) as [st1| |] eqn:Hrun; [|done..].
  apply IH. by eapply handle_in_order.
Qed.

Lemma loading_installed_in_order : in_order loading_installed.
Proof.
  split; [split|split].
  - intros [|id] w; [|done]. by intros [= <-].
  - intros id [= <-]. by eexists.
  - apply Forall_cons_2; [left; apply query_installed | constructor].
  - unfold loading_installed, created. fields. quiet_calls.
Qed.

(** In every state the window reaches from its start without a slot
    raising, [run_generic_task] has never found a worker running: the
    conflict warning was never printed, although the user may have clicked
    on anything at any time. *)
Theorem conflict_warning_is_never_printed
    (atom_pattern : string -> option string) (events : list Event)
    (st : State) :
  run_events atom_pattern events loading_installed = Ok st ->
  forall text,
    Print text ∈ ui st ->
    startswith "Warning: Tried to start task" text = false.
Proof.
  intros Hrun text Hin.
  destruct (run_events_in_order atom_pattern events loading_installed st
              loading_installed_in_order Hrun) as (_ & _ & Hquiet).
  rewrite Forall_forall in Hquiet. exact (Hquiet _ Hin).
Qed.

Lemma conflict_warning_is_never_printed_witness :
  exists st,
    run_events (fun _ => None)
      [click_refresh;
       worker_ends (Fails "Command failed with exit code 1.");
       click_update_all true;
       worker_ends (Succeeds (PLines []))]
      loading_installed = Ok st
    /\ forall text,
         Print text ∈ ui st ->
         startswith "Warning: Tried to start task" text = false.
Proof.
  eexists. split; [vm_compute; reflexivity|].
  apply (conflict_warning_is_never_printed (fun _ => None)
           [click_refresh;
            worker_ends (Fails "Command failed with exit code 1.");
            click_update_all true;
            worker_ends (Succeeds (PLines []))]).
  vm_compute. reflexivity.
Defined.

(** The window runs nothing but its three queries, without pkexec, and
    [emerge] for an action, under pkexec and with [--ask=n] unless it is the
    sync: in every state reached from the start without a slot raising,
    every worker created is one of these; no command list is empty, and each
    worker reports to the slots of its own step. *)
Theorem only_known_commands_run (atom_pattern : string -> option string)
    (events : list Event) (st : State) :
  run_events atom_pattern events loading_installed = Ok st ->
  Forall (fun w =>
            (query w \/ action w)
            /\ command_list w <> []
            /\ (forall use_pkexec,
                  worker_class w = CommandWorker use_pkexec ->
                  use_pkexec = true
                  /\ head (command_list w) = Some "emerge"
                  /\ (command_list w = ["emerge"; "--sync"]
                      \/ exists rest,
                           command_list w
                           = ["emerge"; "--ask=n"; "--verbose"] ++ rest)))
         (workers st).
Proof.
  intros Hrun.
  destruct (run_events_in_order atom_pattern events loading_installed st
              loading_installed_in_order Hrun) as (_ & Hknown & _).
  eapply Forall_impl; [exact Hknown|].
  intros w [Hquery | Haction].
  - split; [by left|].
    destruct Hquery as (parser_func & on_result & Hclass & _ & Hcommand).
    split.
    + by destruct Hcommand as [(-> & _) | [(-> & _) | (-> & _)]].
    + intros use_pkexec Hcommand_worker. congruence.
  - split; [by right|].
    destruct Haction as (Hclass & _ & _ & Hcommand).
    assert (Hshape :
      command_list w = ["emerge"; "--sync"]
      \/ exists rest,
           command_list w = ["emerge"; "--ask=n"; "--verbose"] ++ rest).
    { destruct Hcommand as [[-> _] | (flags & targets & -> & _)];
        [by left | right; by eexists]. }
    split; [by destruct Hshape as [-> | [rest ->]]|].
    intros use_pkexec Hcommand_worker.
    split; [congruence|].
    split; [by destruct Hshape as [-> | [rest ->]] | done].
Qed.

Lemma only_known_commands_run_witness :
  exists st,
    run_events (fun _ => None)
      [worker_ends (Fails msg_cancelled);
       click_install ["app-misc/foo"; "no atom here"] true]
      loading_installed = Ok st
    /\ commands st = [["equery"; "list"; "--installed"; "*/*"];
                      ["emerge"; "--ask=n"; "--verbose"; "app-misc/foo"]]
    /\ Forall (fun w =>
                 (query w \/ action w)
                 /\ command_list w <> []
                 /\ (forall use_pkexec,
                       worker_class w = CommandWorker use_pkexec ->
                       use_pkexec = true
                       /\ head (command_list w) = Some "emerge"
                       /\ (command_list w = ["emerge"; "--sync"]
                           \/ exists rest,
                                command_list w
                                = ["emerge"; "--ask=n"; "--verbose"]
                                  ++ rest)))
              (workers st).
Proof.
  eexists. split; [vm_compute; reflexivity|].
  split; [vm_compute; reflexivity|].
  apply (only_known_commands_run (fun _ => None)
           [worker_ends (Fails msg_cancelled);
            click_install ["app-misc/foo"; "no atom here"] true]).
  vm_compute. reflexivity.
Defined.

(** While a worker is running no action of the user starts another one,
    releases the one in flight or touches the package data: every button
    returns, at most with a dialog. *)
Theorem busy_window_starts_nothing (atom_pattern : string -> option string)
    (e : Event) (st : State) :
  busy st = true ->
  user_action e = true ->
  exists st',
    handle atom_pattern e st = Ok st'
    /\ workers st' = workers st
    /\ current_worker st' = current_worker st
    /\ same_data st st'
    /\ busy st' = true.
Proof.
  intros Hbusy Huser.
  destruct (user_action_keeps_or_starts atom_pattern e st Huser)
    as (st' & Hrun & _ & Hdata & [[Hws Hcur] | [Hidle _]]); [|congruence].
  exists st'. split; [done|]. split; [done|]. split; [done|].
  split; [done|]. unfold busy in *. by rewrite Hws, Hcur.
Qed.

Lemma busy_window_starts_nothing_witness :
  exists st',
    handle (fun _ => None) (click_uninstall ["app-misc/foo-1.0"] true)
      loading_installed = Ok st'
    /\ workers st' = workers loading_installed
    /\ current_worker st' = current_worker loading_installed
    /\ same_data loading_installed st'
    /\ busy st' = true.
Proof.
  apply (busy_window_starts_nothing (fun _ => None)
           (click_uninstall ["app-misc/foo-1.0"] true) loading_installed).
  - reflexivity.
  - reflexivity.
Defined.

(** ** From the output of a process to the window *)

(** The run of a worker whose process is not stopped, closes its output and
    exits. *)
Lemma exited_run (p : Process) (cb : CallbackArg) (before : list Signal)
    (on_exit : Z -> string -> Run) (returncode : Z) (stderr_output : string) :
  launch p = Spawned -> stdout_eof p = true ->
  running p (length (stdout p)) = true ->
  stderr p = Some stderr_output -> wait p = Exited returncode ->
  read_loop p 0 (stdout p) = (stdout p, false)
  /\ after_stdout p cb before false (length (stdout p) + 0) on_exit
     = {| emitted := before ++ emitted (on_exit returncode stderr_output);
          killed := killed (on_exit returncode stderr_output);
          ending := ending (on_exit returncode stderr_output) |}.
Proof.
  intros Hlaunch Heof Hrunning Hstderr Hwait.
  destruct (read_loop_spec p)
    as (passed & broke & Hloop & _ & Hall & _ & Hbroke).
  specialize (Hbroke Hrunning). subst broke. specialize (Hall eq_refl).
  subst passed. split; [done|].
  unfold after_stdout. by rewrite Heof, Nat.add_0_r, Hrunning, Hstderr, Hwait.
Qed.

Lemma generic_clean_run (command : list string)
    (parse : list string -> string + Payload) (cb : CallbackArg)
    (p : Process) (data : Payload) :
  clean_exit p ->
  parse (strip <$> stdout p) = inr data ->
  GenericWorker_run command (Some parse) cb p
  = returns [sig_result data; sig_finished cb].
Proof.
  intros (Hlaunch & Heof & Hrunning & [stderr_output Hstderr] & Hwait) Hparse.
  unfold GenericWorker_run. rewrite Hlaunch.
  edestruct (exited_run p cb []) as [-> ->]; try done.
  by rewrite Hparse.
Qed.

Lemma command_clean_run (command : list string) (use_pkexec : bool)
    (cb : CallbackArg) (p : Process) :
  (use_pkexec = true -> pkexec_found p = true) ->
  clean_exit p ->
  CommandWorker_run command use_pkexec cb p
  = returns (((fun line => sig_progress (strip line)) <$> stdout p)
             ++ [sig_result (PText "Command finished successfully.");
                 sig_finished cb]).
Proof.
  intros Hfound (Hlaunch & Heof & Hrunning & [stderr_output Hstderr] & Hwait).
  unfold CommandWorker_run.
  assert (use_pkexec && negb (pkexec_found p) = false) as ->.
  { destruct use_pkexec; [|done]. by rewrite Hfound. }
  rewrite Hlaunch.
  edestruct (exited_run p cb) as [-> ->]; done.
Qed.

Lemma command_failed_run (command : list string) (use_pkexec : bool)
    (cb : CallbackArg) (p : Process) (returncode : Z)
    (stderr_output : string) :
  (use_pkexec = true -> pkexec_found p = true) ->
  launch p = Spawned -> stdout_eof p = true ->
  running p (length (stdout p)) = true ->
  stderr p = Some stderr_output -> wait p = Exited returncode ->
  returncode <> 0 ->
  CommandWorker_run command use_pkexec cb p
  = returns (((fun line => sig_progress (strip line)) <$> stdout p)
             ++ [sig_error
                   (msg_failed returncode
                      (if use_pkexec
                       then ["pkexec"; "--disable-internal-agent"] ++ command
                       else command) stderr_output) cb]).
Proof.
  intros Hfound Hlaunch Heof Hrunning Hstderr Hwait Hcode.
  unfold CommandWorker_run.
  assert (use_pkexec && negb (pkexec_found p) = false) as ->.
  { destruct use_pkexec; [|done]. by rewrite Hfound. }
  rewrite Hlaunch.
  edestruct (exited_run p cb) as [-> ->]; try done.
  by destruct (Z.eqb_spec returncode 0).
Qed.

(** The worker a state waits for is the query of its command. *)
Lemma waits_for_query (command : list string) (st : State) :
  waits_for command st ->
  head command <> Some "emerge" \/ command = ["emerge"; "-upvND"; "@world"] ->
  exists id w,
    current_worker st = Some id /\ workers st !! id = Some w
    /\ command_list w = command /\ query w /\ isRunning w = true
    /\ (id < length (workers st))%nat.
Proof.
  intros ((Hone & Hknown & _) & id & w & Hid & Hw & Hcommand) Hquery.
  exists id, w. split; [done|]. split; [done|]. split; [done|].
  rewrite Forall_lookup in Hknown.
  destruct Hone as [_ Hcur]. destruct (Hcur id Hid) as (w' & Hw' & Hrun).
  assert (w' = w) as -> by congruence.
  split; [|split; [done | by eapply lookup_lt_Some]].
  destruct (Hknown id w Hw) as [Hq | (_ & _ & _ & Haction)]; [done|].
  exfalso. rewrite Hcommand in Haction.
  destruct Haction as [[-> _] | (flags & targets & -> & Hflags & _)].
  - by destruct Hquery.
  - destruct Hquery as [Hhead | Hupdates]; [done|].
    by destruct Hflags as [-> | [-> | ->]].
Qed.

Lemma commands_after_exit (id : nat) (ws : list WorkerObj) :
  command_list
    <$> alter (fun w => {| worker_class := worker_class w;
                           command_list := command_list w;
                           callback_arg := callback_arg w;
                           finished_slot := finished_slot w;
                           error_slot := error_slot w;
                           isRunning := false |}) id ws
  = command_list <$> ws.
Proof.
  rewrite (list_fmap_alter command_list _ (fun c => c)).
  - by apply list_alter_id.
  - by apply Forall_forall.
Qed.

(** [process_ends] on a query whose process exits cleanly and whose parser
    returns is the delivery of a result and of [finished]. *)
Lemma process_ends_result
    (parse_updates : list string -> string + Payload) (p : Process)
    (st : State) (id : nat) (w : WorkerObj) (parser_func : Parser)
    (on_result : ResultSlot) (data : Payload) :
  current_worker st = Some id -> workers st !! id = Some w ->
  worker_class w = GenericWorker parser_func on_result ->
  clean_exit p ->
  parser_function parse_updates parser_func (strip <$> stdout p) = inr data ->
  process_ends parse_updates p st = complete_worker (Succeeds data) st.
Proof.
  intros Hid Hw Hclass Hclean Hparse.
  unfold process_ends, complete_worker, worker_run.
  rewrite Hid, Hw, Hclass.
  by rewrite (generic_clean_run _ _ _ _ data Hclean Hparse).
Qed.

Lemma parse_equery_installed_stripped (lines : list string) :
  StronglySorted String.le (parse_equery_installed (strip <$> lines))
  /\ Forall (fun x => strip x = x /\ contains "/" x = true
                      /\ startswith "[" x = false
                      /\ exists line, line ∈ lines /\ x = strip line)
            (parse_equery_installed (strip <$> lines)).
Proof.
  split.
  { unfold parse_equery_installed, sorted.
    apply StronglySorted_merge_sort; apply _. }
  unfold parse_equery_installed, sorted. rewrite merge_sort_Permutation.
  apply Forall_fmap, Forall_forall.
  intros x [Hx (line & -> & Hline)%list_elem_of_fmap]%list_elem_of_filter.
  simpl. rewrite !strip_idempotent.
  apply Is_true_true in Hx.
  apply andb_true_iff in Hx as [Hx Hslash].
  apply andb_true_iff in Hx as [_ Hbracket].
  split; [done|]. split; [done|].
  split; [by apply negb_true_iff in Hbracket | by exists line].
Qed.

(** A query ends with a result and its slots start the next worker: the
    window then waits for that worker. *)
Lemma query_result_goes_on (st st_result st_finished : State) (id : nat)
    (w new : WorkerObj) (parser_func : Parser) (on_result : ResultSlot)
    (data : Payload) :
  in_order st ->
  current_worker st = Some id -> workers st !! id = Some w ->
  worker_class w = GenericWorker parser_func on_result ->
  call_result_slot on_result data st = Ok st_result ->
  workers st_result = workers st ->
  call_finished_slot (finished_slot w) (callback_arg w) st_result
  = Ok st_finished ->
  workers st_finished = workers st ++ [new] ->
  current_worker st_finished = Some (length (workers st)) ->
  exists st',
    complete_worker (Succeeds data) st = Ok st'
    /\ waits_for (command_list new) st'
    /\ commands st' = commands st ++ [command_list new]
    /\ ui st' = ui st_finished
    /\ installed_packages st' = installed_packages st_finished
    /\ all_available_package_atoms st'
       = all_available_package_atoms st_finished
    /\ update_list_atoms st' = update_list_atoms st_finished
    /\ update_list_display st' = update_list_display st_finished.
Proof.
  intros Horder Hid Hw Hclass Hresult Hsame Hfinished Hws Hcur.
  pose proof (complete_worker_success id w parser_func on_result data st
                st_result st_finished Hid Hw Hclass Hresult Hsame Hfinished)
    as Hrun.
  unfold thread_exit in Hrun. eexists. split; [exact Hrun|].
  assert (Hbound : (id < length (workers st))%nat)
    by (by eapply lookup_lt_Some).
  split; [split|].
  - eapply complete_worker_in_order; [exact Horder | exact Hrun].
  - exists (length (workers st)), new. unfold set_workers. fields.
    split; [done|]. split; [|done].
    rewrite list_lookup_alter_ne by lia.
    rewrite Hws. by apply list_lookup_middle.
  - unfold commands, set_workers. fields.
    by rewrite commands_after_exit, Hws, fmap_app.
Qed.

(** The first load step, from the process to the window: when [equery]
    exits cleanly, the window stores the package lines of its output,
    stripped and sorted, without the lines that start with a bracket, puts
    their number in the title of the tab, leaves the other package data,
    the dialogs and the console as they were, and goes on to the query of
    the available packages. *)
Theorem installed_step_stores_the_parsed_output
    (parse_updates : list string -> string + Payload) (p : Process)
    (st : State) :
  waits_for ["equery"; "list"; "--installed"; "*/*"] st ->
  clean_exit p ->
  exists st',
    process_ends parse_updates p st = Ok st'
    /\ installed_packages st' = parse_equery_installed (strip <$> stdout p)
    /\ StronglySorted String.le (installed_packages st')
    /\ Forall (fun x => strip x = x /\ contains "/" x = true
                        /\ startswith "[" x = false
                        /\ exists line, line ∈ stdout p /\ x = strip line)
              (installed_packages st')
    /\ tab_text installed_tab_index st'
       = Some ("Installed Packages ("
               +:+ str_of_nat (length (installed_packages st')) +:+ ")")
    /\ all_available_package_atoms st' = all_available_package_atoms st
    /\ update_list_atoms st' = update_list_atoms st
    /\ waits_for ["eix"; "-c"; "--only-names"; "*/*"] st'
    /\ commands st' = commands st ++ [["eix"; "-c"; "--only-names"; "*/*"]]
    /\ dialogs st' = dialogs st /\ console st' = console st.
Proof.
  intros Hwaits Hclean.
  destruct (waits_for_query _ st Hwaits) as (id & w & Hid & Hw & Hcommand
    & (parser_func & on_result & Hclass & Hfinished & Hstep) & _ & _);
    [by left|].
  destruct Hstep as [(_ & -> & -> & Herror & Hcb) | [[Hc _] | [Hc _]]];
    [|congruence..].
  set (packages := parse_equery_installed (strip <$> stdout p)).
  rewrite (process_ends_result parse_updates p st id w
             parser_equery_installed slot_on_installed_result
             (PLines packages) Hid Hw Hclass Hclean eq_refl).
  edestruct (query_result_goes_on st) as (st' & -> & Hnext & Hcommands & Hui
    & Hinstalled & Havailable & Hatoms & _);
    [apply Hwaits | exact Hid | exact Hw | exact Hclass
     | apply on_installed_result_unfold | reflexivity
     | rewrite Hfinished, Hcb;
       cbn [call_finished_slot Handlers.call_finished_slot];
       rewrite generic_finished_unfold; by rewrite start_available_idle
     | reflexivity | reflexivity |].
  exists st'. split; [done|]. fields.
  destruct (parse_equery_installed_stripped (stdout p)) as [Hsorted Hclean'].
  rewrite Hinstalled, Havailable, Hatoms. fields.
  split; [done|]. split; [done|]. split; [done|].
  unfold dialogs, console, tab_text. rewrite Hui. fields.
  split; [reflexivity|].
  split; [done|]. split; [done|]. split; [exact Hnext|].
  split; [exact Hcommands|].
  split; by destruct (bool_decide (0 < length packages)%nat).
Qed.

(** The second load step, from the process to the window: when [eix] exits
    cleanly, the window stores the package lines of its output, stripped,
    sorted and without duplicates, puts their number in the title of the
    tab, leaves the other package data, the dialogs and the console as they
    were, and goes on to the check for updates. *)
Theorem available_step_stores_the_parsed_output
    (parse_updates : list string -> string + Payload) (p : Process)
    (st : State) :
  waits_for ["eix"; "-c"; "--only-names"; "*/*"] st ->
  clean_exit p ->
  exists st',
    process_ends parse_updates p st = Ok st'
    /\ all_available_package_atoms st' = parse_eix_output (strip <$> stdout p)
    /\ StronglySorted String.le (all_available_package_atoms st')
    /\ NoDup (all_available_package_atoms st')
    /\ (forall x, x ∈ all_available_package_atoms st'
                  <-> exists line, line ∈ stdout p
                                   /\ contains "/" line = true
                                   /\ x = strip line)
    /\ tab_text browse_tab_index st'
       = Some ("Browse Packages ("
               +:+ str_of_nat (length (all_available_package_atoms st'))
               +:+ ")")
    /\ installed_packages st' = installed_packages st
    /\ update_list_atoms st' = update_list_atoms st
    /\ waits_for ["emerge"; "-upvND"; "@world"] st'
    /\ commands st' = commands st ++ [["emerge"; "-upvND"; "@world"]]
    /\ dialogs st' = dialogs st /\ console st' = console st.
Proof.
  intros Hwaits Hclean.
  destruct (waits_for_query _ st Hwaits) as (id & w & Hid & Hw & Hcommand
    & (parser_func & on_result & Hclass & Hfinished & Hstep) & _ & _);
    [by left|].
  destruct Hstep as [[Hc _] | [(_ & -> & -> & Herror & Hcb) | [Hc _]]];
    [congruence| |congruence].
  set (packages := parse_eix_output (strip <$> stdout p)).
  rewrite (process_ends_result parse_updates p st id w
             parser_eix_output slot_on_load_available_result
             (PLines packages) Hid Hw Hclass Hclean eq_refl).
  edestruct (query_result_goes_on st) as (st' & -> & Hnext & Hcommands & Hui
    & Hinstalled & Havailable & Hatoms & _);
    [apply Hwaits | exact Hid | exact Hw | exact Hclass
     | apply on_load_available_result_unfold | reflexivity
     | rewrite Hfinished, Hcb;
       cbn [call_finished_slot Handlers.call_finished_slot];
       rewrite generic_finished_unfold; by rewrite start_updates_idle
     | reflexivity | reflexivity |].
  exists st'. split; [done|]. fields.
  destruct (parse_eix_output_sorted (strip <$> stdout p)) as [Hsorted Hnodup].
  rewrite Hinstalled, Havailable, Hatoms. fields.
  split; [done|]. split; [done|]. split; [done|].
  split.
  { intros x. unfold packages. rewrite parse_eix_output_elem. split.
    - intros (stripped & (line & -> & Hline)%list_elem_of_fmap & Hslash & ->).
      exists line. split; [done|].
      rewrite strip_idempotent. split; [|done].
      destruct (contains "/" line) eqn:Hl; [done|].
      by rewrite <- Hslash, strip_slash.
    - intros (line & Hline & Hslash & ->). exists (strip line).
      split; [by apply list_elem_of_fmap_2|].
      by rewrite strip_idempotent, strip_slash. }
  unfold dialogs, console, tab_text. rewrite Hui. fields.
  split; [reflexivity|].
  split; [done|]. split; [done|]. split; [exact Hnext|].
  split; [exact Hcommands|].
  split; by destruct (bool_decide (0 < length packages)%nat).
Qed.

(** ** The first line of a diagnostic *)

Lemma line_break_plain (a : ascii) (r : string) :
  (code a <? 128)%N = true ->
  between 10 13 a || between 28 30 a = false ->
  line_break (String a r) = 0%nat.
Proof.
  intros Hascii Hbreak. unfold line_break. rewrite Hbreak.
  assert (H194 : is_byte 194 a = false).
  { unfold is_byte. apply N.ltb_lt in Hascii. apply N.eqb_neq. lia. }
  assert (H226 : is_byte 226 a = false).
  { unfold is_byte. apply N.ltb_lt in Hascii. apply N.eqb_neq. lia. }
  rewrite H194, H226. simpl.
  destruct r as [|b [|c r]]; reflexivity.
Qed.

Lemma until_break_one_line (a rest : string) :
  one_line a = true -> until_break (a +:+ rest) = a +:+ until_break rest.
Proof.
  induction a as [|c a IH]; [done|].
  cbn [one_line]. intros [[Hascii Hbreak]%andb_true_iff Ha]%andb_true_iff.
  apply negb_true_iff in Hbreak.
  rewrite !append_cons. cbn [until_break].
  rewrite (line_break_plain c _ Hascii Hbreak). by rewrite IH.
Qed.

Lemma one_line_digits (d : Decimal.uint) :
  one_line (NilEmpty.string_of_uint d) = true.
Proof. induction d; simpl; done. Qed.

Lemma one_line_uint (d : Decimal.uint) :
  one_line (NilZero.string_of_uint d) = true.
Proof.
  unfold NilZero.string_of_uint. destruct d; try done; apply one_line_digits.
Qed.

Lemma one_line_str_of_Z (n : Z) : one_line (str_of_Z n) = true.
Proof.
  unfold str_of_Z, NilZero.string_of_int.
  destruct (Z.to_int n) as [d|d]; [apply one_line_uint|].
  cbn [one_line]. by rewrite one_line_uint.
Qed.

(** The first line of the diagnostic of a failed command holds its exit
    code and nothing else. *)
Lemma first_line_msg_failed (returncode : Z) (command : list string)
    (stderr_output : string) :
  until_break (msg_failed returncode command stderr_output)
  = "Command failed with exit code " +:+ str_of_Z returncode +:+ ".".
Proof.
  unfold msg_failed.
  rewrite (until_break_one_line "Command failed with exit code ") by done.
  rewrite (until_break_one_line (str_of_Z returncode))
    by apply one_line_str_of_Z.
  rewrite (until_break_one_line ".") by done.
  reflexivity.
Qed.

(** ** The end of an action *)

(** The progress signals of a command worker reach the console in order. *)
Lemma deliver_progress_lines (id : nat) (w : WorkerObj) (use_pkexec : bool)
    (lines : list string) (st : State) :
  workers st !! id = Some w ->
  worker_class w = CommandWorker use_pkexec ->
  exists st1,
    (forall rest,
       deliver_all id (((fun line => sig_progress (strip line)) <$> lines)
                       ++ rest) st
       = deliver_all id rest st1)
    /\ workers st1 = workers st /\ current_worker st1 = current_worker st
    /\ same_data st st1 /\ grows st st1
    /\ dialogs st1 = dialogs st /\ console st1 = console st
    /\ console_lines st1 = rev (strip <$> lines) ++ console_lines st.
Proof.
  intros Hw Hclass. revert st Hw.
  induction lines as [|line lines IH]; intros st Hw.
  { exists st. split; [done|]. split; [done|]. split; [done|].
    split; [done|]. split; [apply grows_refl | done]. }
  match goal with
  | |- context [deliver_all id _ st] =>
      destruct (IH {| workers := workers st;
                      current_worker := current_worker st;
                      installed_packages := installed_packages st;
                      all_available_package_atoms :=
                        all_available_package_atoms st;
                      update_list_atoms := update_list_atoms st;
                      update_list_display := update_list_display st;
                      ui := ConsoleEnsureCursorVisible
                            :: ConsoleProgress (strip line) :: ui st |} Hw)
        as (st1 & Hrest & Hws & Hcur & Hdata & Hgrows & Hd & Hc & Hlines)
  end.
  exists st1. split.
  { intros rest. rewrite <- Hrest. rewrite fmap_cons.
    cbn [app deliver_all]. unfold seq at 1. unfold deliver at 1.
    rewrite Hw, Hclass. unfold Handlers._command_progress.
    run_calls. reflexivity. }
  split; [done|]. split; [done|]. split; [done|].
  split; [eapply grows_trans; [|exact Hgrows]; grows_calls|].
  split; [done|]. split; [done|].
  rewrite Hlines. unfold console_lines. fields. cbn [omap].
  rewrite fmap_cons. cbn [rev]. by rewrite <- app_assoc.
Qed.

(** The worker a state waits for is the command worker of an action. *)
Lemma waits_for_action (command : list string) (st : State) :
  waits_for command st ->
  command = ["emerge"; "--sync"]
  \/ (exists rest, command = ["emerge"; "--ask=n"; "--verbose"] ++ rest) ->
  exists id w,
    current_worker st = Some id /\ workers st !! id = Some w
    /\ command_list w = command /\ action w
    /\ (id < length (workers st))%nat.
Proof.
  intros ((Hone & Hknown & _) & id & w & Hid & Hw & Hcommand) Hshape.
  exists id, w. split; [done|]. split; [done|]. split; [done|].
  split; [|by eapply lookup_lt_Some].
  rewrite Forall_lookup in Hknown.
  destruct (Hknown id w Hw) as [Hquery | Haction]; [|done].
  exfalso. destruct Hquery as (? & ? & _ & _ & Hstep).
  rewrite Hcommand in Hstep.
  destruct Hshape as [-> | [rest ->]];
    by destruct Hstep as [[? _] | [[? _] | [? _]]].
Qed.

Lemma thread_exit_started (id : nat) (st : State) (ws : list WorkerObj)
    (new : WorkerObj) :
  (id < length ws)%nat ->
  workers st = ws ++ [new] ->
  exists earlier,
    thread_exit id st
    = Ok {| workers := earlier ++ [new];
            current_worker := current_worker st;
            installed_packages := installed_packages st;
            all_available_package_atoms := all_available_package_atoms st;
            update_list_atoms := update_list_atoms st;
            update_list_display := update_list_display st;
            ui := ui st |}
    /\ length earlier = length ws
    /\ command_list <$> earlier = command_list <$> ws.
Proof.
  intros Hid Hws. eexists. split; [|split].
  - unfold thread_exit, set_workers. rewrite Hws.
    by rewrite alter_app_l by done.
  - by rewrite length_alter.
  - apply commands_after_exit.
Qed.

(** The result of a command worker reaches no slot; [finished] reaches the
    slot of the action. *)
Lemma deliver_command_finish (id : nat) (w : WorkerObj) (use_pkexec : bool)
    (data : Payload) (cb : CallbackArg) (st : State) :
  workers st !! id = Some w ->
  worker_class w = CommandWorker use_pkexec ->
  deliver_all id [sig_result data; sig_finished cb] st
  = call_finished_slot (finished_slot w) cb st.
Proof.
  intros Hw Hclass. cbn [deliver_all]. unfold seq at 1. unfold deliver at 1.
  rewrite Hw, Hclass. unfold seq, skip, deliver. rewrite Hw.
  by destruct (call_finished_slot (finished_slot w) cb st).
Qed.

Lemma sync_action_finished (cb_arg : CallbackArg) (st : State) :
  call_finished_slot (slot_command_action_finished (Some cb_sync_finished))
    cb_arg st
  = Ok {| workers :=
            workers st
            ++ [{| worker_class :=
                     GenericWorker parser_updates slot_on_updates_result;
                   command_list := ["emerge"; "-upvND"; "@world"];
                   callback_arg := Some LOAD_STEP_COMPLETE;
                   finished_slot := slot_generic_finished;
                   error_slot := slot_on_updates_error;
                   isRunning := true |}];
          current_worker := Some (length (workers st));
          installed_packages := installed_packages st;
          all_available_package_atoms := all_available_package_atoms st;
          update_list_atoms := update_list_atoms st;
          update_list_display := update_list_display st;
          ui := [CancelSetEnabled true; ProgressSetVisible true;
                 ProgressSetRange 0 0;
                 ShowMessage
                   "Checking for updates (emerge -upvND @world)..." 0;
                 ListAddItem update_package_list
                   "Checking for updates (emerge pretend)...";
                 ListClear update_package_list;
                 SetTabText update_tab_index "Updates (?)";
                 ShowMessage "Sync finished. Refreshing updates list..." 3000;
                 ConsoleEnsureCursorVisible;
                 ConsoleAppend (Gui.nl +:+ dashes 20 +:+ Gui.nl
                                +:+ "Operation finished successfully.");
                 CancelSetEnabled false; ProgressSetVisible false;
                 ShowMessage "Operation completed successfully." 5000]
                ++ ui st |}.
Proof.
  unfold call_finished_slot, Handlers.call_finished_slot.
  rewrite command_action_finished_unfold.
  unfold Handlers.call_finished_callback.
  rewrite sync_finished_unfold by done. fields. reflexivity.
Qed.

Lemma refresh_action_finished (cb_arg : CallbackArg) (st : State) :
  call_finished_slot
    (slot_command_action_finished (Some cb_action_requires_refresh))
    cb_arg st
  = Ok {| workers :=
            workers st
            ++ [{| worker_class :=
                     GenericWorker parser_equery_installed
                       slot_on_installed_result;
                   command_list := ["equery"; "list"; "--installed"; "*/*"];
                   callback_arg := Some LOAD_STEP_AVAILABLE;
                   finished_slot := slot_generic_finished;
                   error_slot := slot_on_installed_error;
                   isRunning := true |}];
          current_worker := Some (length (workers st));
          installed_packages := installed_packages st;
          all_available_package_atoms := all_available_package_atoms st;
          update_list_atoms := update_list_atoms st;
          update_list_display := update_list_display st;
          ui := [CancelSetEnabled true; ProgressSetVisible true;
                 ProgressSetRange 0 0;
                 ShowMessage "Loading installed packages..." 0;
                 ListAddItem installed_package_list
                   "Loading installed packages...";
                 ListClear installed_package_list;
                 SetTabText installed_tab_index "Installed Packages (?)";
                 SetTabText update_tab_index "Updates (?)";
                 SetTabText browse_tab_index "Browse Packages (?)";
                 SetTabText installed_tab_index "Installed Packages (?)";
                 ListAddItem update_package_list "Loading...";
                 ListClear update_package_list;
                 ListAddItem browse_package_list "Loading...";
                 ListClear browse_package_list;
                 ListAddItem installed_package_list "Loading...";
                 ListClear installed_package_list;
                 ShowMessage "Starting full refresh sequence..." 0;
                 ShowMessage "Operation finished. Refreshing all lists..."
                   3000;
                 ConsoleEnsureCursorVisible;
                 ConsoleAppend (Gui.nl +:+ dashes 20 +:+ Gui.nl
                                +:+ "Operation finished successfully.");
                 CancelSetEnabled false; ProgressSetVisible false;
                 ShowMessage "Operation completed successfully." 5000]
                ++ ui st |}.
Proof.
  unfold call_finished_slot, Handlers.call_finished_slot.
  rewrite command_action_finished_unfold.
  unfold Handlers.call_finished_callback.
  rewrite action_requires_refresh_idle by done.
  rewrite refresh_all_idle by done. fields. reflexivity.
Qed.

(** The window after the slots of an action that ended have started the
    worker [new] and the thread of the action has ended. *)
Lemma action_goes_on (id : nat) (st st1 st2 : State) (new : WorkerObj) :
  in_order st -> current_worker st = Some id ->
  (id < length (workers st))%nat ->
  workers st1 = workers st -> grows st st1 -> grows st1 st2 ->
  workers st2 = workers st1 ++ [new] ->
  current_worker st2 = Some (length (workers st1)) ->
  isRunning new = true -> query new ->
  exists st' earlier,
    thread_exit id st2 = Ok st'
    /\ workers st' = earlier ++ [new]
    /\ current_worker st' = Some (length earlier)
    /\ waits_for (command_list new) st'
    /\ commands st' = commands st ++ [command_list new]
    /\ ui st' = ui st2
    /\ same_data st2 st'.
Proof.
  intros Horder Hid Hbound Hws1 Hgrows1 Hgrows2 Hws2 Hcur2 Hrun Hquery.
  destruct (thread_exit_started id st2 (workers st1) new)
    as (earlier & Hexit & Hlen & Hcmds); [by rewrite Hws1 | done|].
  eexists _, earlier. split; [exact Hexit|]. fields.
  split; [done|]. split; [by rewrite Hcur2, Hlen|].
  split; [split|].
  - apply (thread_exit_in_order id st st2 _ Horder Hid);
      [by eapply grows_trans | | exact Hexit].
    right. exists new. rewrite <- Hws1. by repeat split; try left.
  - exists (length earlier), new. fields.
    split; [by rewrite Hcur2, Hlen|].
    split; [by apply list_lookup_middle | done].
  - split; [|done].
    unfold commands. fields. by rewrite fmap_app, Hcmds, Hws1.
Qed.

(** An action that succeeds, from the process to the window: the lines of
    the output reach the console in order, the success is logged without a
    dialog, the package data stay, and a reload follows: after a sync the
    check for updates alone, after any other action the whole loading
    chain from its first step. *)
Theorem finished_action_reloads
    (parse_updates : list string -> string + Payload) (p : Process)
    (command : list string) (st : State) :
  waits_for command st ->
  command = ["emerge"; "--sync"]
  \/ (exists rest, command = ["emerge"; "--ask=n"; "--verbose"] ++ rest) ->
  pkexec_found p = true ->
  clean_exit p ->
  exists st',
    process_ends parse_updates p st = Ok st'
    /\ console_lines st' = rev (strip <$> stdout p) ++ console_lines st
    /\ console st'
       = (Gui.nl +:+ dashes 20 +:+ Gui.nl
          +:+ "Operation finished successfully.") :: console st
    /\ dialogs st' = dialogs st
    /\ same_data st st'
    /\ (command = ["emerge"; "--sync"] ->
        awaiting ["emerge"; "-upvND"; "@world"] slot_on_updates_result
          slot_on_updates_error LOAD_STEP_COMPLETE st'
        /\ waits_for ["emerge"; "-upvND"; "@world"] st'
        /\ commands st' = commands st ++ [["emerge"; "-upvND"; "@world"]])
    /\ (command <> ["emerge"; "--sync"] ->
        awaiting ["equery"; "list"; "--installed"; "*/*"]
          slot_on_installed_result slot_on_installed_error
          LOAD_STEP_AVAILABLE st'
        /\ waits_for ["equery"; "list"; "--installed"; "*/*"] st'
        /\ commands st'
           = commands st ++ [["equery"; "list"; "--installed"; "*/*"]]).
Proof.
  intros Hwaits Hshape Hfound Hclean.
  destruct (waits_for_action command st Hwaits Hshape)
    as (id & w & Hid & Hw & Hcommand & Haction & Hbound).
  pose proof Haction as (Hclass & Hcb & Herror & Hfinished).
  destruct (deliver_progress_lines id w true (stdout p) st Hw Hclass)
    as (st1 & Hrest & Hws1 & Hcur1 & Hdata1 & Hgrows1 & Hd1 & Hc1 & Hlines1).
  assert (Hrun : process_ends parse_updates p st
                 = (call_finished_slot (finished_slot w) None;;
                    thread_exit id) st1).
  { unfold process_ends, worker_run. rewrite Hid, Hw, Hclass.
    rewrite (command_clean_run _ true _ p (fun _ => Hfound) Hclean).
    cbn [emitted ending returns]. unfold seq at 1. rewrite Hrest.
    rewrite (deliver_command_finish id w true _ _ st1)
      by (by rewrite ?Hws1).
    by rewrite Hcb. }
  rewrite Hrun. unfold seq. clear Hrun Hrest.
  destruct Hdata1 as (Hi1 & Ha1 & Hu1 & Hv1).
  destruct Hfinished as [[Hsync Hslot]
                        | (flags & targets & Hemerge & Hflags & _ & Hslot)].
  - rewrite Hslot, sync_action_finished.
    edestruct (action_goes_on id st st1) as (st' & earlier & -> & Hws' & Hcur'
      & Hnext & Hcommands & Hui & Hi' & Ha' & Hu' & Hv');
      [apply Hwaits | exact Hid | exact Hbound | exact Hws1 | exact Hgrows1
       | | reflexivity | reflexivity | reflexivity | apply query_updates |];
      [grows_calls|].
    exists st'. split; [done|].
    split; [rewrite <- Hlines1; unfold console_lines; by rewrite Hui|].
    split; [rewrite <- Hc1; unfold console; by rewrite Hui|].
    split; [rewrite <- Hd1; unfold dialogs; by rewrite Hui|].
    split.
    { unfold same_data. rewrite Hi', Ha', Hu', Hv'. fields.
      exact (conj Hi1 (conj Ha1 (conj Hu1 Hv1))). }
    split; [|intros Hne; destruct Hne; by rewrite <- Hcommand].
    intros _. split; [|done].
    eexists _, _, earlier. by split.
  - assert (Hnot : command <> ["emerge"; "--sync"]).
    { intros Hsync. rewrite Hcommand, Hsync in Hemerge.
      destruct Hflags as [-> | [-> | ->]]; simpl in Hemerge;
        discriminate Hemerge. }
    rewrite Hslot, refresh_action_finished.
    edestruct (action_goes_on id st st1) as (st' & earlier & -> & Hws' & Hcur'
      & Hnext & Hcommands & Hui & Hi' & Ha' & Hu' & Hv');
      [apply Hwaits | exact Hid | exact Hbound | exact Hws1 | exact Hgrows1
       | | reflexivity | reflexivity | reflexivity | apply query_installed |];
      [grows_calls|].
    exists st'. split; [done|].
    split; [rewrite <- Hlines1; unfold console_lines; by rewrite Hui|].
    split; [rewrite <- Hc1; unfold console; by rewrite Hui|].
    split; [rewrite <- Hd1; unfold dialogs; by rewrite Hui|].
    split.
    { unfold same_data. rewrite Hi', Ha', Hu', Hv'. fields.
      exact (conj Hi1 (conj Ha1 (conj Hu1 Hv1))). }
    split; [intros Hsync; by destruct Hnot|].
    intros _. split; [|done].
    eexists _, _, earlier. by split.
Qed.

Lemma idle_no_running (st : State) :
  one_at_a_time st -> current_worker st = None -> running_workers st = [].
Proof.
  intros [Hone _] Hnone. unfold running_workers.
  induction (workers st) as [|w ws IH] using rev_ind; [done|].
  rewrite filter_app. rewrite IH.
  - rewrite filter_cons_False; [done|].
    intros Hrun. apply Is_true_true in Hrun.
    specialize (Hone (length ws) w (list_lookup_middle ws [] w _ eq_refl)
                  Hrun).
    congruence.
  - intros id w' Hw'. apply Hone. by apply lookup_app_l_Some.
Qed.

(** An action whose command fails, from the process to the window: the
    dialog shows the exit code and nothing of what the command wrote, which
    goes to the console with the command line; the busy indicators go down,
    no reload follows and the package data stay. *)
Theorem failed_action_shows_the_exit_code
    (parse_updates : list string -> string + Payload) (p : Process)
    (command : list string) (returncode : Z) (stderr_output : string)
    (st : State) :
  waits_for command st ->
  command = ["emerge"; "--sync"]
  \/ (exists rest, command = ["emerge"; "--ask=n"; "--verbose"] ++ rest) ->
  pkexec_found p = true ->
  failed_exit p returncode stderr_output ->
  contains "Operation Cancelled"
    (msg_failed returncode
       (["pkexec"; "--disable-internal-agent"] ++ command) stderr_output)
  = false ->
  exists st',
    process_ends parse_updates p st = Ok st'
    /\ dialogs st'
       = ("Operation Failed:" +:+ Gui.nl
          +:+ ("Command failed with exit code " +:+ str_of_Z returncode
               +:+ ".")
          +:+ "..." +:+ Gui.nl +:+ Gui.nl
          +:+ "See Output Console for details.") :: dialogs st
    /\ console st'
       = (Gui.nl +:+ dashes 20 +:+ Gui.nl +:+ "ERROR:" +:+ Gui.nl
          +:+ msg_failed returncode
                (["pkexec"; "--disable-internal-agent"] ++ command)
                stderr_output) :: console st
    /\ status_message st'
       = Some ("Operation failed: Command failed with exit code "
               +:+ str_of_Z returncode +:+ ".")
    /\ console_lines st' = rev (strip <$> stdout p) ++ console_lines st
    /\ stopped st'
    /\ running_workers st' = []
    /\ commands st' = commands st
    /\ same_data st st'.
Proof.
  intros Hwaits Hshape Hfound
    (Hlaunch & Heof & Hrunning & Hstderr & Hwait & Hcode) Hcancel.
  destruct (waits_for_action command st Hwaits Hshape)
    as (id & w & Hid & Hw & Hcommand & Haction & Hbound).
  pose proof Haction as (Hclass & Hcb & Herror & _).
  destruct (deliver_progress_lines id w true (stdout p) st Hw Hclass)
    as (st1 & Hrest & Hws1 & Hcur1 & Hdata1 & Hgrows1 & Hd1 & Hc1 & Hlines1).
  set (diagnostic :=
         msg_failed returncode
           (["pkexec"; "--disable-internal-agent"] ++ command) stderr_output)
    in *.
  assert (Hne : diagnostic <> EmptyString) by apply msg_failed_nonempty.
  pose proof (command_action_error_failure diagnostic st1 Hne Hcancel)
    as Hslot.
  unfold diagnostic in Hslot at 2 3.
  rewrite first_line_msg_failed in Hslot.
  match type of Hslot with
  | _ = Ok ?s => set (st2 := s) in Hslot
  end.
  assert (Hrun : process_ends parse_updates p st = thread_exit id st2).
  { unfold process_ends, worker_run. rewrite Hid, Hw, Hclass, Hcommand.
    rewrite (command_failed_run command true _ p returncode stderr_output
               (fun _ => Hfound) Hlaunch Heof Hrunning Hstderr Hwait Hcode).
    cbn [emitted ending returns]. unfold seq at 1. rewrite Hrest.
    cbn [deliver_all]. unfold seq, skip, deliver.
    rewrite Hws1, Hw, Herror, Hcb.
    unfold call_error_slot, Handlers.call_error_slot.
    fold diagnostic. by rewrite Hslot. }
  rewrite Hrun. eexists. split; [reflexivity|].
  assert (Horder : in_order (set_workers
                               (alter (fun w => {| worker_class := worker_class w;
                                                   command_list := command_list w;
                                                   callback_arg := callback_arg w;
                                                   finished_slot := finished_slot w;
                                                   error_slot := error_slot w;
                                                   isRunning := false |})
                                      id (workers st2)) st2)).
  { apply (thread_exit_in_order id st st2); try done.
    - apply Hwaits.
    - eapply grows_trans; [exact Hgrows1|]. unfold st2. grows_calls.
    - by left. }
  destruct Hdata1 as (Hi1 & Ha1 & Hu1 & Hv1).
  split; [by rewrite <- Hd1|]. split; [by rewrite <- Hc1|].
  split; [done|]. split; [by rewrite <- Hlines1|].
  split; [done|].
  split; [by apply idle_no_running; [apply Horder|]|].
  split; [|exact (conj Hi1 (conj Ha1 (conj Hu1 Hv1)))].
  unfold commands, set_workers, st2. fields.
  by rewrite commands_after_exit, Hws1.
Qed.

Lemma installed_step_stores_the_parsed_output_witness :
  exists st',
    process_ends (fun _ => inl EmptyString) successful_process
      loading_installed = Ok st'
    /\ installed_packages st'
       = parse_equery_installed (strip <$> stdout successful_process)
    /\ StronglySorted String.le (installed_packages st')
    /\ Forall (fun x => strip x = x /\ contains "/" x = true
                        /\ startswith "[" x = false
                        /\ exists line, line ∈ stdout successful_process
                                        /\ x = strip line)
              (installed_packages st')
    /\ tab_text installed_tab_index st'
       = Some ("Installed Packages ("
               +:+ str_of_nat (length (installed_packages st')) +:+ ")")
    /\ all_available_package_atoms st'
       = all_available_package_atoms loading_installed
    /\ update_list_atoms st' = update_list_atoms loading_installed
    /\ waits_for ["eix"; "-c"; "--only-names"; "*/*"] st'
    /\ commands st'
       = commands loading_installed ++ [["eix"; "-c"; "--only-names"; "*/*"]]
    /\ dialogs st' = dialogs loading_installed
    /\ console st' = console loading_installed.
Proof.
  apply (installed_step_stores_the_parsed_output
           (fun _ => inl EmptyString) successful_process loading_installed).
  - split; [apply loading_installed_in_order|].
    exists 0%nat. eexists. split; [reflexivity|]. split; reflexivity.
  - split; [reflexivity|]. split; [reflexivity|]. split; [reflexivity|].
    split; [eexists; reflexivity | reflexivity].
Defined.

Lemma available_step_stores_the_parsed_output_witness :
  exists st,
    run_events (fun _ => None)
      [worker_ends (Succeeds (PLines ["app-misc/foo-1.0"]))]
      loading_installed = Ok st
    /\ exists st',
         process_ends (fun _ => inl EmptyString) successful_process st
         = Ok st'
         /\ all_available_package_atoms st'
            = parse_eix_output (strip <$> stdout successful_process)
         /\ StronglySorted String.le (all_available_package_atoms st')
         /\ NoDup (all_available_package_atoms st')
         /\ (forall x, x ∈ all_available_package_atoms st'
                       <-> exists line, line ∈ stdout successful_process
                                        /\ contains "/" line = true
                                        /\ x = strip line)
         /\ tab_text browse_tab_index st'
            = Some ("Browse Packages ("
                    +:+ str_of_nat (length (all_available_package_atoms st'))
                    +:+ ")")
         /\ installed_packages st' = installed_packages st
         /\ update_list_atoms st' = update_list_atoms st
         /\ waits_for ["emerge"; "-upvND"; "@world"] st'
         /\ commands st' = commands st ++ [["emerge"; "-upvND"; "@world"]]
         /\ dialogs st' = dialogs st /\ console st' = console st.
Proof.
  eexists. split; [vm_compute; reflexivity|].
  apply (available_step_stores_the_parsed_output
           (fun _ => inl EmptyString) successful_process).
  - split.
    + apply (run_events_in_order (fun _ => None)
               [worker_ends (Succeeds (PLines ["app-misc/foo-1.0"]))]
               loading_installed);
        [apply loading_installed_in_order | vm_compute; reflexivity].
    + exists 1%nat. eexists. split; [reflexivity|]. split; reflexivity.
  - split; [reflexivity|]. split; [reflexivity|]. split; [reflexivity|].
    split; [eexists; reflexivity | reflexivity].
Defined.

Lemma finished_action_reloads_witness :
  exists st,
    run_events (fun _ => None)
      [worker_ends (Fails msg_cancelled); click_sync true]
      loading_installed = Ok st
    /\ exists st',
         process_ends (fun _ => inl EmptyString) successful_process st
         = Ok st'
         /\ console_lines st'
            = rev (strip <$> stdout successful_process) ++ console_lines st
         /\ console st'
            = (Gui.nl +:+ dashes 20 +:+ Gui.nl
               +:+ "Operation finished successfully.") :: console st
         /\ dialogs st' = dialogs st
         /\ same_data st st'
         /\ (["emerge"; "--sync"] = ["emerge"; "--sync"] ->
             awaiting ["emerge"; "-upvND"; "@world"] slot_on_updates_result
               slot_on_updates_error LOAD_STEP_COMPLETE st'
             /\ waits_for ["emerge"; "-upvND"; "@world"] st'
             /\ commands st'
                = commands st ++ [["emerge"; "-upvND"; "@world"]])
         /\ (["emerge"; "--sync"] <> ["emerge"; "--sync"] ->
             awaiting ["equery"; "list"; "--installed"; "*/*"]
               slot_on_installed_result slot_on_installed_error
               LOAD_STEP_AVAILABLE st'
             /\ waits_for ["equery"; "list"; "--installed"; "*/*"] st'
             /\ commands st'
                = commands st
                  ++ [["equery"; "list"; "--installed"; "*/*"]]).
Proof.
  eexists. split; [vm_compute; reflexivity|].
  apply (finished_action_reloads
           (fun _ => inl EmptyString) successful_process
           ["emerge"; "--sync"]).
  - split.
    + apply (run_events_in_order (fun _ => None)
               [worker_ends (Fails msg_cancelled); click_sync true]
               loading_installed);
        [apply loading_installed_in_order | vm_compute; reflexivity].
    + exists 1%nat. eexists. split; [reflexivity|]. split; reflexivity.
  - left. reflexivity.
  - reflexivity.
  - split; [reflexivity|]. split; [reflexivity|]. split; [reflexivity|].
    split; [eexists; reflexivity | reflexivity].
Defined.

Lemma failed_action_shows_the_exit_code_witness :
  exists st,
    run_events (fun _ => None)
      [worker_ends (Fails msg_cancelled); click_sync true]
      loading_installed = Ok st
    /\ exists st',
         process_ends (fun _ => inl EmptyString) failing_process st = Ok st'
         /\ dialogs st'
            = ("Operation Failed:" +:+ Gui.nl
               +:+ ("Command failed with exit code " +:+ str_of_Z 1 +:+ ".")
               +:+ "..." +:+ Gui.nl +:+ Gui.nl
               +:+ "See Output Console for details.") :: dialogs st
         /\ console st'
            = (Gui.nl +:+ dashes 20 +:+ Gui.nl +:+ "ERROR:" +:+ Gui.nl
               +:+ msg_failed 1
                     (["pkexec"; "--disable-internal-agent"]
                      ++ ["emerge"; "--sync"])
                     "emerge: superuser access is required.") :: console st
         /\ status_message st'
            = Some ("Operation failed: Command failed with exit code "
                    +:+ str_of_Z 1 +:+ ".")
         /\ console_lines st'
            = rev (strip <$> stdout failing_process) ++ console_lines st
         /\ stopped st'
         /\ running_workers st' = []
         /\ commands st' = commands st
         /\ same_data st st'.
Proof.
  eexists. split; [vm_compute; reflexivity|].
  apply (failed_action_shows_the_exit_code
           (fun _ => inl EmptyString) failing_process
           ["emerge"; "--sync"] 1 "emerge: superuser access is required.").
  - split.
    + apply (run_events_in_order (fun _ => None)
               [worker_ends (Fails msg_cancelled); click_sync true]
               loading_installed);
        [apply loading_installed_in_order | vm_compute; reflexivity].
    + exists 1%nat. eexists. split; [reflexivity|]. split; reflexivity.
  - left. reflexivity.
  - reflexivity.
  - split; [reflexivity|]. split; [reflexivity|]. split; [reflexivity|].
    split; [reflexivity|]. split; [reflexivity | discriminate].
  - vm_compute. reflexivity.
Defined.

(** ** The selected packages *)

Lemma selected_atoms_fold (atom_pattern : string -> option string)
    (items : list string) (acc : gset string) (x : string) :
  x ∈ foldl (fun (results : gset string) (text : string) =>
               match atom_pattern text with
               | Some atom => results ∪ {[ atom ]}
               | None =>
                   if contains "/" text && negb (contains " " text)
                   then results ∪ {[ text ]}
                   else results
               end) acc items
  <-> x ∈ acc
      \/ exists text,
           text ∈ items
           /\ (atom_pattern text = Some x
               \/ (atom_pattern text = None /\ contains "/" text = true
                   /\ contains " " text = false /\ x = text)).
Proof.
  revert acc. induction items as [|text items IH]; intros acc; simpl.
  { split; [by left|]. intros [H | (text & Hin & _)]; [done|].
    by apply elem_of_nil in Hin. }
  rewrite IH. clear IH. split.
  - intros [Hacc | (text' & Hin & Hsel)].
    + destruct (atom_pattern text) as [atom|] eqn:Hmatch.
      * apply elem_of_union in Hacc as [Hacc | ->%elem_of_singleton];
          [by left|].
        right. exists text. split; [by left | by left].
      * destruct (contains "/" text) eqn:Hslash;
          [destruct (contains " " text) eqn:Hspace|]; simpl in Hacc;
          try (by left).
        apply elem_of_union in Hacc as [Hacc | ->%elem_of_singleton];
          [by left|].
        right. exists text. split; [by left | by right].
    + right. exists text'. split; [by right | done].
  - intros [Hacc | (text' & Hin & Hsel)].
    + left. destruct (atom_pattern text) as [atom|];
        [apply elem_of_union; by left|].
      destruct (contains "/" text && negb (contains " " text));
        [apply elem_of_union; by left | done].
    + apply elem_of_cons in Hin as [-> | Hin];
        [|right; by exists text'].
      left. destruct Hsel as [-> | (-> & -> & -> & ->)].
      * apply elem_of_union. right. by apply elem_of_singleton.
      * simpl. apply elem_of_union. right. by apply elem_of_singleton.
Qed.

(** [get_selected_package_atoms] returns, sorted and each once, the atom
    the pattern finds at the head of a selected item, or the item itself
    when the pattern finds none and the item holds a slash and no space:
    neither the order of the selection nor the same package selected twice
    changes the command line built from it. *)
Theorem get_selected_package_atoms_sorted
    (atom_pattern : string -> option string) (items : list string) :
  StronglySorted String.le (get_selected_package_atoms atom_pattern items)
  /\ NoDup (get_selected_package_atoms atom_pattern items)
  /\ (forall x,
        x ∈ get_selected_package_atoms atom_pattern items
        <-> exists text,
              text ∈ items
              /\ (atom_pattern text = Some x
                  \/ (atom_pattern text = None /\ contains "/" text = true
                      /\ contains " " text = false /\ x = text)))
  /\ (forall items',
        items' ≡ₚ items ->
        get_selected_package_atoms atom_pattern items'
        = get_selected_package_atoms atom_pattern items)
  /\ get_selected_package_atoms atom_pattern (items ++ items)
     = get_selected_package_atoms atom_pattern items.
Proof.
  assert (Helem : forall l x,
    x ∈ get_selected_package_atoms atom_pattern l
    <-> exists text,
          text ∈ l
          /\ (atom_pattern text = Some x
              \/ (atom_pattern text = None /\ contains "/" text = true
                  /\ contains " " text = false /\ x = text))).
  { intros l x. unfold get_selected_package_atoms, sorted.
    rewrite merge_sort_Permutation, elem_of_elements, selected_atoms_fold.
    split; [intros [H | H]; [by apply elem_of_empty in H | done] | by right]. }
  assert (Hsorted : forall l,
    StronglySorted String.le (get_selected_package_atoms atom_pattern l)).
  { intros l. unfold get_selected_package_atoms, sorted.
    apply StronglySorted_merge_sort; apply _. }
  assert (Hnodup : forall l,
    NoDup (get_selected_package_atoms atom_pattern l)).
  { intros l. unfold get_selected_package_atoms, sorted.
    rewrite merge_sort_Permutation. apply NoDup_elements. }
  assert (Hsame : forall l l',
    (forall text, text ∈ l' <-> text ∈ l) ->
    get_selected_package_atoms atom_pattern l'
    = get_selected_package_atoms atom_pattern l).
  { intros l l' Hl. apply (StronglySorted_unique String.le); [done..|].
    apply NoDup_Permutation; [done..|].
    intros x. rewrite !Helem. split; intros (text & Hin & Hsel);
      exists text; (split; [by apply Hl | done]). }
  split; [done|]. split; [done|]. split; [done|]. split.
  - intros items' Hperm. apply Hsame. intros text. by rewrite Hperm.
  - apply Hsame. intros text. rewrite elem_of_app. tauto.
Qed.

(** ** Update All before the updates are known *)

(** With no update stored, [update_all] tells from the first item of the
    update list what to say.  While the check for updates is running the
    item is not the one of a list being loaded, so the dialog says that
    there are no updates; after a click on Refresh, until the check starts,
    it asks to refresh first.  Neither starts a worker. *)
Theorem update_all_reads_the_placeholder (st : State) (answer : bool)
    (cb_arg : CallbackArg) :
  busy st = false ->
  update_list_atoms st = [] ->
  (exists st1 st2,
     refresh_updates cb_arg st = Ok st1
     /\ update_all answer st1 = Ok st2
     /\ dialogs st2 = "No updates available to perform." :: dialogs st
     /\ workers st2 = workers st1
     /\ current_worker st2 = current_worker st1)
  /\ (exists st1 st2,
        refresh_all st = Ok st1
        /\ update_all answer st1 = Ok st2
        /\ dialogs st2
           = "Updates list is not populated. Please refresh first."
             :: dialogs st
        /\ workers st2 = workers st1
        /\ current_worker st2 = current_worker st1).
Proof.
  intros Hidle Hnone. split.
  - eexists _, _. split; [by apply refresh_updates_idle|].
    split; [unfold update_all; fields; rewrite Hnone; reflexivity | done].
  - eexists _, _. split; [by apply refresh_all_idle|].
    split; [unfold update_all; fields; rewrite Hnone; reflexivity | done].
Qed.

Lemma update_all_reads_the_placeholder_witness :
  (exists st1 st2,
     refresh_updates (Some LOAD_STEP_COMPLETE) created = Ok st1
     /\ update_all true st1 = Ok st2
     /\ dialogs st2 = "No updates available to perform." :: dialogs created
     /\ workers st2 = workers st1
     /\ current_worker st2 = current_worker st1)
  /\ (exists st1 st2,
        refresh_all created = Ok st1
        /\ update_all true st1 = Ok st2
        /\ dialogs st2
           = "Updates list is not populated. Please refresh first."
             :: dialogs created
        /\ workers st2 = workers st1
        /\ current_worker st2 = current_worker st1).
Proof.
  apply (update_all_reads_the_placeholder created true
           (Some LOAD_STEP_COMPLETE)).
  - reflexivity.
  - reflexivity.
Defined.

(** ** The busy indicators *)

Lemma start_next_shown_busy
    (k : ErrorSlot -> string -> CallbackArg -> M) (step : CallbackArg)
    (st st' : State) :
  current_worker st = None ->
  step = Some LOAD_STEP_AVAILABLE \/ step = Some LOAD_STEP_UPDATES
  \/ step = Some LOAD_STEP_COMPLETE ->
  Handlers._start_next_load_step k step st = Ok st' ->
  shown_busy st'.
Proof.
  intros Hidle [-> | [-> | ->]].
  - rewrite start_available_idle by done. by intros [= <-].
  - rewrite start_updates_idle by done. by intros [= <-].
  - rewrite start_complete. by intros [= <-].
Qed.

Lemma generic_finished_shown_busy
    (k : ErrorSlot -> string -> CallbackArg -> M) (cb_arg : CallbackArg)
    (st st' : State) :
  cb_arg = Some LOAD_STEP_AVAILABLE \/ cb_arg = Some LOAD_STEP_UPDATES
  \/ cb_arg = Some LOAD_STEP_COMPLETE ->
  Handlers._generic_finished k cb_arg st = Ok st' ->
  shown_busy st'.
Proof.
  intros Hstep. rewrite generic_finished_unfold.
  by apply start_next_shown_busy.
Qed.

Lemma generic_error_shown_busy
    (k : ErrorSlot -> string -> CallbackArg -> M) (error_msg : string)
    (cb_arg : CallbackArg) (st st' : State) :
  error_msg <> EmptyString ->
  cb_arg = Some LOAD_STEP_AVAILABLE \/ cb_arg = Some LOAD_STEP_UPDATES
  \/ cb_arg = Some LOAD_STEP_COMPLETE ->
  Handlers._generic_error k error_msg cb_arg st = Ok st' ->
  shown_busy st'.
Proof.
  intros Hne Hstep.
  destruct (contains "Operation Cancelled" error_msg) eqn:Hcancel.
  { rewrite generic_error_cancelled by done. by intros [= <-]. }
  destruct (contains "Command not found" error_msg) eqn:Hfound.
  { rewrite generic_error_command_not_found by done. by intros [= <-]. }
  rewrite generic_error_ordinary by done.
  by apply start_next_shown_busy.
Qed.

(** Whichever way a worker of the window ends, its slots leave the busy
    indicators in line with [current_worker]. *)
Lemma worker_slots_shown_busy (w : WorkerObj) :
  query w \/ action w ->
  (forall st st',
     call_finished_slot (finished_slot w) (callback_arg w) st = Ok st' ->
     shown_busy st')
  /\ (forall error_msg st st',
        error_msg <> EmptyString ->
        call_error_slot (error_slot w) error_msg (callback_arg w) st = Ok st' ->
        shown_busy st').
Proof.
  intros [(parser_func & on_result & _ & -> & Hstep)
         | (_ & -> & -> & Hfinished)].
  - assert (Hcb : callback_arg w = Some LOAD_STEP_AVAILABLE
                  \/ callback_arg w = Some LOAD_STEP_UPDATES
                  \/ callback_arg w = Some LOAD_STEP_COMPLETE).
    { destruct Hstep as [(_ & _ & _ & _ & ->) | [(_ & _ & _ & _ & ->)
                                                | (_ & _ & _ & _ & ->)]];
        tauto. }
    split.
    { intros st st'. by apply generic_finished_shown_busy. }
    intros error_msg st st' Hne.
    unfold call_error_slot, Handlers.call_error_slot.
    destruct Hstep as [(_ & _ & _ & -> & _) | [(_ & _ & _ & -> & _)
                                              | (_ & _ & _ & -> & _)]].
    + unfold Handlers.on_installed_error. run_calls.
      by apply generic_error_shown_busy.
    + unfold Handlers.on_load_available_error. run_calls.
      by apply generic_error_shown_busy.
    + destruct (classify error_msg) eqn:Hclass.
      * unfold Handlers.on_updates_error. rewrite Hclass. run_calls.
        unfold seq at 1. rewrite on_updates_result_empty.
        by apply generic_finished_shown_busy.
      * rewrite updates_error_failure by congruence.
        by apply generic_error_shown_busy.
      * rewrite updates_error_failure by congruence.
        by apply generic_error_shown_busy.
  - split.
    + intros st st'.
      destruct Hfinished as [[_ ->] | (flags & targets & _ & _ & _ & ->)].
      * rewrite sync_action_finished. by intros [= <-].
      * rewrite refresh_action_finished. by intros [= <-].
    + intros error_msg st st' Hne.
      unfold call_error_slot, Handlers.call_error_slot.
      destruct (contains "Operation Cancelled" error_msg) eqn:Hcancel.
      * rewrite command_action_error_cancelled by done. by intros [= <-].
      * rewrite command_action_error_failure by done. by intros [= <-].
Qed.

Lemma deliver_data_current (id : nat) (s : Signal) (st st' : State) :
  terminal s = false -> deliver id s st = Ok st' ->
  workers st' = workers st.
Proof. intros Hs Hrun. by destruct (deliver_data id s st st' Hs Hrun) as (_ & ? & _). Qed.

Lemma complete_worker_shown_busy (o : Outcome) (st st' : State) :
  in_order st -> shown_busy st ->
  complete_worker o st = Ok st' -> shown_busy st'.
Proof.
  intros (_ & Hknown & _) Hshown. unfold complete_worker.
  destruct (current_worker st) as [id|] eqn:Hid; [|by intros [= <-]].
  destruct (workers st !! id) as [w|] eqn:Hw; [|by intros [= <-]].
  rewrite Forall_lookup in Hknown.
  destruct (worker_slots_shown_busy w (Hknown id w Hw))
    as [Hfinished Herror].
  destruct o as [data|error_msg]; cbn [signals_of deliver_all]; unfold seq.
  - destruct (deliver id (sig_result data) st) as [st1| |] eqn:Hresult;
      [|done..].
    pose proof (deliver_data_current id (sig_result data) st st1 eq_refl
                  Hresult) as Hws1.
    unfold deliver. rewrite Hws1, Hw.
    destruct (call_finished_slot (finished_slot w) (callback_arg w) st1)
      as [st2| |] eqn:Hslot; [|done..].
    unfold skip. intros [= <-]. exact (Hfinished st1 st2 Hslot).
  - unfold deliver. rewrite Hw.
    destruct (decide (error_msg = EmptyString)) as [->|Hne].
    { by destruct (error_slot_empty (error_slot w) (callback_arg w) st)
        as [st1 ->]. }
    destruct (call_error_slot (error_slot w) error_msg (callback_arg w) st)
      as [st2| |] eqn:Hslot; [|done..].
    unfold skip. intros [= <-]. exact (Herror error_msg st st2 Hne Hslot).
Qed.

(** The indicators are left alone. *)
Lemma shown_busy_kept (st st' : State) :
  current_worker st' = current_worker st ->
  progress_bar_visible st' = progress_bar_visible st ->
  cancel_button_enabled st' = cancel_button_enabled st
  \/ cancel_button_enabled st' = Some false ->
  shown_busy st -> shown_busy st'.
Proof.
  unfold shown_busy. intros -> -> Hcancel.
  destruct (current_worker st); [done|].
  intros [Hbar Hoff]. split; [done|]. by destruct Hcancel as [-> | ->].
Qed.

Lemma run_emerge_command_shown_busy (command : list string)
    (callback : option FinishedCallback) (status : string) (st st' : State) :
  shown_busy st ->
  run_emerge_command command callback None status true st = Ok st' ->
  shown_busy st'.
Proof.
  intros Hshown. destruct (busy st) eqn:Hbusy.
  - rewrite run_emerge_command_busy by done. intros [= <-].
    by apply (shown_busy_kept st); [..|left|].
  - rewrite run_emerge_command_idle by done. by intros [= <-].
Qed.

Lemma prints_shown_busy (atom_pattern : string -> option string)
    (items : list string) (st : State) :
  shown_busy st ->
  exists st1,
    get_selected_package_atoms_prints atom_pattern items st = Ok st1
    /\ shown_busy st1.
Proof.
  intros Hshown.
  destruct (get_selected_package_atoms_prints_effect atom_pattern items st)
    as (st1 & Hrun & _ & _ & _ & Hcur & _ & Hbar & Hcancel).
  exists st1. split; [done|].
  by apply (shown_busy_kept st); [..|left|].
Qed.

Lemma show_error_shown_busy (message : string) (st st' : State) :
  shown_busy st -> show_error message st = Ok st' -> shown_busy st'.
Proof.
  intros Hshown [= <-]. by apply (shown_busy_kept st); [..|left|].
Qed.

Lemma perform_update_shown_busy (packages : list string) (answer : bool)
    (st st' : State) :
  shown_busy st -> _perform_update packages answer st = Ok st' ->
  shown_busy st'.
Proof.
  intros Hshown. unfold _perform_update. destruct answer.
  - by apply run_emerge_command_shown_busy.
  - by intros [= <-].
Qed.

Lemma user_action_shown_busy (atom_pattern : string -> option string)
    (e : Event) (st st' : State) :
  user_action e = true -> shown_busy st ->
  handle atom_pattern e st = Ok st' -> shown_busy st'.
Proof.
  intros Huser Hshown.
  destruct e as [|answer|env|items answer|items answer
                 |items answer|answer| | |o]; [..|done]; cbn [handle].
  - unfold refresh_all. destruct (busy st) eqn:Hbusy.
    + rewrite refresh_all_busy by done. intros [= <-].
      by apply (shown_busy_kept st); [..|left|].
    + rewrite refresh_all_idle by done. by intros [= <-].
  - unfold run_sync. destruct answer;
      [by apply run_emerge_command_shown_busy | by intros [= <-]].
  - unfold cancel_operation. destruct (busy st) eqn:Hbusy.
    + run_calls. unfold seq at 1.
      destruct (current_worker st) as [id|] eqn:Hcur;
        [|by rewrite (busy_no_worker st Hcur) in Hbusy].
      match goal with
      | |- context [deliver_all id _ ?s] =>
          destruct (deliver_all_progress id (stop_emitted (stop env)) s
                      (stop_emits_progress_only env))
            as (st1 & -> & _ & _ & _ & Hcur' & _ & Hbar & _)
      end.
      intros [= <-].
      apply (shown_busy_kept st); [| |right; reflexivity|done].
      * fields. rewrite Hcur'. fields. by rewrite Hcur.
      * change (progress_bar_visible st1 = progress_bar_visible st).
        by rewrite Hbar.
    + intros [= <-]. by apply (shown_busy_kept st); [..|left|].
  - unfold install_selected_browse. unfold seq at 1.
    destruct (prints_shown_busy atom_pattern items st Hshown)
      as (st1 & -> & Hshown1).
    destruct (get_selected_package_atoms atom_pattern items)
      as [|atom atoms]; [by apply show_error_shown_busy|].
    cbn [_install_packages]. destruct answer;
      [by apply run_emerge_command_shown_busy | by intros [= <-]].
  - unfold uninstall_selected. unfold seq at 1.
    destruct (prints_shown_busy atom_pattern items st Hshown)
      as (st1 & -> & Hshown1).
    destruct (get_selected_package_atoms atom_pattern items)
      as [|atom atoms]; [by apply show_error_shown_busy|].
    destruct answer;
      [by apply run_emerge_command_shown_busy | by intros [= <-]].
  - unfold update_selected. unfold seq at 1.
    destruct (prints_shown_busy atom_pattern items st Hshown)
      as (st1 & -> & Hshown1).
    destruct (get_selected_package_atoms atom_pattern items)
      as [|atom atoms]; [by apply show_error_shown_busy|].
    by apply perform_update_shown_busy.
  - unfold update_all. destruct (update_list_atoms st).
    + destruct (update_list_items (ui st)) as [|first rest];
        [by apply show_error_shown_busy|].
      destruct (negb (contains "Loading" first));
        by apply show_error_shown_busy.
    + by apply perform_update_shown_busy.
  - intros [= <-]. by apply (shown_busy_kept st); [..|left|].
  - intros [= <-]. by apply (shown_busy_kept st); [..|left|].
Qed.

Lemma run_events_shown_busy (atom_pattern : string -> option string)
    (events : list Event) (st st' : State) :
  in_order st -> shown_busy st ->
  run_events atom_pattern events st = Ok st' -> shown_busy st'.
Proof.
  revert st. induction events as [|e events IH]; intros st Horder Hshown.
  { by intros [= <-]. }
  cbn [run_events]. unfold seq.
  destruct (handle atom_pattern e st) as [st1| |] eqn:Hrun; [|done..].
  apply IH; [by eapply handle_in_order|].
  destruct (user_action e) eqn:Huser.
  - by eapply user_action_shown_busy.
  - destruct e; try done. by eapply complete_worker_shown_busy.
Qed.

(** ** The end of the initial load *)

Lemma start_next_advances
    (k : ErrorSlot -> string -> CallbackArg -> M) (step : CallbackArg)
    (st st' : State) :
  current_worker st = None ->
  step = Some LOAD_STEP_AVAILABLE \/ step = Some LOAD_STEP_UPDATES
  \/ step = Some LOAD_STEP_COMPLETE ->
  Handlers._start_next_load_step k step st = Ok st' ->
  stops_or_goes_on step st st'.
Proof.
  intros Hidle [-> | [-> | ->]].
  - rewrite start_available_idle by done. intros [= <-]. right.
    eexists. split; [reflexivity|]. split; [reflexivity|].
    split; [apply query_available | by left].
  - rewrite start_updates_idle by done. intros [= <-]. right.
    eexists. split; [reflexivity|]. split; [reflexivity|].
    split; [apply query_updates | by right].
  - rewrite start_complete. intros [= <-]. by left.
Qed.

Lemma generic_error_advances
    (k : ErrorSlot -> string -> CallbackArg -> M) (error_msg : string)
    (cb_arg : CallbackArg) (st st' : State) :
  error_msg <> EmptyString ->
  cb_arg = Some LOAD_STEP_AVAILABLE \/ cb_arg = Some LOAD_STEP_UPDATES
  \/ cb_arg = Some LOAD_STEP_COMPLETE ->
  Handlers._generic_error k error_msg cb_arg st = Ok st' ->
  stops_or_goes_on cb_arg st st'.
Proof.
  intros Hne Hstep.
  destruct (contains "Operation Cancelled" error_msg) eqn:Hcancel.
  { rewrite generic_error_cancelled by done. intros [= <-]. by left. }
  destruct (contains "Command not found" error_msg) eqn:Hfound.
  { rewrite generic_error_command_not_found by done. intros [= <-].
    by left. }
  rewrite generic_error_ordinary by done.
  by apply start_next_advances.
Qed.

(** However a query ends, the chain stops or goes on to the query of the
    step the worker was created with. *)
Lemma query_slots_advance (w : WorkerObj) :
  query w ->
  (forall st st',
     call_finished_slot (finished_slot w) (callback_arg w) st = Ok st' ->
     stops_or_goes_on (callback_arg w) st st')
  /\ (forall error_msg st st',
        error_msg <> EmptyString ->
        call_error_slot (error_slot w) error_msg (callback_arg w) st = Ok st' ->
        stops_or_goes_on (callback_arg w) st st').
Proof.
  intros (parser_func & on_result & _ & -> & Hstep).
  assert (Hcb : callback_arg w = Some LOAD_STEP_AVAILABLE
                \/ callback_arg w = Some LOAD_STEP_UPDATES
                \/ callback_arg w = Some LOAD_STEP_COMPLETE).
  { destruct Hstep as [(_ & _ & _ & _ & ->) | [(_ & _ & _ & _ & ->)
                                              | (_ & _ & _ & _ & ->)]];
      tauto. }
  split.
  { intros st st'. cbn [call_finished_slot Handlers.call_finished_slot].
    change (Handlers._generic_finished error_callback (callback_arg w) st
            = Ok st' -> stops_or_goes_on (callback_arg w) st st').
    rewrite generic_finished_unfold. by apply start_next_advances. }
  intros error_msg st st' Hne.
  unfold call_error_slot, Handlers.call_error_slot.
  destruct Hstep as [(_ & _ & _ & -> & _) | [(_ & _ & _ & -> & _)
                                            | (_ & _ & _ & -> & _)]].
  - unfold Handlers.on_installed_error. run_calls.
    by apply generic_error_advances.
  - unfold Handlers.on_load_available_error. run_calls.
    by apply generic_error_advances.
  - destruct (classify error_msg) eqn:Hclass.
    + unfold Handlers.on_updates_error. rewrite Hclass. run_calls.
      unfold seq at 1. rewrite on_updates_result_empty.
      rewrite generic_finished_unfold. by apply start_next_advances.
    + rewrite updates_error_failure by congruence.
      by apply generic_error_advances.
    + rewrite updates_error_failure by congruence.
      by apply generic_error_advances.
Qed.

(** The end of a query: the window is idle with the commands it had, or
    waits for the query of the next step. *)
Lemma query_end_advances (o : Outcome) (id : nat) (w : WorkerObj)
    (st st' : State) :
  current_worker st = Some id -> workers st !! id = Some w -> query w ->
  complete_worker o st = Ok st' ->
  (current_worker st' = None /\ commands st' = commands st)
  \/ exists id' w',
       current_worker st' = Some id' /\ workers st' !! id' = Some w'
       /\ query_of_step (callback_arg w) w'
       /\ commands st' = commands st ++ [command_list w'].
Proof.
  intros Hid Hw Hquery. unfold complete_worker. rewrite Hid, Hw.
  destruct (query_slots_advance w Hquery) as [Hfinished Herror].
  assert (Hbound : (id < length (workers st))%nat)
    by (by eapply lookup_lt_Some).
  assert (Hexit : forall ws st2,
    workers st2 = ws -> stops_or_goes_on (callback_arg w) st st2 ->
    thread_exit id st2 = Ok st' ->
    (current_worker st' = None /\ commands st' = commands st)
    \/ exists id' w',
         current_worker st' = Some id' /\ workers st' !! id' = Some w'
         /\ query_of_step (callback_arg w) w'
         /\ commands st' = commands st ++ [command_list w']).
  { intros ws st2 _ Hchange [= <-]. unfold commands, set_workers. fields.
    rewrite commands_after_exit.
    destruct Hchange as [[-> ->] | (w' & -> & -> & Hnext)]; [by left|].
    right. exists (length (workers st)), w'.
    split; [done|]. split; [|split; [done | by rewrite fmap_app]].
    rewrite list_lookup_alter_ne by lia. by apply list_lookup_middle. }
  destruct o as [data|error_msg]; cbn [signals_of deliver_all]; unfold seq.
  - destruct (deliver id (sig_result data) st) as [st1| |] eqn:Hresult;
      [|done..].
    pose proof (deliver_data_current id (sig_result data) st st1 eq_refl
                  Hresult) as Hws1.
    unfold deliver. rewrite Hws1, Hw.
    destruct (call_finished_slot (finished_slot w) (callback_arg w) st1)
      as [st2| |] eqn:Hslot; [|done..].
    unfold skip. apply (Hexit (workers st2) st2 eq_refl).
    pose proof (Hfinished st1 st2 Hslot) as Hchange.
    unfold stops_or_goes_on in *. by rewrite <- Hws1.
  - unfold deliver. rewrite Hw.
    destruct (decide (error_msg = EmptyString)) as [->|Hne].
    { by destruct (error_slot_empty (error_slot w) (callback_arg w) st)
        as [st1 ->]. }
    destruct (call_error_slot (error_slot w) error_msg (callback_arg w) st)
      as [st2| |] eqn:Hslot; [|done..].
    unfold skip. apply (Hexit (workers st2) st2 eq_refl).
    exact (Herror error_msg st st2 Hne Hslot).
Qed.

Lemma complete_worker_idle (o : Outcome) (st : State) :
  current_worker st = None -> complete_worker o st = Ok st.
Proof. intros Hidle. unfold complete_worker. by rewrite Hidle. Qed.

(** The initial load comes to an end: however the queries end, and
    whether or not the chain goes on after each of them, once three workers
    have ended (fewer, when the chain stopped before) no worker is running,
    the progress bar is hidden and the cancel button disabled, and the
    commands run are the first one, two or three of the loading chain. *)
Theorem initial_load_comes_to_an_end (o1 o2 o3 : Outcome) (st : State) :
  run_sequence [o1; o2; o3] loading_installed = Ok st ->
  current_worker st = None
  /\ running_workers st = []
  /\ progress_bar_visible st = Some false
  /\ cancel_button_enabled st = Some false
  /\ (commands st = [["equery"; "list"; "--installed"; "*/*"]]
      \/ commands st = [["equery"; "list"; "--installed"; "*/*"];
                        ["eix"; "-c"; "--only-names"; "*/*"]]
      \/ commands st = [["equery"; "list"; "--installed"; "*/*"];
                        ["eix"; "-c"; "--only-names"; "*/*"];
                        ["emerge"; "-upvND"; "@world"]]).
Proof.
  intros Hrun.
  assert (Hevents : run_events (fun _ => None)
                      [worker_ends o1; worker_ends o2; worker_ends o3]
                      loading_installed = Ok st) by exact Hrun.
  pose proof (run_events_in_order _ _ _ _ loading_installed_in_order Hevents)
    as Horder.
  pose proof (run_events_shown_busy _ _ _ _ loading_installed_in_order
                eq_refl Hevents) as Hshown.
  assert (Hend : current_worker st = None
                 /\ (commands st = [["equery"; "list"; "--installed"; "*/*"]]
                     \/ commands st = [["equery"; "list"; "--installed"; "*/*"];
                                       ["eix"; "-c"; "--only-names"; "*/*"]]
                     \/ commands st
                        = [["equery"; "list"; "--installed"; "*/*"];
                           ["eix"; "-c"; "--only-names"; "*/*"];
                           ["emerge"; "-upvND"; "@world"]])).
  { clear Hevents Horder Hshown. cbn [run_sequence] in Hrun.
    unfold seq, skip in Hrun.
    destruct (complete_worker o1 loading_installed) as [st1| |] eqn:H1;
      [|done..].
    destruct (complete_worker o2 st1) as [st2| |] eqn:H2; [|done..].
    destruct (complete_worker o3 st2) as [st3| |] eqn:H3; [|done..].
    injection Hrun as ->.
    destruct (query_end_advances o1 0%nat _ loading_installed st1 eq_refl
                eq_refl (query_installed true) H1)
      as [[Hidle1 Hc1] | (id1 & w1 & Hid1 & Hw1 & [Hq1 Hstep1] & Hc1)].
    { rewrite (complete_worker_idle o2 st1 Hidle1) in H2.
      injection H2 as <-.
      rewrite (complete_worker_idle o3 st1 Hidle1) in H3.
      injection H3 as <-. split; [done|]. left. exact Hc1. }
    destruct Hstep1 as [[_ Hcmd1] | [[=] _]].
    assert (Hcb1 : callback_arg w1 = Some LOAD_STEP_UPDATES).
    { destruct Hq1 as (? & ? & _ & _ & [(Hc & _) | [(_ & _ & _ & _ & ?)
                                                  | (Hc & _)]]);
        [congruence | done | congruence]. }
    rewrite Hcmd1 in Hc1.
    destruct (query_end_advances o2 id1 w1 st1 st2 Hid1 Hw1 Hq1 H2)
      as [[Hidle2 Hc2] | (id2 & w2 & Hid2 & Hw2 & [Hq2 Hstep2] & Hc2)].
    { rewrite (complete_worker_idle o3 st2 Hidle2) in H3.
      injection H3 as <-. split; [done|]. right. left.
      by rewrite Hc2, Hc1. }
    rewrite Hcb1 in Hstep2. destruct Hstep2 as [[[=] _] | [_ Hcmd2]].
    assert (Hcb2 : callback_arg w2 = Some LOAD_STEP_COMPLETE).
    { destruct Hq2 as (? & ? & _ & _ & [(Hc & _) | [(Hc & _)
                                                  | (_ & _ & _ & _ & ?)]]);
        [congruence | congruence | done]. }
    rewrite Hcmd2, Hc1 in Hc2.
    destruct (query_end_advances o3 id2 w2 st2 st Hid2 Hw2 Hq2 H3)
      as [[Hidle3 Hc3] | (id3 & w3 & _ & _ & [_ Hstep3] & _)].
    - split; [done|]. right. right. by rewrite Hc3, Hc2.
    - rewrite Hcb2 in Hstep3. by destruct Hstep3 as [[[=] _] | [[=] _]]. }
  destruct Hend as [Hidle Hcommands].
  split; [done|].
  split; [apply idle_no_running; [apply Horder | done]|].
  unfold shown_busy in Hshown. rewrite Hidle in Hshown.
  by destruct Hshown.
Qed.

Lemma initial_load_comes_to_an_end_witness :
  exists st,
    run_sequence
      [Succeeds (PLines ["app-misc/foo-1.0"]);
       Fails msg_timeout;
       Fails "emerge: there are no ebuilds to satisfy"]
      loading_installed = Ok st
    /\ current_worker st = None
    /\ running_workers st = []
    /\ progress_bar_visible st = Some false
    /\ cancel_button_enabled st = Some false
    /\ (commands st = [["equery"; "list"; "--installed"; "*/*"]]
        \/ commands st = [["equery"; "list"; "--installed"; "*/*"];
                          ["eix"; "-c"; "--only-names"; "*/*"]]
        \/ commands st = [["equery"; "list"; "--installed"; "*/*"];
                          ["eix"; "-c"; "--only-names"; "*/*"];
                          ["emerge"; "-upvND"; "@world"]]).
Proof.
  eexists. split; [vm_compute; reflexivity|].
  apply (initial_load_comes_to_an_end
           (Succeeds (PLines ["app-misc/foo-1.0"]))
           (Fails msg_timeout)
           (Fails "emerge: there are no ebuilds to satisfy")).
  vm_compute. reflexivity.
Defined.

(** ** The check for updates and Update All *)

(** The last load step, from the process to the window, and what Update All
    does after it: when the check for updates exits cleanly and its output
    is parsed, the window stores the updates and the loading is complete;
    Update All then shows that there is nothing to do when no update was
    found, and otherwise, once confirmed, runs the update of [@world] under
    pkexec. *)
Theorem updates_step_enables_update_all
    (parse_updates : list string -> string + Payload) (p : Process)
    (atoms display : list string) (st : State) :
  waits_for ["emerge"; "-upvND"; "@world"] st ->
  clean_exit p ->
  parse_updates (strip <$> stdout p) = inr (PUpdates atoms display) ->
  exists st',
    process_ends parse_updates p st = Ok st'
    /\ update_list_atoms st' = atoms
    /\ update_list_display st' = display
    /\ installed_packages st' = installed_packages st
    /\ all_available_package_atoms st' = all_available_package_atoms st
    /\ complete st'
    /\ running_workers st' = []
    /\ commands st' = commands st
    /\ dialogs st' = dialogs st
    /\ (atoms = [] ->
        exists st'',
          update_all true st' = Ok st''
          /\ dialogs st'' = "No updates available to perform." :: dialogs st
          /\ commands st'' = commands st
          /\ current_worker st'' = None)
    /\ (atoms <> [] ->
        update_all false st' = Ok st'
        /\ exists st'',
             update_all true st' = Ok st''
             /\ waits_for ["emerge"; "--ask=n"; "--verbose"; "-uND"; "@world"]
                  st''
             /\ commands st''
                = commands st
                  ++ [["emerge"; "--ask=n"; "--verbose"; "-uND"; "@world"]]
             /\ dialogs st'' = dialogs st).
Proof.
  intros Hwaits Hclean Hparse.
  destruct (waits_for_query _ st Hwaits) as (id & w & Hid & Hw & Hcommand
    & (parser_func & on_result & Hclass & Hfinished & Hstep) & _ & Hbound);
    [by right|].
  destruct Hstep as [[Hc _] | [[Hc _] | (_ & -> & -> & Herror & Hcb)]];
    [congruence..|].
  rewrite (process_ends_result parse_updates p st id w
             parser_updates slot_on_updates_result
             (PUpdates atoms display) Hid Hw Hclass Hclean Hparse).
  remember (complete_worker (Succeeds (PUpdates atoms display)) st)
    as r eqn:Hrun.
  pose proof Hrun as Hcomplete.
  erewrite complete_worker_success in Hrun;
    [| exact Hid | exact Hw | exact Hclass
     | apply on_updates_result_unfold | reflexivity
     | rewrite Hfinished, Hcb;
       cbn [call_finished_slot Handlers.call_finished_slot];
       rewrite generic_finished_unfold; apply start_complete].
  unfold thread_exit, set_workers in Hrun. revert Hrun. fields. intros Hrun.
  destruct r as [st'| |]; [|discriminate..].
  injection Hrun as Hst'. symmetry in Hcomplete.
  assert (Horder : in_order st')
    by (eapply complete_worker_in_order; [apply Hwaits | exact Hcomplete]).
  exists st'. split; [done|].
  assert (Hatoms : update_list_atoms st' = atoms) by (by rewrite Hst').
  assert (Hui : ui st'
                = [CancelSetEnabled false; ProgressSetVisible false;
                   ShowMessage "Initial loading complete." 5000;
                   Print ("Generic task finished, proceeding to step: "
                          +:+ str_of_arg (Some LOAD_STEP_COMPLETE));
                   SetTabText update_tab_index
                     ("Updates (" +:+ str_of_nat (length atoms) +:+ ")")]
                  ++ (if bool_decide (length atoms = 0)%nat
                      then [ShowMessage "System is up to date." 3000;
                            ListAddItem update_package_list
                              "No updates available."]
                      else [ShowMessage (str_of_nat (length atoms)
                                         +:+ " updates available.") 3000;
                            ListAddItems update_package_list display])
                  ++ [ListClear update_package_list] ++ ui st)
    by (by rewrite Hst').
  assert (Hidle : current_worker st' = None) by (by rewrite Hst').
  assert (Hcommands : commands st' = commands st).
  { rewrite Hst'. unfold commands. fields.
    by rewrite commands_after_exit. }
  assert (Hdialogs : dialogs st' = dialogs st).
  { unfold dialogs. rewrite Hui.
    by destruct (bool_decide (length atoms = 0)%nat). }
  split; [done|]. split; [by rewrite Hst'|]. split; [by rewrite Hst'|].
  split; [by rewrite Hst'|].
  split.
  { split; [done|]. unfold status_message, progress_bar_visible,
      cancel_button_enabled. rewrite Hui. by repeat split. }
  split; [apply idle_no_running; [apply Horder | done]|].
  split; [done|]. split; [done|].
  split.
  - intros ->. eexists. split.
    { unfold update_all. rewrite Hatoms, Hui. reflexivity. }
    split; [rewrite <- Hdialogs; reflexivity|].
    split; [rewrite <- Hcommands; reflexivity | exact Hidle].
  - intros Hne. unfold update_all. rewrite Hatoms.
    destruct atoms as [|atom atoms]; [done|].
    split; [done|].
    unfold _perform_update.
    rewrite run_emerge_command_idle by (by apply busy_no_worker).
    eexists. split; [reflexivity|].
    split; [|split; [rewrite <- Hcommands; unfold commands; fields;
                     by rewrite fmap_app | done]].
    assert (Hkeeps : keeps_or_starts st'
              {| workers :=
                   workers st'
                   ++ [{| worker_class := CommandWorker true;
                          command_list :=
                            ["emerge"; "--ask=n"; "--verbose"; "-uND"]
                            ++ ["@world"];
                          callback_arg := None;
                          finished_slot :=
                            slot_command_action_finished
                              (Some cb_action_requires_refresh);
                          error_slot := slot_command_action_error None;
                          isRunning := true |}];
                 current_worker := Some (length (workers st'));
                 installed_packages := installed_packages st';
                 all_available_package_atoms :=
                   all_available_package_atoms st';
                 update_list_atoms := update_list_atoms st';
                 update_list_display := update_list_display st';
                 ui := [ConsoleEnsureCursorVisible;
                        ConsoleAppend
                          (Gui.nl +:+ dashes 30 +:+ Gui.nl +:+ "Executing: "
                           +:+ "pkexec "
                           +:+ join " " (["emerge"; "--ask=n"; "--verbose";
                                          "-uND"] ++ ["@world"])
                           +:+ Gui.nl +:+ dashes 30 +:+ Gui.nl);
                        ShowOutputTab; CancelSetEnabled true;
                        ProgressSetVisible true; ProgressSetRange 0 0;
                        ShowMessage
                          ("Updating " +:+ join " " ["@world"] +:+ "...") 0]
                       ++ ui st' |}).
    { split; [grows_calls|]. split; [done|]. right.
      split; [by apply busy_no_worker|].
      eexists. split; [reflexivity|]. split; [done|]. split; [|done].
      right. apply (action_emerge ["-uND"] ["@world"]); [tauto | done]. }
    split; [by eapply keeps_or_starts_in_order|].
    eexists (length (workers st')), _. fields.
    split; [done|]. split; [by apply list_lookup_middle | done].
Qed.

Lemma updates_step_enables_update_all_witness :
  exists st,
    run_events (fun _ => None)
      [worker_ends (Succeeds (PLines ["app-misc/foo-1.0"]));
       worker_ends (Succeeds (PLines ["app-misc/foo"]))]
      loading_installed = Ok st
    /\ exists st',
         process_ends
           (fun _ => inr (PUpdates ["app-misc/foo"]
                            ["app-misc/foo-1.1 [Update]"]))
           successful_process st = Ok st'
         /\ update_list_atoms st' = ["app-misc/foo"]
         /\ update_list_display st' = ["app-misc/foo-1.1 [Update]"]
         /\ installed_packages st' = installed_packages st
         /\ all_available_package_atoms st' = all_available_package_atoms st
         /\ complete st'
         /\ running_workers st' = []
         /\ commands st' = commands st
         /\ dialogs st' = dialogs st
         /\ (["app-misc/foo"] = [] ->
             exists st'',
               update_all true st' = Ok st''
               /\ dialogs st''
                  = "No updates available to perform." :: dialogs st
               /\ commands st'' = commands st
               /\ current_worker st'' = None)
         /\ (["app-misc/foo"] <> [] ->
             update_all false st' = Ok st'
             /\ exists st'',
                  update_all true st' = Ok st''
                  /\ waits_for
                       ["emerge"; "--ask=n"; "--verbose"; "-uND"; "@world"]
                       st''
                  /\ commands st''
                     = commands st
                       ++ [["emerge"; "--ask=n"; "--verbose"; "-uND";
                            "@world"]]
                  /\ dialogs st'' = dialogs st).
Proof.
  eexists. split; [vm_compute; reflexivity|].
  apply (updates_step_enables_update_all
           (fun _ => inr (PUpdates ["app-misc/foo"]
                            ["app-misc/foo-1.1 [Update]"]))
           successful_process ["app-misc/foo"]
           ["app-misc/foo-1.1 [Update]"]).
  - split.
    + apply (run_events_in_order (fun _ => None)
               [worker_ends (Succeeds (PLines ["app-misc/foo-1.0"]));
                worker_ends (Succeeds (PLines ["app-misc/foo"]))]
               loading_installed);
        [apply loading_installed_in_order | vm_compute; reflexivity].
    + exists 2%nat. eexists. split; [reflexivity|]. split; reflexivity.
  - split; [reflexivity|]. split; [reflexivity|]. split; [reflexivity|].
    split; [eexists; reflexivity | reflexivity].
  - reflexivity.
Defined.
